(** * Rate-limited messaging dispatch and auto-reply engine

    A shallow embedding of [src/services/WhatsAppManager.js],
    [src/services/SchedulerService.js] and [src/services/MessageLogger.js]:
    the usage ledger ([checkAndUpdateUsage]), the settings cache
    ([getUserSettings], [clearSettingsCache]), the single-send path
    ([sendMessage]), the broadcast runner ([sendBroadcast]), the inbound
    cascade ([handleIncomingMessage], [saveMessage], [checkAutoReply],
    [checkAIAutoReply]), the client registry ([isConnected],
    [disconnectDevice]), the scheduled-message runner
    ([processScheduledMessages], [scheduleMessage], [cancelScheduledMessage],
    [getScheduledMessages]) and the history of outgoing messages
    ([saveOutgoingMessage], [updateMessageStatus]).

    The relational store, the messaging transport and the AI provider are
    collaborators of the engine.  The store is modelled by its tables and the
    statements the engine issues against them; what the collaborators answer
    (a statement that fails, a send that is rejected, a completion) is read
    from oracles recorded in the world, indexed by the number of calls made
    so far. *)

From Stdlib Require Import ZArith List String Ascii Bool Lia DecimalString Sorted
  Permutation.
Import ListNotations.
Open Scope string_scope.
Open Scope list_scope.
Open Scope Z_scope.

(** ** JavaScript strings

    Strings are modelled as byte strings: a JavaScript string is
    represented by its UTF-8 encoding.  Comparison, [includes], [startsWith],
    [endsWith] and [split] on an ASCII separator are the same on the
    encoding as on a well-formed string.  [toLowerCase] and [trim] are those of
    JavaScript on ASCII text ([ascii_text]): they fold the letters A to Z
    and strip the white space among the first 128 characters.  On other
    text JavaScript also folds the letters and strips the white space of
    the other Unicode blocks, which the byte model does not reproduce; the
    properties whose truth depends on folding or trimming are therefore
    stated for ASCII text. *)

Module JsString.

(** The domain on which [toLowerCase] and [trim] below are the functions
    of JavaScript: every byte is below 128. *)
Definition is_ascii (c : ascii) : bool := (nat_of_ascii c <? 128)%nat.

Fixpoint ascii_text (s : string) : bool :=
  match s with
  | EmptyString => true
  | String c s' => is_ascii c && ascii_text s'
  end.

Definition lower_ascii (c : ascii) : ascii :=
  let n := nat_of_ascii c in
  if (65 <=? n)%nat && (n <=? 90)%nat then ascii_of_nat (n + 32) else c.

(** [s.toLowerCase()], for [s] of ASCII text *)
Fixpoint toLowerCase (s : string) : string :=
  match s with
  | EmptyString => EmptyString
  | String c s' => String (lower_ascii c) (toLowerCase s')
  end.

(** [s.startsWith(t)] *)
Definition startsWith (s t : string) : bool := prefix t s.

(** [s.includes(t)] *)
Fixpoint includes (s t : string) : bool :=
  prefix t s ||
  match s with
  | EmptyString => false
  | String _ s' => includes s' t
  end.

(** [s.endsWith(t)] *)
Definition endsWith (s t : string) : bool :=
  if (String.length t <=? String.length s)%nat
  then String.eqb (substring (String.length s - String.length t) (String.length t) s) t
  else false.

Definition is_space (c : ascii) : bool :=
  let n := nat_of_ascii c in
  (n =? 32)%nat || ((9 <=? n)%nat && (n <=? 13)%nat).

Fixpoint trimStart (s : string) : string :=
  match s with
  | EmptyString => EmptyString
  | String c s' => if is_space c then trimStart s' else s
  end.

Fixpoint string_rev_onto (s acc : string) : string :=
  match s with
  | EmptyString => acc
  | String c s' => string_rev_onto s' (String c acc)
  end.

Definition string_rev (s : string) : string := string_rev_onto s EmptyString.

(** [s.trim()], for [s] of ASCII text: tab, line feed, vertical tab, form
    feed, carriage return and space are the white space and the line
    terminators among the first 128 characters. *)
Definition trim (s : string) : string :=
  string_rev (trimStart (string_rev (trimStart s))).

(** [s.split(sep)] for a one-character separator: the current piece is
    accumulated in reverse in [cur]. *)
Fixpoint split_onto (sep : ascii) (s cur : string) : list string :=
  match s with
  | EmptyString => [string_rev cur]
  | String c s' =>
      if Ascii.eqb c sep then string_rev cur :: split_onto sep s' EmptyString
      else split_onto sep s' (String c cur)
  end.

Definition split (sep : ascii) (s : string) : list string :=
  split_onto sep s EmptyString.

(** The template-literal rendering of an integer. *)
Definition of_Z (z : Z) : string := NilZero.string_of_int (Z.to_int z).

(** A string is truthy when it is not empty. *)
Definition truthy (s : string) : bool :=
  match s with EmptyString => false | _ => true end.

End JsString.

(** ** Errors and outcomes *)

Inductive JsError : Type :=
| Error (message : string)
| ReferenceError (message : string).

Definition message (e : JsError) : string :=
  match e with
  | Error m => m
  | ReferenceError m => m
  end.

Inductive Outcome (A : Type) : Type :=
| Ok (a : A)
| Throw (e : JsError).

Arguments Ok {A} a.
Arguments Throw {A} e.

(** ** Rows of the store *)

(** [user_settings] *)
Record Settings : Type := mkSettings {
  daily_message_limit : Z;
  message_delay_seconds : Z;
  broadcast_delay_seconds : Z;
  auto_reply_delay_seconds : Z;
  max_broadcast_recipients : Z;
  enable_rate_limiting : bool
}.

(** The column defaults of [user_settings]; also the literal returned by
    [getUserSettings] when the store fails. *)
Definition default_settings : Settings :=
  {| daily_message_limit := 200;
     message_delay_seconds := 3;
     broadcast_delay_seconds := 5;
     auto_reply_delay_seconds := 2;
     max_broadcast_recipients := 100;
     enable_rate_limiting := true |}.

(** [daily_usage], unique on (user_id, device_id, date).  A date is the
    number of the UTC day. *)
Record UsageRow : Type := mkUsage {
  u_user : Z;
  u_device : Z;
  u_date : Z;
  messages_sent : Z;
  broadcasts_sent : Z;
  auto_replies_sent : Z
}.

Inductive MatchType : Type := exact | contains | starts_with | ends_with.

(** [auto_replies]; [match_type] is a free-text column, [None] stands for
    any value outside the four the [switch] knows. *)
Record AutoReply : Type := mkAutoReply {
  ar_id : Z;
  ar_device : Z;
  trigger_keyword : string;
  match_type : option MatchType;
  reply_message : string;
  is_active : bool
}.

Inductive Provider : Type := openai | gemini.

(** [ai_settings]; nullable text columns are options. *)
Record AiSettings : Type := mkAiSettings {
  ai_device : Z;
  is_enabled : bool;
  ai_provider : Provider;
  api_key : option string;
  reply_delay_seconds : Z;
  ignore_groups : bool;
  only_when_contains : option string;
  excluded_contacts : option string;
  fallback_message : option string
}.

Inductive Role : Type := user | assistant.

(** [ai_conversations] *)
Record Turn : Type := mkTurn {
  t_id : Z;
  t_device : Z;
  chat_id : string;
  role : Role;
  content : string;
  t_created_at : Z
}.

Inductive Status : Type := pending | sent | failed | cancelled.

(** [scheduled_messages] *)
Record Scheduled : Type := mkScheduled {
  s_id : Z;
  s_device : Z;
  to_number : string;
  body : string;
  scheduled_at : Z;
  status : Status;
  sent_at : option Z;
  error_message : option string
}.

Record Db : Type := mkDb {
  daily_usage : list UsageRow;
  user_settings : list (Z * Settings);
  devices : list (Z * option Z);      (* id, user_id *)
  auto_replies : list AutoReply;
  ai_settings : list AiSettings;
  ai_conversations : list Turn;
  conv_seq : Z;                       (* next id of ai_conversations *)
  scheduled_messages : list Scheduled;
  sched_seq : Z;                      (* next id of scheduled_messages *)
  messages : list (Z * string)        (* device_id, message_id *)
}.

(** ** The collaborators' answers *)

Inductive SendOutcome : Type :=
| SendOk (messageId : string) (timestamp : Z)
| SendRejected (reason : string).

Inductive AiOutcome : Type :=
| AiText (text : string)
| AiFailed (reason : string).

Record Env : Type := mkEnv {
  fault_at : nat -> option string;    (* the n-th statement fails with this message *)
  send_outcome : nat -> SendOutcome;  (* the n-th transport send *)
  ai_outcome : nat -> AiOutcome;      (* the n-th provider call *)
  render : string -> string -> string (* contact lookup and placeholder substitution *)
}.

(** What the engine does to the outside, in order. *)
Inductive Event : Type :=
| EvSent (device : Z) (chat : string) (text : string)
| EvSendFailed (device : Z) (chat : string) (text : string)
| EvSleep (ms : Z)
| EvEmit (to_user : Z) (name : string)
| EvComplete (provider : Provider) (history : list (Role * string))
    (userMessage : string).

Record CacheEntry : Type := mkCacheEntry {
  settings : Settings;
  timestamp : Z
}.

(** ** The world *)

Record World : Type := mkWorld {
  env : Env;
  db : Db;
  now : Z;                            (* Date.now(), milliseconds *)
  queries : nat;                      (* statements issued so far *)
  sends : nat;                        (* transport sends so far *)
  completions : nat;                  (* provider calls so far *)
  userSettings : list (Z * CacheEntry);  (* this.userSettings *)
  clients : list (Z * bool);          (* this.clients: device id, whether client.info is set *)
  trace : list Event;
  console : list string;              (* console.error labels *)
  calls : list string                 (* methods entered, for control-flow statements *)
}.

Definition with_db (f : Db -> Db) (w : World) : World :=
  mkWorld (env w) (f (db w)) (now w) (queries w) (sends w) (completions w)
          (userSettings w) (clients w) (trace w) (console w) (calls w).

Definition with_now (f : Z -> Z) (w : World) : World :=
  mkWorld (env w) (db w) (f (now w)) (queries w) (sends w) (completions w)
          (userSettings w) (clients w) (trace w) (console w) (calls w).

Definition with_queries (f : nat -> nat) (w : World) : World :=
  mkWorld (env w) (db w) (now w) (f (queries w)) (sends w) (completions w)
          (userSettings w) (clients w) (trace w) (console w) (calls w).

Definition with_sends (f : nat -> nat) (w : World) : World :=
  mkWorld (env w) (db w) (now w) (queries w) (f (sends w)) (completions w)
          (userSettings w) (clients w) (trace w) (console w) (calls w).

Definition with_completions (f : nat -> nat) (w : World) : World :=
  mkWorld (env w) (db w) (now w) (queries w) (sends w) (f (completions w))
          (userSettings w) (clients w) (trace w) (console w) (calls w).

Definition with_userSettings (f : list (Z * CacheEntry) -> list (Z * CacheEntry))
  (w : World) : World :=
  mkWorld (env w) (db w) (now w) (queries w) (sends w) (completions w)
          (f (userSettings w)) (clients w) (trace w) (console w) (calls w).

Definition with_trace (f : list Event -> list Event) (w : World) : World :=
  mkWorld (env w) (db w) (now w) (queries w) (sends w) (completions w)
          (userSettings w) (clients w) (f (trace w)) (console w) (calls w).

Definition with_console (f : list string -> list string) (w : World) : World :=
  mkWorld (env w) (db w) (now w) (queries w) (sends w) (completions w)
          (userSettings w) (clients w) (trace w) (f (console w)) (calls w).

Definition with_calls (f : list string -> list string) (w : World) : World :=
  mkWorld (env w) (db w) (now w) (queries w) (sends w) (completions w)
          (userSettings w) (clients w) (trace w) (console w) (f (calls w)).

Definition with_daily_usage (f : list UsageRow -> list UsageRow) (d : Db) : Db :=
  mkDb (f (daily_usage d)) (user_settings d) (devices d) (auto_replies d)
       (ai_settings d) (ai_conversations d) (conv_seq d)
       (scheduled_messages d) (sched_seq d) (messages d).

Definition with_user_settings (f : list (Z * Settings) -> list (Z * Settings))
  (d : Db) : Db :=
  mkDb (daily_usage d) (f (user_settings d)) (devices d) (auto_replies d)
       (ai_settings d) (ai_conversations d) (conv_seq d)
       (scheduled_messages d) (sched_seq d) (messages d).

Definition with_ai_conversations (f : list Turn -> list Turn) (d : Db) : Db :=
  mkDb (daily_usage d) (user_settings d) (devices d) (auto_replies d)
       (ai_settings d) (f (ai_conversations d)) (conv_seq d)
       (scheduled_messages d) (sched_seq d) (messages d).

Definition with_conv_seq (f : Z -> Z) (d : Db) : Db :=
  mkDb (daily_usage d) (user_settings d) (devices d) (auto_replies d)
       (ai_settings d) (ai_conversations d) (f (conv_seq d))
       (scheduled_messages d) (sched_seq d) (messages d).

Definition with_scheduled_messages (f : list Scheduled -> list Scheduled)
  (d : Db) : Db :=
  mkDb (daily_usage d) (user_settings d) (devices d) (auto_replies d)
       (ai_settings d) (ai_conversations d) (conv_seq d)
       (f (scheduled_messages d)) (sched_seq d) (messages d).

Definition with_sched_seq (f : Z -> Z) (d : Db) : Db :=
  mkDb (daily_usage d) (user_settings d) (devices d) (auto_replies d)
       (ai_settings d) (ai_conversations d) (conv_seq d)
       (scheduled_messages d) (f (sched_seq d)) (messages d).

Definition with_messages (f : list (Z * string) -> list (Z * string))
  (d : Db) : Db :=
  mkDb (daily_usage d) (user_settings d) (devices d) (auto_replies d)
       (ai_settings d) (ai_conversations d) (conv_seq d)
       (scheduled_messages d) (sched_seq d) (f (messages d)).

(** ** Computations: a world transformer that returns or throws

    A thrown error keeps the world as it was when the error was raised, as a
    JavaScript [catch] sees it. *)

Definition M (A : Type) : Type := World -> Outcome A * World.

Definition ret {A} (a : A) : M A := fun w => (Ok a, w).

Definition throw {A} (e : JsError) : M A := fun w => (Throw e, w).

Definition bind {A B} (m : M A) (k : A -> M B) : M B :=
  fun w =>
    match m w with
    | (Ok a, w') => k a w'
    | (Throw e, w') => (Throw e, w')
    end.

Definition try_catch {A} (m : M A) (h : JsError -> M A) : M A :=
  fun w =>
    match m w with
    | (Ok a, w') => (Ok a, w')
    | (Throw e, w') => h e w'
    end.

Declare Scope js_scope.
Delimit Scope js_scope with js.
Notation "x <- m ;; k" := (bind m (fun x => k))
  (at level 61, m at next level, right associativity) : js_scope.
Notation "m ;; k" := (bind m (fun _ => k))
  (at level 61, right associativity) : js_scope.
Notation "'try' m 'catch' x => h" := (try_catch m (fun x => h))
  (at level 61, m at next level, x name, h at next level) : js_scope.
Open Scope js_scope.

Definition modify (f : World -> World) : M unit := fun w => (Ok tt, f w).

Definition gets {A} (f : World -> A) : M A := fun w => (Ok (f w), w).

(** [await pool.query(...)]: one round trip to the store.  The statement is
    counted, the clock moves on by a millisecond, and either the oracle makes
    the statement fail or its effect [q] is applied to the tables. *)
Definition pool_query {A} (q : Z -> Db -> A * Db) : M A :=
  fun w =>
    let w1 := with_now (Z.add 1) (with_queries S w) in
    match fault_at (env w) (queries w) with
    | Some m => (Throw (Error m), w1)
    | None =>
        let (a, d) := q (now w) (db w) in
        (Ok a, with_db (fun _ => d) w1)
    end.

(** [console.error(label, ...)] *)
Definition console_error (label : string) : M unit :=
  modify (with_console (fun l => l ++ [label])).

(** [await new Promise(resolve => setTimeout(resolve, ms))] *)
Definition sleep (ms : Z) : M unit :=
  modify (fun w => with_trace (fun t => t ++ [EvSleep ms]) (with_now (Z.add ms) w)).

(** [this.io.to(`user-${userId}`).emit(name, ...)] *)
Definition io_emit (userId : Z) (name : string) : M unit :=
  modify (with_trace (fun t => t ++ [EvEmit userId name])).

Definition entered (method : string) : M unit :=
  modify (with_calls (fun l => l ++ [method])).

(** [this.clients.get(deviceId)]: whether a client is registered, and
    whether its [info] is set. *)
Fixpoint clients_get (cs : list (Z * bool)) (deviceId : Z) : option bool :=
  match cs with
  | [] => None
  | (d, info) :: cs' => if d =? deviceId then Some info else clients_get cs' deviceId
  end.

(** [await client.sendMessage(chatId, text)] on the client of [deviceId]. *)
Definition client_sendMessage (deviceId : Z) (chatId text : string)
  : M (string * Z) :=
  fun w =>
    let w1 := with_sends S w in
    match send_outcome (env w) (sends w) with
    | SendOk mid ts =>
        (Ok (mid, ts), with_trace (fun t => t ++ [EvSent deviceId chatId text]) w1)
    | SendRejected m =>
        (Throw (Error m), with_trace (fun t => t ++ [EvSendFailed deviceId chatId text]) w1)
    end.

(** [new Date().toISOString().split('T')[0]]: the UTC day of the clock. *)
Definition today (w : World) : Z := now w / 86400000.

(** ** SettingsCache: [getUserSettings] *)

Fixpoint cache_get (c : list (Z * CacheEntry)) (userId : Z) : option CacheEntry :=
  match c with
  | [] => None
  | (u, e) :: c' => if u =? userId then Some e else cache_get c' userId
  end.

Definition cache_set (userId : Z) (e : CacheEntry) (c : list (Z * CacheEntry))
  : list (Z * CacheEntry) :=
  (userId, e) :: filter (fun p => negb (fst p =? userId)) c.

(** [SELECT * FROM user_settings WHERE user_id = $1] *)
Definition select_user_settings (userId : Z) (_ : Z) (d : Db)
  : list Settings * Db :=
  (map snd (filter (fun p => fst p =? userId) (user_settings d)), d).

(** [INSERT INTO user_settings (user_id) VALUES ($1) RETURNING *]: the new
    row takes the column defaults. *)
Definition insert_default_settings (userId : Z) (_ : Z) (d : Db)
  : Settings * Db :=
  (default_settings,
   with_user_settings (fun l => l ++ [(userId, default_settings)]) d).

(** The [try] block of [getUserSettings], taken on a cache miss or expiry. *)
Definition load_user_settings (userId : Z) : M Settings :=
  try (rows <- pool_query (select_user_settings userId) ;;
       s <- match rows with
            | s :: _ => ret s
            | [] => pool_query (insert_default_settings userId)
            end ;;
       t <- gets now ;;
       modify (with_userSettings (cache_set userId (mkCacheEntry s t))) ;;
       ret s)
  catch _ => (console_error "Error getting user settings:" ;;
              ret default_settings).

Definition getUserSettings (userId : Z) : M Settings :=
  cached <- gets (fun w => cache_get (userSettings w) userId) ;;
  t <- gets now ;;
  match cached with
  | Some c =>
      if t - timestamp c <? 300000 then ret (settings c)
      else load_user_settings userId
  | None => load_user_settings userId
  end.

(** ** UsageLedger: [checkAndUpdateUsage] *)

Definition usage_key (userId deviceId date : Z) (r : UsageRow) : bool :=
  (u_user r =? userId) && (u_device r =? deviceId) && (u_date r =? date).

(** [INSERT INTO daily_usage (user_id, device_id, date) VALUES ($1, $2, $3)
    ON CONFLICT (user_id, device_id, date) DO NOTHING RETURNING *] *)
Definition ensure_usage_row (userId deviceId date : Z) (_ : Z) (d : Db)
  : unit * Db :=
  if existsb (usage_key userId deviceId date) (daily_usage d) then (tt, d)
  else (tt, with_daily_usage
              (fun l => l ++ [mkUsage userId deviceId date 0 0 0]) d).

Definition sum_of (f : UsageRow -> Z) (l : list UsageRow) : Z :=
  fold_right (fun r acc => f r + acc) 0 l.

Definition rows_of_day (userId date : Z) (l : list UsageRow) : list UsageRow :=
  filter (fun r => (u_user r =? userId) && (u_date r =? date)) l.

(** [SELECT COALESCE(SUM(messages_sent), 0), COALESCE(SUM(broadcasts_sent), 0),
    COALESCE(SUM(auto_replies_sent), 0) FROM daily_usage
    WHERE user_id = $1 AND date = $2] *)
Definition select_usage (userId date : Z) (_ : Z) (d : Db) : (Z * Z * Z) * Db :=
  let rows := rows_of_day userId date (daily_usage d) in
  ((sum_of messages_sent rows, sum_of broadcasts_sent rows,
    sum_of auto_replies_sent rows), d).

Inductive UsageField : Type :=
  f_messages_sent | f_broadcasts_sent | f_auto_replies_sent.

(** [type === 'broadcast' ? 'broadcasts_sent' :
     type === 'auto_reply' ? 'auto_replies_sent' : 'messages_sent'] *)
Definition updateField (type : string) : UsageField :=
  if String.eqb type "broadcast" then f_broadcasts_sent
  else if String.eqb type "auto_reply" then f_auto_replies_sent
  else f_messages_sent.

Definition bump (f : UsageField) (r : UsageRow) : UsageRow :=
  match f with
  | f_messages_sent =>
      mkUsage (u_user r) (u_device r) (u_date r)
              (messages_sent r + 1) (broadcasts_sent r) (auto_replies_sent r)
  | f_broadcasts_sent =>
      mkUsage (u_user r) (u_device r) (u_date r)
              (messages_sent r) (broadcasts_sent r + 1) (auto_replies_sent r)
  | f_auto_replies_sent =>
      mkUsage (u_user r) (u_device r) (u_date r)
              (messages_sent r) (broadcasts_sent r) (auto_replies_sent r + 1)
  end.

(** [UPDATE daily_usage SET f = f + 1, updated_at = NOW()
    WHERE user_id = $1 AND device_id = $2 AND date = $3] *)
Definition update_usage (f : UsageField) (userId deviceId date : Z) (_ : Z)
  (d : Db) : unit * Db :=
  (tt, with_daily_usage
         (map (fun r => if usage_key userId deviceId date r then bump f r else r)) d).

(** Reading a [const]: the bindings in scope are searched, and a name that
    is not among them raises a ReferenceError. *)
Fixpoint read_const (scope : list (string * Z)) (x : string) : M Z :=
  match scope with
  | [] => throw (ReferenceError (x ++ " is not defined")%string)
  | (y, v) :: scope' => if String.eqb x y then ret v else read_const scope' x
  end.

Definition quota_message (limit : Z) : string :=
  ("Daily message limit reached (" ++ JsString.of_Z limit ++
   "). Try again tomorrow.")%string.

Record UsageCheck : Type := mkUsageCheck {
  allowed : bool;
  remaining : Z;
  uc_settings : Settings
}.

(** The [try] block of [checkAndUpdateUsage].  [totalSent] is a [const] of
    the block of [if (settings.enable_rate_limiting)]; the object literal
    of the [return] is outside that block, where the numeric bindings of
    the function are the two sums read from the store. *)
Definition reserve (userId deviceId : Z) (type : string) (date : Z)
  : M UsageCheck :=
  pool_query (ensure_usage_row userId deviceId date) ;;
  usage <- pool_query (select_usage userId date) ;;
  let '(total_messages, total_broadcasts, _) := usage in
  let scope := [("total_messages", total_messages);
                ("total_broadcasts", total_broadcasts)] in
  s <- getUserSettings userId ;;
  (if enable_rate_limiting s then
     let block := ("totalSent", total_messages + total_broadcasts) :: scope in
     totalSent <- read_const block "totalSent" ;;
     if totalSent >=? daily_message_limit s
     then throw (Error (quota_message (daily_message_limit s)))
     else ret tt
   else ret tt) ;;
  pool_query (update_usage (updateField type) userId deviceId date) ;;
  totalSent <- read_const scope "totalSent" ;;
  ret (mkUsageCheck true (daily_message_limit s - totalSent - 1) s).

(** The [catch] block of [checkAndUpdateUsage]. *)
Definition on_error (userId : Z) (error : JsError) : M UsageCheck :=
  if JsString.includes (message error) "Daily message limit"
  then throw error
  else (console_error "Error checking usage:" ;;
        s <- getUserSettings userId ;;
        ret (mkUsageCheck true (-1) s)).

Definition checkAndUpdateUsage (userId deviceId : Z) (type : string)
  : M UsageCheck :=
  date <- gets today ;;
  try (reserve userId deviceId type date)
  catch error => on_error userId error.

(** What the ledger holds for a user on a day: the total the quota is
    checked against. *)
Definition total_sent (userId date : Z) (w : World) : Z :=
  let rows := rows_of_day userId date (daily_usage (db w)) in
  sum_of messages_sent rows + sum_of broadcasts_sent rows.

(** ** Dispatcher: [sendMessage] *)

(** [SELECT user_id FROM devices WHERE id = $1], then [rows[0]?.user_id] *)
Definition select_device_user (deviceId : Z) (_ : Z) (d : Db)
  : option Z * Db :=
  (match filter (fun p => fst p =? deviceId) (devices d) with
   | (_, u) :: _ => u
   | [] => None
   end, d).

(** Truthiness of [userId]: defined, and not 0. *)
Definition truthy_id (u : option Z) : option Z :=
  match u with
  | Some n => if n =? 0 then None else Some n
  | None => None
  end.

Definition is_digit (c : ascii) : bool :=
  let n := nat_of_ascii c in (48 <=? n)%nat && (n <=? 57)%nat.

(** [to.replace(/\D/g, '')] *)
Fixpoint digits_only (s : string) : string :=
  match s with
  | EmptyString => EmptyString
  | String c s' => if is_digit c then String c (digits_only s') else digits_only s'
  end.

(** [to.includes('@') ? to : to.replace(/\D/g, '') + '@c.us'] *)
Definition format_number (to : string) : string :=
  if JsString.includes to "@" then to else (digits_only to ++ "@c.us")%string.

(** The options of [sendMessage] that bear on the quota; a [media] attachment
    changes the payload handed to the transport only and is left out. *)
Record SendOptions : Type := mkSendOptions {
  skipRateLimit : bool;
  messageType : option string
}.

Definition no_options : SendOptions := mkSendOptions false None.

Record SendResult : Type := mkSendResult {
  sr_messageId : string;
  sr_timestamp : Z
}.

Definition sendMessage (deviceId : Z) (to text : string) (options : SendOptions)
  : M SendResult :=
  client <- gets (fun w => clients_get (clients w) deviceId) ;;
  match client with
  | None => throw (Error "Device not connected")
  | Some _ =>
      userId <- pool_query (select_device_user deviceId) ;;
      match truthy_id userId, skipRateLimit options with
      | Some u, false =>
          usageCheck <- checkAndUpdateUsage u deviceId
                          (match messageType options with
                           | Some t => if JsString.truthy t then t else "message"
                           | None => "message"
                           end) ;;
          if allowed usageCheck then ret tt
          else throw (Error "Rate limit exceeded")
      | _, _ => ret tt
      end ;;
      let chatId := format_number to in
      try (processed <- gets (fun w => render (env w) chatId text) ;;
           m <- client_sendMessage deviceId chatId processed ;;
           ret (mkSendResult (fst m) (snd m)))
      catch error => (console_error "Error sending message:" ;; throw error)
  end.

(** ** BroadcastRunner: [sendBroadcast] *)

Record BroadcastResult : Type := mkBroadcastResult {
  recipient : string;
  success : bool;
  messageId : option string;
  error : option string
}.

(** [SELECT COALESCE(SUM(messages_sent), 0) + COALESCE(SUM(broadcasts_sent), 0)
    FROM daily_usage WHERE user_id = $1 AND date = $2] *)
Definition select_total (userId date : Z) (_ : Z) (d : Db) : Z * Db :=
  let rows := rows_of_day userId date (daily_usage d) in
  (sum_of messages_sent rows + sum_of broadcasts_sent rows, d).

(** [INSERT INTO daily_usage (user_id, device_id, date, broadcasts_sent)
    VALUES ($1, $2, $3, 1) ON CONFLICT (user_id, device_id, date)
    DO UPDATE SET broadcasts_sent = daily_usage.broadcasts_sent + 1] *)
Definition upsert_broadcast (userId deviceId date : Z) (_ : Z) (d : Db)
  : unit * Db :=
  if existsb (usage_key userId deviceId date) (daily_usage d)
  then update_usage f_broadcasts_sent userId deviceId date 0 d
  else (tt, with_daily_usage
              (fun l => l ++ [mkUsage userId deviceId date 0 1 0]) d).

(** [(settings.broadcast_delay_seconds || 5) * 1000] *)
Definition delayMs (s : Settings) : Z :=
  (if broadcast_delay_seconds s =? 0 then 5 else broadcast_delay_seconds s) * 1000.

(** The body of the [for] loop of [sendBroadcast] at index [i], for the
    recipient [r]; [n] is [recipients.length].  [results.push] runs before
    the statements of the [try] block that may still throw, so the handler
    appends to what the block has pushed. *)
Definition broadcast_turn (deviceId userId date : Z) (text : string)
  (options : SendOptions) (s : Settings) (n : Z) (i : Z) (r : string)
  (results : list BroadcastResult) : M (list BroadcastResult) :=
  try (result <- sendMessage deviceId r text
                   (mkSendOptions true (Some "broadcast")) ;;
       let pushed :=
         results ++ [mkBroadcastResult r true (Some (sr_messageId result)) None] in
       try (pool_query (upsert_broadcast userId deviceId date) ;;
            (if i <? n - 1 then sleep (delayMs s) else ret tt) ;;
            ret pushed)
       catch error =>
         ret (pushed ++ [mkBroadcastResult r false None (Some (message error))]))
  catch error =>
    ret (results ++ [mkBroadcastResult r false None (Some (message error))]).

(** The [for] loop of [sendBroadcast], from index [i] on; [rest] are the
    recipients from [i]. *)
Fixpoint broadcast_loop (deviceId userId date : Z) (text : string)
  (options : SendOptions) (s : Settings) (n : Z) (i : Z) (rest : list string)
  (results : list BroadcastResult) : M (list BroadcastResult) :=
  match rest with
  | [] => ret results
  | r :: rest' =>
      results' <- broadcast_turn deviceId userId date text options s n i r results ;;
      broadcast_loop deviceId userId date text options s n (i + 1) rest' results'
  end.

Definition too_many_message (s : Settings) : string :=
  ("Too many recipients. Maximum allowed: " ++
   JsString.of_Z (max_broadcast_recipients s))%string.

Definition not_enough_message (remaining required : Z) : string :=
  ("Not enough daily quota. Remaining: " ++ JsString.of_Z remaining ++
   ", Required: " ++ JsString.of_Z required)%string.

Definition sendBroadcast (deviceId : Z) (recipients : list string) (text : string)
  (options : SendOptions) : M (list BroadcastResult) :=
  userId <- pool_query (select_device_user deviceId) ;;
  match truthy_id userId with
  | None => throw (Error "Device not found")
  | Some u =>
      s <- getUserSettings u ;;
      let n := Z.of_nat (List.length recipients) in
      if enable_rate_limiting s && (n >? max_broadcast_recipients s)
      then throw (Error (too_many_message s))
      else
        date <- gets today ;;
        currentUsage <- pool_query (select_total u date) ;;
        let remaining := daily_message_limit s - currentUsage in
        if enable_rate_limiting s && (n >? remaining)
        then throw (Error (not_enough_message remaining n))
        else broadcast_loop deviceId u date text options s n 0 recipients []
  end.

(** ** AutoReplyCascade: [handleIncomingMessage] and what it calls *)

(** An inbound message as the transport delivers it. *)
Record Msg : Type := mkMsg {
  msg_id : string;
  from : string;
  msg_body : string;
  fromMe : bool;
  hasMedia : bool;
  downloadMedia : option string       (* the message [downloadMedia()] rejects with, if it does *)
}.

(** [INSERT INTO messages (...) VALUES (...)
    ON CONFLICT (device_id, message_id) DO NOTHING] *)
Definition insert_message (deviceId : Z) (mid : string) (_ : Z) (d : Db)
  : unit * Db :=
  if existsb (fun p => (fst p =? deviceId) && String.eqb (snd p) mid) (messages d)
  then (tt, d)
  else (tt, with_messages (fun l => l ++ [(deviceId, mid)]) d).

Definition saveMessage (msg : Msg) (deviceId : Z) (isFromMe : bool) : M unit :=
  try ((if hasMedia msg then
          match downloadMedia msg with
          | Some m => throw (Error m)
          | None => ret tt
          end
        else ret tt) ;;
       pool_query (insert_message deviceId (msg_id msg)))
  catch _ => console_error "Error saving message:".

(** [SELECT * FROM auto_replies WHERE device_id = $1 AND is_active = true];
    the statement has no ORDER BY, the rows come in the order the table
    holds them, which is the order of creation. *)
Definition select_active_rules (deviceId : Z) (_ : Z) (d : Db)
  : list AutoReply * Db :=
  (filter (fun r => (ar_device r =? deviceId) && is_active r) (auto_replies d), d).

(** The [switch (rule.match_type)] of [checkAutoReply]. *)
Definition shouldReply (rule : AutoReply) (text : string) : bool :=
  let b := JsString.toLowerCase text in
  let k := JsString.toLowerCase (trigger_keyword rule) in
  match match_type rule with
  | Some exact => String.eqb b k
  | Some contains => JsString.includes b k
  | Some starts_with => JsString.startsWith b k
  | Some ends_with => JsString.endsWith b k
  | None => false
  end.

(** The [for (const rule of result.rows)] loop of [checkAutoReply]. *)
Fixpoint rules_loop (msg : Msg) (deviceId : Z) (rules : list AutoReply) : M bool :=
  match rules with
  | [] => ret false
  | rule :: rules' =>
      if shouldReply rule (msg_body msg) then
        client <- gets (fun w => clients_get (clients w) deviceId) ;;
        match client with
        | Some _ => client_sendMessage deviceId (from msg) (reply_message rule) ;; ret tt
        | None => ret tt
        end ;;
        ret true
      else rules_loop msg deviceId rules'
  end.

Definition checkAutoReply (msg : Msg) (deviceId : Z) : M bool :=
  entered "checkAutoReply" ;;
  if fromMe msg then ret false
  else
    try (rules <- pool_query (select_active_rules deviceId) ;;
         rules_loop msg deviceId rules)
    catch _ => (console_error "Error checking auto reply:" ;; ret false).

(** A nullable text column is truthy when it is set and not empty. *)
Definition truthy_text (o : option string) : option string :=
  match o with
  | Some s => if JsString.truthy s then Some s else None
  | None => None
  end.

(** [SELECT * FROM ai_settings WHERE device_id = $1] *)
Definition select_ai_settings (deviceId : Z) (_ : Z) (d : Db)
  : list AiSettings * Db :=
  (filter (fun r => ai_device r =? deviceId) (ai_settings d), d).

(** Stable insertion sort, for the ORDER BY clauses. *)
Fixpoint insert_by {A} (le : A -> A -> bool) (x : A) (l : list A) : list A :=
  match l with
  | [] => [x]
  | y :: l' => if le x y then x :: l else y :: insert_by le x l'
  end.

Definition sort_by {A} (le : A -> A -> bool) (l : list A) : list A :=
  fold_right (insert_by le) [] l.

Definition same_chat (deviceId : Z) (chat : string) (t : Turn) : bool :=
  (t_device t =? deviceId) && String.eqb (chat_id t) chat.

(** [... WHERE device_id = $1 AND chat_id = $2 ORDER BY created_at DESC] *)
Definition chat_newest_first (deviceId : Z) (chat : string) (l : list Turn)
  : list Turn :=
  sort_by (fun a b => t_created_at b <=? t_created_at a)
          (filter (same_chat deviceId chat) l).

(** [SELECT role, content FROM ai_conversations WHERE device_id = $1 AND
    chat_id = $2 ORDER BY created_at DESC LIMIT 10] *)
Definition select_history (deviceId : Z) (chat : string) (_ : Z) (d : Db)
  : list (Role * string) * Db :=
  (map (fun t => (role t, content t))
       (firstn 10 (chat_newest_first deviceId chat (ai_conversations d))), d).

(** [INSERT INTO ai_conversations (device_id, chat_id, role, content)
    VALUES ($1, $2, role, $3)]; [created_at] defaults to the time of the
    statement. *)
Definition insert_turn (deviceId : Z) (chat : string) (r : Role) (text : string)
  (at_time : Z) (d : Db) : unit * Db :=
  (tt, with_conv_seq (Z.add 1)
         (with_ai_conversations
            (fun l => l ++ [mkTurn (conv_seq d) deviceId chat r text at_time]) d)).

(** [DELETE FROM ai_conversations WHERE id IN (SELECT id FROM ai_conversations
    WHERE device_id = $1 AND chat_id = $2 ORDER BY created_at DESC OFFSET 50)] *)
Definition trim_conversation (deviceId : Z) (chat : string) (_ : Z) (d : Db)
  : unit * Db :=
  let ids := map t_id (skipn 50 (chat_newest_first deviceId chat (ai_conversations d))) in
  (tt, with_ai_conversations
         (filter (fun t => negb (existsb (Z.eqb (t_id t)) ids))) d).

(** The three statements of [checkAIAutoReply] that record an exchange:
    the user turn, the assistant turn, then the clean-up. *)
Definition save_conversation (deviceId : Z) (chat userText aiResponse : string)
  : M unit :=
  pool_query (insert_turn deviceId chat user userText) ;;
  pool_query (insert_turn deviceId chat assistant aiResponse) ;;
  pool_query (trim_conversation deviceId chat).

(** [callOpenAIAPI] / [callGeminiAPI]: the provider answers or the call
    throws. *)
Definition call_provider (p : Provider) (history : list (Role * string))
  (userMessage : string) : M string :=
  fun w =>
    let w1 := with_trace (fun t => t ++ [EvComplete p history userMessage])
                (with_completions S w) in
    match ai_outcome (env w) (completions w) with
    | AiText text => (Ok text, w1)
    | AiFailed m => (Throw (Error m), w1)
    end.

(** [excluded.some(e => senderNumber.includes(e))] *)
Definition is_excluded (excluded_contacts from : string) : bool :=
  let excluded := map JsString.trim (JsString.split "," excluded_contacts) in
  let senderNumber := hd EmptyString (JsString.split "@" from) in
  existsb (fun e => JsString.includes senderNumber e) excluded.

(** [keywords.some(k => messageBody.includes(k))] *)
Definition has_keyword (only_when_contains text : string) : bool :=
  let keywords :=
    map (fun k => JsString.toLowerCase (JsString.trim k))
        (JsString.split "," only_when_contains) in
  existsb (fun k => JsString.includes (JsString.toLowerCase text) k) keywords.

(** The gates of [checkAIAutoReply] between the settings row and the
    history query; [true] when the message goes on to the provider. *)
Definition ai_gates (st : AiSettings) (msg : Msg) : bool :=
  if negb (is_enabled st) || negb (match truthy_text (api_key st) with
                                   | Some _ => true | None => false end)
  then false
  else if JsString.includes (from msg) "@g.us" && ignore_groups st then false
  else if match truthy_text (excluded_contacts st) with
          | Some ex => is_excluded ex (from msg)
          | None => false
          end
  then false
  else match truthy_text (only_when_contains st) with
       | Some kw => has_keyword kw (msg_body msg)
       | None => true
       end.

(** [SELECT fallback_message FROM ai_settings WHERE device_id = $1], then
    [rows[0]?.fallback_message] *)
Definition select_fallback (deviceId : Z) (_ : Z) (d : Db)
  : option string * Db :=
  (match filter (fun r => ai_device r =? deviceId) (ai_settings d) with
   | st :: _ => fallback_message st
   | [] => None
   end, d).

(** The body of the [if (aiResponse)] of [checkAIAutoReply]. *)
Definition reply_with (msg : Msg) (deviceId userId : Z) (st : AiSettings)
  (aiResponse : string) : M unit :=
  save_conversation deviceId (from msg) (msg_body msg) aiResponse ;;
  (if reply_delay_seconds st >? 0 then sleep (reply_delay_seconds st * 1000)
   else ret tt) ;;
  client <- gets (fun w => clients_get (clients w) deviceId) ;;
  match client with
  | Some _ =>
      client_sendMessage deviceId (from msg) aiResponse ;;
      try (checkAndUpdateUsage userId deviceId "auto_reply" ;; ret tt)
      catch _ => console_error "Usage update error:"
  | None => ret tt
  end.

(** The [catch] block of [checkAIAutoReply]. *)
Definition send_fallback (msg : Msg) (deviceId : Z) : M unit :=
  console_error "Error in AI auto-reply:" ;;
  try (fb <- pool_query (select_fallback deviceId) ;;
       match truthy_text fb with
       | Some text =>
           client <- gets (fun w => clients_get (clients w) deviceId) ;;
           match client with
           | Some _ => client_sendMessage deviceId (from msg) text ;; ret tt
           | None => ret tt
           end
       | None => ret tt
       end)
  catch _ => console_error "Error sending fallback:".

Definition checkAIAutoReply (msg : Msg) (deviceId userId : Z) : M unit :=
  entered "checkAIAutoReply" ;;
  if fromMe msg then ret tt
  else if negb (JsString.truthy (msg_body msg)) ||
          String.eqb (JsString.trim (msg_body msg)) ""
  then ret tt
  else
    try (rows <- pool_query (select_ai_settings deviceId) ;;
         match rows with
         | [] => ret tt
         | st :: _ =>
             if ai_gates st msg then
               history <- pool_query (select_history deviceId (from msg)) ;;
               aiResponse <- call_provider (ai_provider st) (rev history) (msg_body msg) ;;
               if JsString.truthy aiResponse
               then reply_with msg deviceId userId st aiResponse
               else ret tt
             else ret tt
         end)
    catch _ => send_fallback msg deviceId.

Definition handleIncomingMessage (msg : Msg) (deviceId userId : Z) : M unit :=
  saveMessage msg deviceId false ;;
  autoReplied <- checkAutoReply msg deviceId ;;
  (if negb autoReplied then checkAIAutoReply msg deviceId userId else ret tt) ;;
  io_emit userId "message".

(** ** ScheduledMessageRunner: [SchedulerService] *)

Definition is_pending (st : Status) : bool :=
  match st with pending => true | _ => false end.

(** [SELECT sm.*, d.user_id FROM scheduled_messages sm
    JOIN devices d ON sm.device_id = d.id
    WHERE sm.status = 'pending' AND sm.scheduled_at <= NOW()
    ORDER BY sm.scheduled_at ASC LIMIT 10]; [devices.id] is the primary key,
    so the join keeps the rows whose device exists. *)
Definition select_due (at_time : Z) (d : Db) : list Scheduled * Db :=
  (firstn 10
     (sort_by (fun a b => scheduled_at a <=? scheduled_at b)
        (filter (fun m => is_pending (status m) && (scheduled_at m <=? at_time)
                          && existsb (fun p => fst p =? s_device m) (devices d))
                (scheduled_messages d))), d).

(** [UPDATE scheduled_messages SET status = 'failed', error_message = $2
    WHERE id = $3] *)
Definition mark_failed (id : Z) (reason : string) (_ : Z) (d : Db) : unit * Db :=
  (tt, with_scheduled_messages
         (map (fun m => if s_id m =? id
                        then mkScheduled (s_id m) (s_device m) (to_number m) (body m)
                               (scheduled_at m) failed (sent_at m) (Some reason)
                        else m)) d).

(** [UPDATE scheduled_messages SET status = 'sent', sent_at = NOW()
    WHERE id = $2] *)
Definition mark_sent (id : Z) (at_time : Z) (d : Db) : unit * Db :=
  (tt, with_scheduled_messages
         (map (fun m => if s_id m =? id
                        then mkScheduled (s_id m) (s_device m) (to_number m) (body m)
                               (scheduled_at m) sent (Some at_time) (error_message m)
                        else m)) d).

(** [this.whatsappManager.isConnected(deviceId)]: [client && client.info] *)
Definition isConnected (deviceId : Z) (w : World) : bool :=
  match clients_get (clients w) deviceId with
  | Some info => info
  | None => false
  end.

(** One iteration of the [for (const message of result.rows)] loop of
    [processScheduledMessages], on a row as the SELECT returned it. *)
Definition process_row (m : Scheduled) : M unit :=
  try (connected <- gets (isConnected (s_device m)) ;;
       if negb connected
       then pool_query (mark_failed (s_id m) "Device not connected")
       else (sendMessage (s_device m) (to_number m) (body m) no_options ;;
             pool_query (mark_sent (s_id m))))
  catch error =>
    (pool_query (mark_failed (s_id m) (message error)) ;;
     console_error "Failed to send scheduled message").

Fixpoint process_rows (rows : list Scheduled) : M unit :=
  match rows with
  | [] => ret tt
  | m :: rows' => process_row m ;; process_rows rows'
  end.

Definition processScheduledMessages : M unit :=
  try (rows <- pool_query select_due ;; process_rows rows)
  catch _ => console_error "Error processing scheduled messages:".

(** [INSERT INTO scheduled_messages (device_id, to_number, body, media_url,
    media_type, scheduled_at) VALUES (...) RETURNING *]; [status] defaults
    to ['pending']. *)
Definition insert_scheduled (deviceId : Z) (toNumber text : string)
  (scheduledAt : Z) (_ : Z) (d : Db) : Scheduled * Db :=
  let m := mkScheduled (sched_seq d) deviceId toNumber text scheduledAt
             pending None None in
  (m, with_sched_seq (Z.add 1) (with_scheduled_messages (fun l => l ++ [m]) d)).

Definition scheduleMessage (deviceId : Z) (toNumber text : string)
  (scheduledAt : Z) : M Scheduled :=
  pool_query (insert_scheduled deviceId toNumber text scheduledAt).

(** [UPDATE scheduled_messages SET status = 'cancelled'
    WHERE id = $1 AND device_id = $2 AND status = 'pending' RETURNING *],
    then [rows[0]] *)
Definition cancel_pending (messageId deviceId : Z) (_ : Z) (d : Db)
  : option Scheduled * Db :=
  let hit m := (s_id m =? messageId) && (s_device m =? deviceId)
               && is_pending (status m) in
  let cancel m := mkScheduled (s_id m) (s_device m) (to_number m) (body m)
                    (scheduled_at m) cancelled (sent_at m) (error_message m) in
  (hd_error (map cancel (filter hit (scheduled_messages d))),
   with_scheduled_messages (map (fun m => if hit m then cancel m else m)) d).

Definition cancelScheduledMessage (messageId deviceId : Z) : M (option Scheduled) :=
  pool_query (cancel_pending messageId deviceId).

(** ** Concurrent callers of the ledger

    A call of [checkAndUpdateUsage] gives the event loop back at each
    [await]; between two of them it runs alone.  [Pc] says at which [await]
    of the [try] block a call stands, with the locals it has bound. *)

Inductive Pc : Type :=
| AtEnsure
| AtSelect
| AtSettings (usage : Z * Z * Z)
| AtUpdate (usage : Z * Z * Z) (s : Settings)
| Finished (r : Outcome UsageCheck).

Record Call : Type := mkCall {
  c_user : Z;
  c_device : Z;
  c_type : string;
  c_date : Z;
  pc : Pc
}.

(** Entering [checkAndUpdateUsage]: [today] is read once. *)
Definition start_call (userId deviceId : Z) (type : string) (w : World) : Call :=
  mkCall userId deviceId type (today w) AtEnsure.

(** The statements of [reserve] from one [await] to the next. *)
Definition advance (c : Call) : M Pc :=
  match pc c with
  | AtEnsure =>
      pool_query (ensure_usage_row (c_user c) (c_device c) (c_date c)) ;;
      ret AtSelect
  | AtSelect =>
      usage <- pool_query (select_usage (c_user c) (c_date c)) ;;
      ret (AtSettings usage)
  | AtSettings usage =>
      let '(total_messages, total_broadcasts, _) := usage in
      let scope := [("total_messages", total_messages);
                    ("total_broadcasts", total_broadcasts)] in
      s <- getUserSettings (c_user c) ;;
      (if enable_rate_limiting s then
         let block := ("totalSent", total_messages + total_broadcasts) :: scope in
         totalSent <- read_const block "totalSent" ;;
         if totalSent >=? daily_message_limit s
         then throw (Error (quota_message (daily_message_limit s)))
         else ret tt
       else ret tt) ;;
      ret (AtUpdate usage s)
  | AtUpdate usage s =>
      let '(total_messages, total_broadcasts, _) := usage in
      let scope := [("total_messages", total_messages);
                    ("total_broadcasts", total_broadcasts)] in
      pool_query (update_usage (updateField (c_type c))
                    (c_user c) (c_device c) (c_date c)) ;;
      totalSent <- read_const scope "totalSent" ;;
      ret (Finished (Ok (mkUsageCheck true (daily_message_limit s - totalSent - 1) s)))
  | Finished r => ret (Finished r)
  end.

Definition set_pc (c : Call) (p : Pc) : Call :=
  mkCall (c_user c) (c_device c) (c_type c) (c_date c) p.

(** One turn of a call: it runs to its next [await]; an error inside the
    [try] block runs the [catch] block. *)
Definition step (c : Call) (w : World) : Call * World :=
  match pc c with
  | Finished _ => (c, w)
  | _ =>
      match advance c w with
      | (Ok p, w') => (set_pc c p, w')
      | (Throw e, w') =>
          let (r, w'') := on_error (c_user c) e w' in
          (set_pc c (Finished r), w'')
      end
  end.

(** A call that runs alone: four turns end it. *)
Definition run_alone (c : Call) (w : World) : Call * World :=
  let (c1, w1) := step c w in
  let (c2, w2) := step c1 w1 in
  let (c3, w3) := step c2 w2 in
  step c3 w3.

(** Several calls in flight; a schedule names the call that takes each
    turn. *)
Fixpoint step_nth (i : nat) (cs : list Call) (w : World) : list Call * World :=
  match cs, i with
  | [], _ => ([], w)
  | c :: cs', O => let (c', w') := step c w in (c' :: cs', w')
  | c :: cs', S i' => let (cs'', w') := step_nth i' cs' w in (c :: cs'', w')
  end.

Fixpoint run_schedule (sched : list nat) (cs : list Call) (w : World)
  : list Call * World :=
  match sched with
  | [] => (cs, w)
  | i :: sched' => let (cs', w') := step_nth i cs w in run_schedule sched' cs' w'
  end.

Definition succeeded (c : Call) : bool :=
  match pc c with
  | Finished (Ok r) => allowed r
  | _ => false
  end.

(** ** The poll loop with other handlers in between

    While the loop of [processScheduledMessages] awaits, other request
    handlers run; [other k] is what they do to the world before the loop
    takes up its [k]-th row. *)

Fixpoint process_rows_with (other : nat -> World -> World) (k : nat)
  (rows : list Scheduled) : M unit :=
  match rows with
  | [] => ret tt
  | m :: rows' =>
      modify (other k) ;; process_row m ;; process_rows_with other (S k) rows'
  end.

Definition processScheduledMessages_with (other : nat -> World -> World) : M unit :=
  try (rows <- pool_query select_due ;; process_rows_with other 0 rows)
  catch _ => console_error "Error processing scheduled messages:".

Definition find_scheduled (id : Z) (w : World) : option Scheduled :=
  find (fun m => s_id m =? id) (scheduled_messages (db w)).

Definition status_of (id : Z) (w : World) : option Status :=
  option_map status (find_scheduled id w).

(** ** Notions the statements use *)

(** A relation between the world before and the world after that a
    computation establishes from every world. *)
Definition preserves (R : World -> World -> Prop) {A} (m : M A) : Prop :=
  forall w, R w (snd (m w)).

(** A projection of the world that a computation leaves as it was. *)
Definition keeps {X A} (f : World -> X) (m : M A) : Prop :=
  preserves (fun w w' => f w' = f w) m.

(** No statement fails. *)
Definition reliable (w : World) : Prop := forall n, fault_at (env w) n = None.

(** The settings a caller gets from the cache in a given world. *)
Definition settings_in_effect (userId : Z) (w : World) : Settings :=
  match fst (getUserSettings userId w) with
  | Ok s => s
  | Throw _ => default_settings
  end.

(** [n] reservations in a row, with what each returned. *)
Fixpoint reservations (n : nat) (userId deviceId : Z) (type : string) (w : World)
  : list (Outcome UsageCheck) * World :=
  match n with
  | O => ([], w)
  | S n' =>
      let (r, w1) := checkAndUpdateUsage userId deviceId type w in
      let (rs, w2) := reservations n' userId deviceId type w1 in
      (r :: rs, w2)
  end.

Definition remaining_of (r : Outcome UsageCheck) : Outcome Z :=
  match r with
  | Ok c => Ok (remaining c)
  | Throw e => Throw e
  end.

(** The usage table once the row of a key is there, and once the counter
    [f] of that key is incremented. *)
Definition ensured (userId deviceId date : Z) (l : list UsageRow) : list UsageRow :=
  if existsb (usage_key userId deviceId date) l then l
  else l ++ [mkUsage userId deviceId date 0 0 0].

Definition bumped (f : UsageField) (userId deviceId date : Z) (l : list UsageRow)
  : list UsageRow :=
  map (fun r => if usage_key userId deviceId date r then bump f r else r) l.

Definition field_of (f : UsageField) (r : UsageRow) : Z :=
  match f with
  | f_messages_sent => messages_sent r
  | f_broadcasts_sent => broadcasts_sent r
  | f_auto_replies_sent => auto_replies_sent r
  end.

(** The counter [f] of one (user, device, date). *)
Definition counter (f : UsageField) (userId deviceId date : Z) (w : World) : Z :=
  sum_of (field_of f) (filter (usage_key userId deviceId date) (daily_usage (db w))).

(** The table holds at most one row for the key, as its unique constraint
    demands. *)
Definition one_row (userId deviceId date : Z) (w : World) : Prop :=
  (List.length (filter (usage_key userId deviceId date) (daily_usage (db w))) <= 1)%nat.

(** The world a reservation is in when it has created its row and read the
    totals. *)
Definition after_read (userId deviceId date : Z) (w : World) : World :=
  snd ((pool_query (ensure_usage_row userId deviceId date) ;;
        pool_query (select_usage userId date)) w).

(** What one turn of the broadcast loop leaves in the trace and in the
    results when the store works and the device has a client, by what the
    transport answers; [last] says that the recipient is the last one. *)
Definition attempt_events (deviceId : Z) (e : Env) (text : string) (delay : Z)
  (last : bool) (r : string) (o : SendOutcome) : list Event :=
  let chatId := format_number r in
  match o with
  | SendOk _ _ =>
      EvSent deviceId chatId (render e chatId text)
      :: (if last then [] else [EvSleep delay])
  | SendRejected _ => [EvSendFailed deviceId chatId (render e chatId text)]
  end.

Definition attempt_result (r : string) (o : SendOutcome) : BroadcastResult :=
  match o with
  | SendOk mid _ => mkBroadcastResult r true (Some mid) None
  | SendRejected m => mkBroadcastResult r false None (Some m)
  end.

Definition is_nil {A} (l : list A) : bool :=
  match l with [] => true | _ => false end.

(** The recipients in order, the [k]-th send of the transport being the
    one of the first of them. *)
Fixpoint expected_events (deviceId : Z) (e : Env) (text : string) (delay : Z)
  (k : nat) (rest : list string) : list Event :=
  match rest with
  | [] => []
  | r :: rest' =>
      attempt_events deviceId e text delay (is_nil rest') r (send_outcome e k)
      ++ expected_events deviceId e text delay (S k) rest'
  end.

Fixpoint expected_results (e : Env) (k : nat) (rest : list string)
  : list BroadcastResult :=
  match rest with
  | [] => []
  | r :: rest' => attempt_result r (send_outcome e k) :: expected_results e (S k) rest'
  end.

Definition is_sleep (ev : Event) : bool :=
  match ev with EvSleep _ => true | _ => false end.

Definition is_sent (ev : Event) : bool :=
  match ev with EvSent _ _ _ => true | _ => false end.

Definition accepted (o : SendOutcome) : bool :=
  match o with SendOk _ _ => true | SendRejected _ => false end.

(** The owner [sendBroadcast] and [sendMessage] find for a device. *)
Definition device_user (deviceId : Z) (w : World) : option Z :=
  truthy_id (fst (select_device_user deviceId 0 (db w))).

(** The world [sendBroadcast] is in when it has looked the device up. *)
Definition after_lookup (deviceId : Z) (w : World) : World :=
  snd (pool_query (select_device_user deviceId) w).

(** What a reservation may do to the usage table: nothing, create the row
    of its key, or create it and increment the counter of its kind. *)
Definition usage_shape (f : UsageField) (userId deviceId date : Z)
  (l l' : list UsageRow) : Prop :=
  l' = l \/ l' = ensured userId deviceId date l
  \/ l' = bumped f userId deviceId date (ensured userId deviceId date l).

(** The unique constraint of [daily_usage]. *)
Definition usage_unique (w : World) : Prop :=
  forall u d date, one_row u d date w.

(** The messages that went out. *)
Definition sent_count (w : World) : nat :=
  List.length (filter is_sent (trace w)).

(** A bound [R0] on how far a projection [f] of the world moves along a
    computation. *)
Definition within {X A} (f : World -> X) (R0 : X -> X -> Prop) (m : M A) : Prop :=
  forall w, R0 (f w) (f (snd (m w))).

(** A computation that sends at most one message when it returns, and
    none when it throws. *)
Definition one_shot {A} (m : M A) : Prop :=
  forall w,
    match m w with
    | (Ok _, w') => (sent_count w' <= sent_count w + 1)%nat
    | (Throw _, w') => sent_count w' = sent_count w
    end.

Definition never_throws {A} (m : M A) : Prop :=
  forall w, exists a, fst (m w) = Ok a.

Definition at_most_one_more (c c' : nat) : Prop := (c' <= c + 1)%nat.

Definition at_most_two_more (c c' : Z) : Prop := c <= c' <= c + 2.

Definition reserved_once (userId deviceId : Z) (l l' : list UsageRow) : Prop :=
  exists date, usage_shape f_auto_replies_sent userId deviceId date l l'.

(** The stored turns of one (device, chat), in the order of the table. *)
Definition chat_turns (deviceId : Z) (chat : string) (w : World) : list Turn :=
  filter (same_chat deviceId chat) (ai_conversations (db w)).

(** The last [n] elements of a list. *)
Definition lastn {A} (n : nat) (l : list A) : list A :=
  skipn (List.length l - n) l.

Definition older (a b : Turn) : Prop := t_created_at a < t_created_at b.

(** The conversation table as the engine keeps it: rows in the order of
    their creation, all of them created before now, with distinct ids below
    the next id. *)
Definition conv_wf (w : World) : Prop :=
  StronglySorted older (ai_conversations (db w))
  /\ Forall (fun t => t_created_at t < now w) (ai_conversations (db w))
  /\ NoDup (map t_id (ai_conversations (db w)))
  /\ Forall (fun t => t_id t < conv_seq (db w)) (ai_conversations (db w)).

(** [n] exchanges with one chat, one after the other; the [k]-th records
    the question "q k" and the answer "a k". *)
Fixpoint exchanges (n : nat) (k : Z) (deviceId : Z) (chat : string) (w : World)
  : World :=
  match n with
  | O => w
  | S n' =>
      exchanges n' (k + 1) deviceId chat
        (snd (save_conversation deviceId chat
                ("q " ++ JsString.of_Z k)%string ("a " ++ JsString.of_Z k)%string w))
  end.

(** A table from which the first [k] rows that satisfy [p] are gone. *)
Fixpoint drop_first (p : Turn -> bool) (k : nat) (l : list Turn) : list Turn :=
  match l with
  | [] => []
  | x :: l' =>
      if p x then
        match k with
        | O => x :: l'
        | S k' => drop_first p k' l'
        end
      else x :: drop_first p k l'
  end.

(** The operations on scheduled messages, run one after the other. *)
Inductive Op : Type :=
| OpSchedule (deviceId : Z) (toNumber text : string) (scheduledAt : Z)
| OpCancel (messageId deviceId : Z)
| OpPoll.

Definition run_op (o : Op) (w : World) : World :=
  match o with
  | OpSchedule deviceId toNumber text scheduledAt =>
      snd (scheduleMessage deviceId toNumber text scheduledAt w)
  | OpCancel messageId deviceId => snd (cancelScheduledMessage messageId deviceId w)
  | OpPoll => snd (processScheduledMessages w)
  end.

(** [scheduled_messages.id] is the primary key. *)
Definition scheduled_wf (w : World) : Prop :=
  NoDup (map s_id (scheduled_messages (db w))).

(** While the poll loop is about to take up its second row, the user
    cancels message 2 of device 10. *)
Definition cancel_2_before_second_row (k : nat) (w : World) : World :=
  if Nat.eqb k 1 then snd (cancelScheduledMessage 2 10 w) else w.

Definition no_interference (_ : nat) (w : World) : World := w.

(** A row of [scheduled_messages] that is in the table afterwards if it
    was before. *)
Definition untouched (row : Scheduled) (w w' : World) : Prop :=
  In row (scheduled_messages (db w)) -> In row (scheduled_messages (db w')).

(** ** Worlds for the scenarios *)

(** A store that never fails, a transport that accepts every send, a
    provider that answers. *)
Definition calm : Env :=
  mkEnv (fun _ => None) (fun _ => SendOk "wamid" 0) (fun _ => AiText "Halo!")
        (fun _ text => text).

Definition settings_limit (limit : Z) : Settings :=
  mkSettings limit 3 2 2 100 true.

(** User 1 owns devices 10 and 11, device 10 is connected; nothing else is
    stored. *)
Definition base_db (s : Settings) : Db :=
  mkDb [] [(1, s)] [(10, Some 1); (11, Some 1)] [] [] [] 1 [] 1 [].

Definition base_world (e : Env) (d : Db) : World :=
  mkWorld e d 0 0 0 0 [] [(10, true)] [] [] [].

Definition with_usage_rows (rows : list UsageRow) (d : Db) : Db :=
  with_daily_usage (fun _ => rows) d.

(** Limit 5, nothing sent today. *)
Definition w_limit5 : World := base_world calm (base_db (settings_limit 5)).

(** Limit 5, four messages sent today: one left. *)
Definition w_boundary : World :=
  base_world calm
    (with_usage_rows [mkUsage 1 10 0 4 0 0] (base_db (settings_limit 5))).

(** Limit 1000 for the user, 300 sent today, and the statement that loads
    the settings (the third of a reservation) fails. *)
Definition settings_down : Env :=
  mkEnv (fun n => if Nat.eqb n 2 then Some "connection terminated" else None)
        (fun _ => SendOk "wamid" 0) (fun _ => AiText "Halo!") (fun _ text => text).

Definition w_settings_down : World :=
  base_world settings_down
    (with_usage_rows [mkUsage 1 10 0 300 0 0] (base_db (settings_limit 1000))).

(** The first statement of a reservation fails. *)
Definition store_down : Env :=
  mkEnv (fun n => if Nat.eqb n 0 then Some "connection terminated" else None)
        (fun _ => SendOk "wamid" 0) (fun _ => AiText "Halo!") (fun _ text => text).

Definition w_store_down : World :=
  base_world store_down (base_db (settings_limit 5)).

(** Rate limiting switched off, at most one recipient per broadcast. *)
Definition w_unlimited : World :=
  base_world calm (base_db (mkSettings 200 3 2 2 1 false)).

(** The transport rejects the first send and accepts the others. *)
Definition first_rejected : Env :=
  mkEnv (fun _ => None)
        (fun n => if Nat.eqb n 0 then SendRejected "invalid wid" else SendOk "wamid" 0)
        (fun _ => AiText "Halo!") (fun _ text => text).

Definition w_first_rejected : World :=
  base_world first_rejected (base_db (settings_limit 200)).

(** Limit 200, nothing sent, a store and a transport that work. *)
Definition w_calm : World := base_world calm (base_db (settings_limit 200)).

(** Two keyword rules of device 10, in the order they were created. *)
Definition rule_contains_hi : AutoReply :=
  mkAutoReply 1 10 "hi" (Some contains) "Hello! How can I help?" true.

Definition rule_exact_hi_there : AutoReply :=
  mkAutoReply 2 10 "hi there" (Some exact) "Hi there to you too" true.

Definition with_rules (rules : list AutoReply) (d : Db) : Db :=
  mkDb (daily_usage d) (user_settings d) (devices d) rules
       (ai_settings d) (ai_conversations d) (conv_seq d)
       (scheduled_messages d) (sched_seq d) (messages d).

Definition with_ai (rows : list AiSettings) (d : Db) : Db :=
  mkDb (daily_usage d) (user_settings d) (devices d) (auto_replies d)
       rows (ai_conversations d) (conv_seq d)
       (scheduled_messages d) (sched_seq d) (messages d).

(** The AI reply of device 10 is switched on, without delay. *)
Definition ai_on : AiSettings :=
  mkAiSettings 10 true gemini (Some "key") 0 true None None
               (Some "Maaf, coba lagi nanti.").

Definition inbound (text : string) : Msg :=
  mkMsg "3EB0" "6281@c.us" text false false None.

Definition w_rules : World :=
  base_world calm
    (with_ai [ai_on]
       (with_rules [rule_contains_hi; rule_exact_hi_there]
          (base_db (settings_limit 200)))).

(** The same, with a transport that rejects the first send. *)
Definition w_rules_rejected : World :=
  base_world first_rejected
    (with_ai [ai_on]
       (with_rules [rule_contains_hi; rule_exact_hi_there]
          (base_db (settings_limit 200)))).

(** The statement that loads the keyword rules (the second of the handler)
    fails. *)
Definition rules_down : Env :=
  mkEnv (fun n => if Nat.eqb n 1 then Some "connection terminated" else None)
        (fun _ => SendOk "wamid" 0) (fun _ => AiText "Halo!") (fun _ text => text).

Definition w_rules_down : World :=
  base_world rules_down
    (with_ai [ai_on]
       (with_rules [rule_contains_hi; rule_exact_hi_there]
          (base_db (settings_limit 200)))).

(** The AI reply is on, no keyword rule is stored, and the user has used
    the whole quota of the day (limit 5, 5 sent). *)
Definition w_exhausted : World :=
  base_world calm
    (with_ai [ai_on]
       (with_usage_rows [mkUsage 1 10 0 5 0 0] (base_db (settings_limit 5)))).

Definition with_scheduled (rows : list Scheduled) (d : Db) : Db :=
  with_sched_seq (fun _ => 1 + Z.of_nat (List.length rows))
    (with_scheduled_messages (fun _ => rows) d).

(** Two messages of device 10 are due and pending; a third one was sent
    earlier. *)
Definition due_1 : Scheduled := mkScheduled 1 10 "6281" "first" 100 pending None None.
Definition due_2 : Scheduled := mkScheduled 2 10 "6282" "second" 200 pending None None.
Definition done_3 : Scheduled :=
  mkScheduled 3 10 "6283" "third" 50 sent (Some 60) None.

Definition w_two_due : World :=
  mkWorld calm
    (with_scheduled [due_1; due_2; done_3] (base_db (settings_limit 200)))
    1000 0 0 0 [] [(10, true)] [] [] [].

(** Device 11 has a due message and no client. *)
Definition due_offline : Scheduled :=
  mkScheduled 1 11 "6281" "first" 100 pending None None.

Definition w_offline : World :=
  mkWorld calm
    (with_scheduled [due_offline] (base_db (settings_limit 200)))
    1000 0 0 0 [] [(10, true)] [] [] [].


(** ** The rest of the manager and of the scheduler *)

Definition with_clients (f : list (Z * bool) -> list (Z * bool)) (w : World) : World :=
  mkWorld (env w) (db w) (now w) (queries w) (sends w) (completions w)
          (userSettings w) (f (clients w)) (trace w) (console w) (calls w).

(** [clearSettingsCache(userId)]: [this.userSettings.delete(userId)] *)
Definition clearSettingsCache (userId : Z) : M unit :=
  modify (with_userSettings (filter (fun p => negb (fst p =? userId)))).

(** [this.clients.delete(deviceId)] *)
Definition clients_delete (deviceId : Z) (cs : list (Z * bool)) : list (Z * bool) :=
  filter (fun p => negb (fst p =? deviceId)) cs.

(** [UPDATE devices SET status = $1, updated_at = NOW() WHERE id = $2]: the
    columns it writes are not among those the engine reads. *)
Definition update_device_status (deviceId : Z) (status : string) (_ : Z) (d : Db)
  : unit * Db := (tt, d).

(** [disconnectDevice(deviceId)]; [destroy] is the message [client.destroy()]
    rejects with, if it does. *)
Definition disconnectDevice (destroy : option string) (deviceId : Z) : M unit :=
  client <- gets (fun w => clients_get (clients w) deviceId) ;;
  match client with
  | Some _ =>
      match destroy with
      | Some m => throw (Error m)
      | None => ret tt
      end ;;
      modify (with_clients (clients_delete deviceId)) ;;
      pool_query (update_device_status deviceId "disconnected")
  | None => ret tt
  end.

(** [getAckStatus(ack)]: [statuses[ack] || 'unknown'] *)
Definition getAckStatus (ack : Z) : string :=
  if ack =? -1 then "error"
  else if ack =? 0 then "pending"
  else if ack =? 1 then "sent"
  else if ack =? 2 then "delivered"
  else if ack =? 3 then "read"
  else if ack =? 4 then "played"
  else "unknown".

(** The text of the [status] column. *)
Definition status_name (st : Status) : string :=
  match st with
  | pending => "pending"
  | sent => "sent"
  | failed => "failed"
  | cancelled => "cancelled"
  end.

(** [SELECT * FROM scheduled_messages WHERE device_id = $1], with
    [AND status = $2] when [status] is truthy, then
    [ORDER BY scheduled_at ASC] *)
Definition select_scheduled (deviceId : Z) (st : option string) (_ : Z) (d : Db)
  : list Scheduled * Db :=
  (sort_by (fun a b => scheduled_at a <=? scheduled_at b)
     (filter (fun m => (s_device m =? deviceId) &&
                       match truthy_text st with
                       | Some name => String.eqb (status_name (status m)) name
                       | None => true
                       end)
             (scheduled_messages d)), d).

Definition getScheduledMessages (deviceId : Z) (st : option string)
  : M (list Scheduled) :=
  pool_query (select_scheduled deviceId st).


(** ** Notions and worlds for the further properties *)

(** The settings [getUserSettings] finds in the cache and still trusts: the
    entry of the user, if it is less than five minutes old. *)
Definition fresh_entry (userId : Z) (w : World) : option Settings :=
  match cache_get (userSettings w) userId with
  | Some c => if now w - timestamp c <? 300000 then Some (settings c) else None
  | None => None
  end.

(** The store holds limit 1000 for user 1; the cache holds limit 5, read
    one second ago. *)
Definition w_cached : World :=
  mkWorld calm (base_db (settings_limit 1000)) 1000 0 0 0
          [(1, mkCacheEntry (settings_limit 5) 0)] [(10, true)] [] [] [].

(** The same, with the entry five minutes old. *)
Definition w_expired : World :=
  mkWorld calm (base_db (settings_limit 1000)) 300000 0 0 0
          [(1, mkCacheEntry (settings_limit 5) 0)] [(10, true)] [] [] [].

(** User 1 has no settings row yet. *)
Definition w_no_settings : World :=
  mkWorld calm (mkDb [] [] [(10, Some 1)] [] [] [] 1 [] 1 []) 0 0 0 0
          [] [(10, true)] [] [] [].

(** No store error carries the text of the quota error. *)
Definition honest_faults (w : World) : Prop :=
  forall n m, fault_at (env w) n = Some m ->
              JsString.includes m "Daily message limit" = false.

(** The usage rows of every other (user, device, date). *)
Definition other_rows (userId deviceId date : Z) (l : list UsageRow) : list UsageRow :=
  filter (fun r => negb (usage_key userId deviceId date r)) l.

(** [options.messageType || 'message'] *)
Definition message_type (options : SendOptions) : string :=
  match messageType options with
  | Some t => if JsString.truthy t then t else "message"
  | None => "message"
  end.

(** Device 12 has a client and no row in [devices]. *)
Definition w_unowned : World :=
  mkWorld calm (base_db (settings_limit 200)) 0 0 0 0 [] [(12, true)] [] [] [].

(** What an attempt adds to the day's total. *)
Definition hit (o : SendOutcome) : Z := if accepted o then 1 else 0.

(** Whether [checkAIAutoReply] goes on to the provider: the message is not
    the device's own, its body is not blank, and the first settings row of
    the device passes the gates. *)
Definition ai_reply_due (msg : Msg) (deviceId : Z) (w : World) : bool :=
  negb (fromMe msg)
  && negb (negb (JsString.truthy (msg_body msg))
           || String.eqb (JsString.trim (msg_body msg)) "")
  && match fst (select_ai_settings deviceId 0 (db w)) with
     | st :: _ => ai_gates st msg
     | [] => false
     end.

(** The texts the gates of [checkAIAutoReply] trim and fold are ASCII text:
    the body of the message and the two comma-separated lists of the first
    settings row of the device. *)
Definition ascii_option (o : option string) : bool :=
  match o with
  | Some s => JsString.ascii_text s
  | None => true
  end.

Definition gates_ascii (msg : Msg) (deviceId : Z) (w : World) : bool :=
  JsString.ascii_text (msg_body msg)
  && match fst (select_ai_settings deviceId 0 (db w)) with
     | st :: _ =>
         ascii_option (excluded_contacts st) && ascii_option (only_when_contains st)
     | [] => true
     end.

(** The texts [checkAutoReply] folds are ASCII text: the body of the message
    and the triggers of the rules. *)
Definition rules_ascii (msg : Msg) (rules : list AutoReply) : bool :=
  JsString.ascii_text (msg_body msg)
  && forallb (fun r => JsString.ascii_text (trigger_keyword r)) rules.

(** The two turns of an exchange, with the ids and the times the store
    gives them. *)
Definition user_turn (msg : Msg) (deviceId id at_time : Z) : Turn :=
  mkTurn id deviceId (from msg) user (msg_body msg) at_time.

Definition assistant_turn (msg : Msg) (deviceId : Z) (aiResponse : string)
  (id at_time : Z) : Turn :=
  mkTurn id deviceId (from msg) assistant aiResponse at_time.

(** The conversation table in [w'] once an exchange has appended the turns
    [tu] and [ta] to a chat of [w] and pruned it: the chat holds the last 50
    of its turns, at most 50 of them, every turn that went is older than
    every turn that stayed, the other chats are as they were, and the table
    is still in the order of creation. *)
Definition exchange_recorded (deviceId : Z) (chat : string) (tu ta : Turn)
  (w w' : World) : Prop :=
  let all := chat_turns deviceId chat w ++ [tu; ta] in
  chat_turns deviceId chat w' = lastn 50 all
  /\ (List.length (chat_turns deviceId chat w') <= 50)%nat
  /\ (forall x y,
        In x (firstn (List.length all - 50) all) ->
        In y (chat_turns deviceId chat w') -> older x y)
  /\ (forall d' c', same_chat d' c' tu = false ->
                    chat_turns d' c' w' = chat_turns d' c' w)
  /\ conv_wf w'.

(** The AI reply of device 10 is on, nothing is stored for it yet. *)
Definition w_ai_on : World :=
  base_world calm (with_ai [ai_on] (base_db (settings_limit 200))).

(** [n] inbound messages of one chat, each handled by [checkAIAutoReply]
    before the next arrives; the [k]-th has the body "q k". *)
Fixpoint ai_exchanges (n : nat) (k : Z) (deviceId userId : Z) (w : World) : World :=
  match n with
  | O => w
  | S n' =>
      ai_exchanges n' (k + 1) deviceId userId
        (snd (checkAIAutoReply (inbound ("q " ++ JsString.of_Z k)%string)
                deviceId userId w))
  end.

(** A row as the poll leaves it after a dispatch that succeeded, and after
    one that failed. *)
Definition as_sent (at_time : Z) (m : Scheduled) : Scheduled :=
  mkScheduled (s_id m) (s_device m) (to_number m) (body m) (scheduled_at m)
              sent (Some at_time) (error_message m).

Definition as_failed (reason : string) (m : Scheduled) : Scheduled :=
  mkScheduled (s_id m) (s_device m) (to_number m) (body m) (scheduled_at m)
              failed (sent_at m) (Some reason).

(** The transport call a scheduled message leads to, accepted or
    rejected. *)
Definition sent_event (e : Env) (m : Scheduled) : Event :=
  EvSent (s_device m) (format_number (to_number m))
         (render e (format_number (to_number m)) (body m)).

Definition rejected_event (e : Env) (m : Scheduled) : Event :=
  EvSendFailed (s_device m) (format_number (to_number m))
               (render e (format_number (to_number m)) (body m)).

(** The events of the transport calls made for the rows of a batch: at most
    one call for each row, in the order of the batch. *)
Fixpoint batch_events (e : Env) (batch : list Scheduled) (l : list Event) : Prop :=
  match batch with
  | [] => l = []
  | m :: batch' =>
      batch_events e batch' l
      \/ exists l', (l = sent_event e m :: l' \/ l = rejected_event e m :: l')
                    /\ batch_events e batch' l'
  end.

(** The unique key of [messages]. *)
Definition message_key (deviceId : Z) (mid : string) (p : Z * string) : bool :=
  (fst p =? deviceId) && String.eqb (snd p) mid.

(** The ids of [scheduled_messages] come from a sequence: every stored id is
    below the next one. *)
Definition scheduled_fresh (w : World) : Prop :=
  Forall (fun m => s_id m < sched_seq (db w)) (scheduled_messages (db w)).

(** A row as [cancelScheduledMessage] leaves it. *)
Definition as_cancelled (m : Scheduled) : Scheduled :=
  mkScheduled (s_id m) (s_device m) (to_number m) (body m) (scheduled_at m)
              cancelled (sent_at m) (error_message m).

(** The status filter of [getScheduledMessages]. *)
Definition has_status (st : option string) (m : Scheduled) : Prop :=
  match truthy_text st with
  | Some name => status_name (status m) = name
  | None => True
  end.

(** Message 1 is due, message 2 is for later. *)
Definition later_2 : Scheduled :=
  mkScheduled 2 10 "6282" "later" 5000 pending None None.

Definition w_one_later : World :=
  mkWorld calm
    (with_scheduled [due_1; later_2] (base_db (settings_limit 200)))
    1000 0 0 0 [] [(10, true)] [] [] [].

(** Message 1 is due while its owner has used the whole quota of the day. *)
Definition w_due_exhausted : World :=
  mkWorld calm
    (with_scheduled [due_1]
       (with_usage_rows [mkUsage 1 10 0 5 0 0] (base_db (settings_limit 5))))
    1000 0 0 0 [] [(10, true)] [] [] [].

(** The provider fails every call. *)
Definition provider_down : Env :=
  mkEnv (fun _ => None) (fun _ => SendOk "wamid" 0)
        (fun _ => AiFailed "model overloaded") (fun _ text => text).

Definition w_provider_down : World :=
  base_world provider_down (with_ai [ai_on] (base_db (settings_limit 200))).

(** ** MessageLogger: [saveOutgoingMessage], [updateMessageStatus],
    [getAckStatusText]

    The module keeps the history of outgoing messages.  It is embedded over
    the two tables it touches, with the columns it reads and writes, and a
    store that can fail as the engine's can. *)

Module MessageLogger.

Fixpoint drop (n : nat) (s : string) : string :=
  match n, s with
  | O, _ => s
  | S n', String _ s' => drop n' s'
  | S _, EmptyString => EmptyString
  end.

(** [s.replace(pattern, replacement)] with a string pattern: the first
    occurrence is replaced. *)
Fixpoint replace (s pattern replacement : string) : string :=
  if prefix pattern s then (replacement ++ drop (String.length pattern) s)%string
  else match s with
       | EmptyString => EmptyString
       | String c s' => String c (replace s' pattern replacement)
       end.

(** [messages], unique on (device_id, message_id) *)
Record Row : Type := mkRow {
  device_id : Z;
  message_id : string;
  chat_id : string;
  from_number : string;
  to_number : string;
  body : string;
  type : string;
  is_from_me : bool;
  timestamp : Z;
  status : string;
  ack : Z
}.

Record Store : Type := mkStore {
  phone_numbers : list (Z * option string);  (* devices: id, phone_number *)
  messages : list Row;
  failing : nat -> option string;            (* the n-th statement fails with this message *)
  issued : nat;                              (* statements issued so far *)
  clock : Z;                                 (* Date.now(), milliseconds *)
  errors : list string                       (* console.error labels *)
}.

Definition L (A : Type) : Type := Store -> Outcome A * Store.

(** [await pool.query(...)] *)
Definition query {A} (q : Store -> A * list Row) : L A :=
  fun s =>
    match failing s (issued s) with
    | Some m =>
        (Throw (Error m),
         mkStore (phone_numbers s) (messages s) (failing s) (S (issued s))
                 (1 + clock s) (errors s))
    | None =>
        let (a, rows) := q s in
        (Ok a,
         mkStore (phone_numbers s) rows (failing s) (S (issued s))
                 (1 + clock s) (errors s))
    end.

Definition console_error (label : string) (s : Store) : Store :=
  mkStore (phone_numbers s) (messages s) (failing s) (issued s) (clock s)
          (errors s ++ [label]).

(** The argument of [saveOutgoingMessage], with its defaults filled in by
    [outgoing]. *)
Record Outgoing : Type := mkOutgoing {
  deviceId : Z;
  to : string;
  o_body : string;
  o_type : string;
  messageId : option string;
  o_status : string
}.

(** [{ deviceId, to, body }] with [type = 'chat'], [messageId = null],
    [status = 'sent'] *)
Definition outgoing (deviceId : Z) (to body : string) : Outgoing :=
  mkOutgoing deviceId to body "chat" None "sent".

(** [let chatId = to; if (!chatId.includes('@')) chatId = chatId + '@c.us'] *)
Definition chatId_of (to : string) : string :=
  if JsString.includes to "@" then to else (to ++ "@c.us")%string.

(** [messageId || `OUT_${uuidv4()}`]; [uuid] is what [uuidv4()] returns. *)
Definition msgId_of (uuid : string) (messageId : option string) : string :=
  match messageId with
  | Some i => if JsString.truthy i then i else ("OUT_" ++ uuid)%string
  | None => ("OUT_" ++ uuid)%string
  end.

(** [chatId.replace('@c.us', '').replace('@g.us', '')] *)
Definition toNumber_of (chatId : string) : string :=
  replace (replace chatId "@c.us" "") "@g.us" "".

(** [status === 'sent' ? 1 : 0] *)
Definition ack_of (status : string) : Z :=
  if String.eqb status "sent" then 1 else 0.

(** [SELECT phone_number FROM devices WHERE id = $1], then
    [rows[0]?.phone_number || ''] *)
Definition select_phone_number (deviceId : Z) (s : Store) : string * list Row :=
  (match filter (fun p => fst p =? deviceId) (phone_numbers s) with
   | (_, Some n) :: _ => n
   | _ => EmptyString
   end, messages s).

Definition same_key (deviceId : Z) (msgId : string) (r : Row) : bool :=
  (device_id r =? deviceId) && String.eqb (message_id r) msgId.

(** [SET status = EXCLUDED.status, ack = EXCLUDED.ack] *)
Definition excluded (new old : Row) : Row :=
  mkRow (device_id old) (message_id old) (chat_id old) (from_number old)
        (to_number old) (body old) (type old) (is_from_me old) (timestamp old)
        (status new) (ack new).

(** [INSERT INTO messages (...) VALUES (...)
    ON CONFLICT (device_id, message_id) DO UPDATE SET status = EXCLUDED.status,
    ack = EXCLUDED.ack RETURNING *], then [rows[0]] *)
Definition upsert_message (new : Row) (s : Store) : Row * list Row :=
  let hit := same_key (device_id new) (message_id new) in
  match filter hit (messages s) with
  | old :: _ =>
      (excluded new old,
       map (fun r => if hit r then excluded new r else r) (messages s))
  | [] => (new, messages s ++ [new])
  end.

Definition saveOutgoingMessage (uuid : string) (o : Outgoing) : L Row :=
  fun s =>
    let chatId := chatId_of (to o) in
    let msgId := msgId_of uuid (messageId o) in
    match query (select_phone_number (deviceId o)) s with
    | (Throw error, s1) =>
        (Throw error, console_error "Error saving outgoing message:" s1)
    | (Ok fromNumber, s1) =>
        let toNumber := toNumber_of chatId in
        let row := mkRow (deviceId o) msgId chatId fromNumber toNumber (o_body o)
                         (o_type o) true (clock s1) (o_status o)
                         (ack_of (o_status o)) in
        match query (upsert_message row) s1 with
        | (Throw error, s2) =>
            (Throw error, console_error "Error saving outgoing message:" s2)
        | (Ok saved, s2) => (Ok saved, s2)
        end
    end.

(** [UPDATE messages SET status = $3 WHERE device_id = $1 AND message_id = $2],
    with [ack = $4] as well when [ack !== null] *)
Definition update_status (deviceId : Z) (messageId status : string)
  (ack : option Z) (s : Store) : unit * list Row :=
  (tt,
   map (fun r =>
          if same_key deviceId messageId r
          then mkRow (device_id r) (message_id r) (chat_id r) (from_number r)
                     (to_number r) (body r) (type r) (is_from_me r) (timestamp r)
                     status
                     (match ack with Some a => a | None => MessageLogger.ack r end)
          else r)
       (messages s)).

Definition updateMessageStatus (deviceId : Z) (messageId status : string)
  (ack : option Z) : L unit :=
  fun s =>
    match query (update_status deviceId messageId status ack) s with
    | (Throw _, s1) => (Ok tt, console_error "Error updating message status:" s1)
    | (Ok _, s1) => (Ok tt, s1)
    end.

(** [getAckStatusText(ack)]: [statuses[ack] || 'unknown'] *)
Definition getAckStatusText (ack : Z) : string :=
  if ack =? 0 then "pending"
  else if ack =? 1 then "sent"
  else if ack =? 2 then "delivered"
  else if ack =? 3 then "read"
  else if ack =? 4 then "played"
  else "unknown".

End MessageLogger.

(** * Properties *)

(** ** Preservation along a computation *)

Section Preserves.

Variable R : World -> World -> Prop.
Hypothesis R_refl : forall w, R w w.
Hypothesis R_trans : forall a b c, R a b -> R b c -> R a c.

Lemma preserves_ret {A} (a : A) : preserves R (ret a).
Proof. intro w; apply R_refl. Qed.

Lemma preserves_throw {A} e : preserves R (@throw A e).
Proof. intro w; apply R_refl. Qed.

Lemma preserves_gets {A} (g : World -> A) : preserves R (gets g).
Proof. intro w; apply R_refl. Qed.

Lemma preserves_bind {A B} (m : M A) (k : A -> M B) :
  preserves R m -> (forall a, preserves R (k a)) -> preserves R (bind m k).
Proof.
  intros Hm Hk w. unfold bind. specialize (Hm w).
  destruct (m w) as [[a|e] w1]; simpl in *; [|assumption].
  eapply R_trans; [eassumption | apply Hk].
Qed.

Lemma preserves_try_catch {A} (m : M A) (h : JsError -> M A) :
  preserves R m -> (forall e, preserves R (h e)) -> preserves R (try_catch m h).
Proof.
  intros Hm Hh w. unfold try_catch. specialize (Hm w).
  destruct (m w) as [[a|e] w1]; simpl in *; [assumption|].
  eapply R_trans; [eassumption | apply Hh].
Qed.

Lemma preserves_modify (g : World -> World) :
  (forall w, R w (g w)) -> preserves R (modify g).
Proof. intros H w; apply H. Qed.

Lemma preserves_pool_query {A} (q : Z -> Db -> A * Db) :
  (forall w, R w (with_now (Z.add 1) (with_queries S w))) ->
  (forall w t, R w (with_db (fun _ => snd (q t (db w))) w)) ->
  preserves R (pool_query q).
Proof.
  intros H1 H2 w. unfold pool_query.
  destruct (fault_at (env w) (queries w)); simpl; [apply H1|].
  destruct (q (now w) (db w)) as [a d] eqn:E; simpl.
  eapply R_trans; [apply H1|].
  specialize (H2 (with_now (Z.add 1) (with_queries S w)) (now w)).
  simpl in H2. rewrite E in H2. exact H2.
Qed.

End Preserves.

Lemma keeps_eq {X A} (f : World -> X) (m : M A) w :
  keeps f m -> f (snd (m w)) = f w.
Proof. intro H; apply H. Qed.

Section Keeps.

Context {X : Type} (f : World -> X).

Lemma keeps_ret {A} (a : A) : keeps f (ret a).
Proof. apply preserves_ret; reflexivity. Qed.

Lemma keeps_throw {A} e : keeps f (@throw A e).
Proof. apply preserves_throw; reflexivity. Qed.

Lemma keeps_gets {A} (g : World -> A) : keeps f (gets g).
Proof. apply preserves_gets; reflexivity. Qed.

Lemma keeps_bind {A B} (m : M A) (k : A -> M B) :
  keeps f m -> (forall a, keeps f (k a)) -> keeps f (bind m k).
Proof. apply preserves_bind. intros a b c H1 H2; congruence. Qed.

Lemma keeps_try_catch {A} (m : M A) (h : JsError -> M A) :
  keeps f m -> (forall e, keeps f (h e)) -> keeps f (try_catch m h).
Proof. apply preserves_try_catch. intros a b c H1 H2; congruence. Qed.

Lemma keeps_modify (g : World -> World) :
  (forall w, f (g w) = f w) -> keeps f (modify g).
Proof. intro H. apply preserves_modify. exact H. Qed.

Lemma keeps_pool_query {A} (q : Z -> Db -> A * Db) :
  (forall w, f (with_now (Z.add 1) (with_queries S w)) = f w) ->
  (forall w t, f (with_db (fun _ => snd (q t (db w))) w) = f w) ->
  keeps f (pool_query q).
Proof.
  intros H1 H2. apply preserves_pool_query; auto.
  intros a b c Hab Hbc; congruence.
Qed.

End Keeps.

(** A projection of the tables that a statement leaves as it was. *)
Lemma keeps_table {X A} (g : Db -> X) (q : Z -> Db -> A * Db) :
  (forall t d, g (snd (q t d)) = g d) ->
  keeps (fun w => g (db w)) (pool_query q).
Proof.
  intro H. apply keeps_pool_query; intros; [reflexivity | simpl; apply H].
Qed.

(** What is outside the tables, the clock and the statement count is
    untouched by a statement. *)
Lemma keeps_outside {X A} (g : World -> X) (q : Z -> Db -> A * Db) :
  (forall w, g (with_now (Z.add 1) (with_queries S w)) = g w) ->
  (forall w d, g (with_db (fun _ => d) w) = g w) ->
  keeps g (pool_query q).
Proof.
  intros H1 H2. apply keeps_pool_query; intros; [apply H1 | apply H2].
Qed.

Lemma keeps_client_sendMessage {X} (f : World -> X) dev chat text :
  (forall w g, f (with_trace g (with_sends S w)) = f w) ->
  keeps f (client_sendMessage dev chat text).
Proof.
  intros H w. unfold client_sendMessage.
  destruct (send_outcome (env w) (sends w)); apply H.
Qed.

Lemma keeps_call_provider {X} (f : World -> X) p h u :
  (forall w g, f (with_trace g (with_completions S w)) = f w) ->
  keeps f (call_provider p h u).
Proof.
  intros H w. unfold call_provider.
  destruct (ai_outcome (env w) (completions w)); apply H.
Qed.

Lemma keeps_sleep {X} (f : World -> X) ms :
  (forall w g h, f (with_trace g (with_now h w)) = f w) -> keeps f (sleep ms).
Proof. intros H w. apply H. Qed.

Lemma keeps_io_emit {X} (f : World -> X) u n :
  (forall w g, f (with_trace g w) = f w) -> keeps f (io_emit u n).
Proof. intros H w. apply H. Qed.

Lemma keeps_rules_loop {X} (f : World -> X) msg dev rules :
  (forall w g, f (with_trace g (with_sends S w)) = f w) ->
  keeps f (rules_loop msg dev rules).
Proof.
  intro H. induction rules as [|r rules IH]; cbn [rules_loop].
  - apply keeps_ret.
  - destruct (shouldReply r (msg_body msg)); [|exact IH].
    apply keeps_bind; [apply keeps_gets|]. intros [info|].
    + apply keeps_bind; [|intro; apply keeps_ret].
      apply keeps_bind; [|intro; apply keeps_ret].
      apply keeps_client_sendMessage. exact H.
    + apply keeps_bind; intros; apply keeps_ret.
Qed.

(** The count of messages sent moves with the sends only. *)
Lemma keeps_sent_call_provider p h u : keeps sent_count (call_provider p h u).
Proof.
  intro w. unfold call_provider.
  destruct (ai_outcome (env w) (completions w)); unfold sent_count; cbn;
    rewrite filter_app, length_app; cbn; lia.
Qed.

Lemma keeps_sent_sleep ms : keeps sent_count (sleep ms).
Proof.
  intro w. unfold sleep, modify, sent_count. cbn.
  rewrite filter_app, length_app. cbn. lia.
Qed.

Lemma keeps_sent_io_emit u n : keeps sent_count (io_emit u n).
Proof.
  intro w. unfold io_emit, modify, sent_count. cbn.
  rewrite filter_app, length_app. cbn. lia.
Qed.

Create HintDb keeps.

Ltac keeps_leaf :=
  first [ apply keeps_ret | apply keeps_throw | apply keeps_gets
        | apply keeps_modify; intro; reflexivity
        | apply keeps_outside; intros; reflexivity
        | apply keeps_table; intros; reflexivity ].

(** A statement with a conflict clause: both of its branches keep the
    projection. *)
Ltac table_leaf :=
  apply keeps_table; intros ? ?;
  cbv [insert_message ensure_usage_row upsert_broadcast update_usage];
  repeat match goal with |- context [if ?b then _ else _] => destruct b end;
  reflexivity.

Ltac keeps_step :=
  first
    [ solve [auto with keeps]
    | keeps_leaf
    | table_leaf
    | apply keeps_rules_loop; intros; reflexivity
    | apply keeps_client_sendMessage; intros; reflexivity
    | apply keeps_call_provider; intros; reflexivity
    | apply keeps_sleep; intros; reflexivity
    | apply keeps_io_emit; intros; reflexivity
    | apply keeps_sent_call_provider
    | apply keeps_sent_sleep
    | apply keeps_sent_io_emit
    | apply keeps_bind; [| intro]
    | apply keeps_try_catch; [| intro]
    | match goal with
      | |- keeps _ (match ?x with _ => _ end) => destruct x
      | |- keeps _ (let '(_, _) := ?x in _) => destruct x
      end ].

Ltac keeps_all := repeat keeps_step.

(** The methods of the engine, down to the statements they issue. *)
Ltac unfold_calls :=
  unfold handleIncomingMessage, checkAIAutoReply, checkAutoReply, saveMessage,
    reply_with, send_fallback, save_conversation, sendMessage,
    checkAndUpdateUsage, reserve, on_error, getUserSettings, load_user_settings,
    console_error, entered;
  cbn [read_const String.eqb Ascii.eqb Bool.eqb].

(** ** The store's round trip *)

Lemma pool_query_ok {A} (q : Z -> Db -> A * Db) w :
  fault_at (env w) (queries w) = None ->
  pool_query q w =
  (Ok (fst (q (now w) (db w))),
   with_db (fun _ => snd (q (now w) (db w))) (with_now (Z.add 1) (with_queries S w))).
Proof.
  intro H. unfold pool_query. rewrite H. destruct (q (now w) (db w)); reflexivity.
Qed.

Lemma pool_query_fault {A} (q : Z -> Db -> A * Db) w m :
  fault_at (env w) (queries w) = Some m ->
  pool_query q w = (Throw (Error m), with_now (Z.add 1) (with_queries S w)).
Proof. intro H. unfold pool_query. rewrite H. reflexivity. Qed.

(** ** SettingsCache *)

Lemma getUserSettings_total u w : exists s, fst (getUserSettings u w) = Ok s.
Proof.
  unfold getUserSettings, load_user_settings, bind, try_catch, gets, ret,
    console_error, modify, pool_query; simpl.
  destruct (cache_get (userSettings w) u) as [c|];
    [destruct (now w - timestamp c <? 300000); [eexists; reflexivity|]|];
    (destruct (fault_at (env w) (queries w)); simpl; [eexists; reflexivity|];
     destruct (filter _ _); simpl; [|eexists; reflexivity];
     destruct (fault_at _ _); simpl; eexists; reflexivity).
Qed.

Lemma getUserSettings_run u w :
  getUserSettings u w = (Ok (settings_in_effect u w), snd (getUserSettings u w)).
Proof.
  unfold settings_in_effect. destruct (getUserSettings_total u w) as [s Hs].
  destruct (getUserSettings u w) as [r w']. simpl in *. subst r. reflexivity.
Qed.

Lemma getUserSettings_keeps_usage u :
  keeps (fun w => daily_usage (db w)) (getUserSettings u).
Proof. unfold getUserSettings, load_user_settings, console_error. keeps_all. Qed.

Lemma getUserSettings_keeps_env u : keeps env (getUserSettings u).
Proof. unfold getUserSettings, load_user_settings, console_error. keeps_all. Qed.

Lemma getUserSettings_keeps_trace u : keeps trace (getUserSettings u).
Proof. unfold getUserSettings, load_user_settings, console_error. keeps_all. Qed.

Lemma getUserSettings_console u w :
  exists l, console (snd (getUserSettings u w)) = console w ++ l.
Proof.
  unfold getUserSettings, load_user_settings, bind, try_catch, gets, ret,
    console_error, modify, pool_query; simpl.
  destruct (cache_get (userSettings w) u) as [c|];
    [destruct (now w - timestamp c <? 300000);
     [exists []; simpl; rewrite app_nil_r; reflexivity|]|];
    (destruct (fault_at (env w) (queries w)); simpl; [eexists; reflexivity|];
     destruct (filter _ _); simpl;
     [|exists []; simpl; rewrite app_nil_r; reflexivity];
     destruct (fault_at _ _); simpl;
     [eexists; reflexivity | exists []; simpl; rewrite app_nil_r; reflexivity]).
Qed.

Arguments getUserSettings : simpl never.
Arguments checkAndUpdateUsage : simpl never.
Arguments after_read : simpl never.
Arguments settings_in_effect : simpl never.
Arguments on_error : simpl never.

Lemma getUserSettings_usage u w :
  daily_usage (db (snd (getUserSettings u w))) = daily_usage (db w).
Proof. exact (getUserSettings_keeps_usage u w). Qed.

Lemma getUserSettings_env u w : env (snd (getUserSettings u w)) = env w.
Proof. exact (getUserSettings_keeps_env u w). Qed.

Lemma getUserSettings_trace u w : trace (snd (getUserSettings u w)) = trace w.
Proof. exact (getUserSettings_keeps_trace u w). Qed.

(** ** UsageLedger *)

Lemma on_error_quota u limit w :
  on_error u (Error (quota_message limit)) w = (Throw (Error (quota_message limit)), w).
Proof. reflexivity. Qed.

Lemma on_error_other u e w :
  JsString.includes (message e) "Daily message limit" = false ->
  on_error u e w =
  (Ok (mkUsageCheck true (-1)
         (settings_in_effect u (with_console (fun l => l ++ ["Error checking usage:"]) w))),
   snd (getUserSettings u (with_console (fun l => l ++ ["Error checking usage:"]) w))).
Proof.
  intro H. unfold on_error. rewrite H.
  unfold bind, console_error, modify. simpl.
  rewrite getUserSettings_run. reflexivity.
Qed.

Lemma on_error_reference u w :
  on_error u (ReferenceError "totalSent is not defined") w =
  (Ok (mkUsageCheck true (-1)
         (settings_in_effect u (with_console (fun l => l ++ ["Error checking usage:"]) w))),
   snd (getUserSettings u (with_console (fun l => l ++ ["Error checking usage:"]) w))).
Proof. apply on_error_other. reflexivity. Qed.

(* the shape of reserve *)
Lemma daily_usage_ensure u d date t db0 :
  daily_usage (snd (ensure_usage_row u d date t db0)) = ensured u d date (daily_usage db0).
Proof.
  unfold ensure_usage_row, ensured. destruct (existsb _ _); reflexivity.
Qed.


Lemma after_read_ok u d date w :
  fault_at (env w) (queries w) = None ->
  fault_at (env w) (S (queries w)) = None ->
  let rows := rows_of_day u date (ensured u d date (daily_usage (db w))) in
  (pool_query (ensure_usage_row u d date) ;; pool_query (select_usage u date)) w =
  (Ok (sum_of messages_sent rows, sum_of broadcasts_sent rows,
       sum_of auto_replies_sent rows),
   after_read u d date w)
  /\ env (after_read u d date w) = env w
  /\ daily_usage (db (after_read u d date w)) = ensured u d date (daily_usage (db w))
  /\ trace (after_read u d date w) = trace w
  /\ console (after_read u d date w) = console w.
Proof.
  intros H0 H1. unfold after_read, bind.
  rewrite (pool_query_ok _ w H0). simpl.
  rewrite pool_query_ok by (simpl; exact H1). simpl.
  rewrite !daily_usage_ensure. repeat split; reflexivity.
Qed.

Lemma reserve_run u d t date w :
  fault_at (env w) (queries w) = None ->
  fault_at (env w) (S (queries w)) = None ->
  let w2 := after_read u d date w in
  let s := settings_in_effect u w2 in
  let w3 := snd (getUserSettings u w2) in
  let total := fst (select_total u date 0 (db w2)) in
  reserve u d t date w =
  if enable_rate_limiting s && (total >=? daily_message_limit s)
  then (Throw (Error (quota_message (daily_message_limit s))), w3)
  else match fault_at (env w) (queries w3) with
       | Some m => (Throw (Error m), with_now (Z.add 1) (with_queries S w3))
       | None => (Throw (ReferenceError "totalSent is not defined"),
                  with_db (fun _ => snd (update_usage (updateField t) u d date 0 (db w3)))
                    (with_now (Z.add 1) (with_queries S w3)))
       end.
Proof.
  intros H0 H1 w2 s w3 total.
  destruct (after_read_ok u d date w H0 H1) as (Hrun & Henv2 & Hrows & _).
  assert (Henv : env w3 = env w).
  { unfold w3. rewrite getUserSettings_env. exact Henv2. }
  assert (Hres : reserve u d t date w =
                 match (pool_query (ensure_usage_row u d date) ;; pool_query (select_usage u date)) w with
                 | (Ok usage, w') =>
                     (let '(total_messages, total_broadcasts, _) := usage in
                      let scope := [("total_messages", total_messages);
                                    ("total_broadcasts", total_broadcasts)] in
                      s <- getUserSettings u ;;
                      (if enable_rate_limiting s then
                         let block := ("totalSent", total_messages + total_broadcasts) :: scope in
                         totalSent <- read_const block "totalSent" ;;
                         if totalSent >=? daily_message_limit s
                         then throw (Error (quota_message (daily_message_limit s)))
                         else ret tt
                       else ret tt) ;;
                      pool_query (update_usage (updateField t) u d date) ;;
                      totalSent <- read_const scope "totalSent" ;;
                      ret (mkUsageCheck true (daily_message_limit s - totalSent - 1) s)) w'
                 | (Throw e, w') => (Throw e, w')
                 end).
  { unfold reserve, bind. destruct (pool_query (ensure_usage_row u d date) w) as [[[]|e] w1]; reflexivity. }
  rewrite Hres, Hrun. clear Hres Hrun. fold w2.
  unfold bind at 1. rewrite (getUserSettings_run u w2). fold s. fold w3.
  assert (Htot : total = sum_of messages_sent (rows_of_day u date (ensured u d date (daily_usage (db w)))) + sum_of broadcasts_sent (rows_of_day u date (ensured u d date (daily_usage (db w))))).
  { unfold total, select_total, w2. cbn [fst]. rewrite Hrows. reflexivity. }
  rewrite <- Htot. 
  destruct (enable_rate_limiting s); simpl.
  - unfold bind, ret, throw; simpl.
    destruct (total >=? daily_message_limit s); simpl; [reflexivity|].
    unfold pool_query. rewrite Henv. destruct (fault_at (env w) (queries w3)); reflexivity.
  - unfold bind, ret, throw; simpl.
    unfold pool_query. rewrite Henv. destruct (fault_at (env w) (queries w3)); reflexivity.
Qed.

Lemma sum_of_app f l1 l2 : sum_of f (l1 ++ l2) = sum_of f l1 + sum_of f l2.
Proof. unfold sum_of. induction l1; simpl; lia. Qed.

Lemma sum_of_filter_ensured f (p : UsageRow -> bool) u d date l :
  f (mkUsage u d date 0 0 0) = 0 ->
  sum_of f (filter p (ensured u d date l)) = sum_of f (filter p l).
Proof.
  intro Hz. unfold ensured. destruct (existsb _ l); [reflexivity|].
  rewrite filter_app, sum_of_app. simpl.
  destruct (p _); simpl; lia.
Qed.

Lemma usage_key_bump f r u' d' date' :
  usage_key u' d' date' (bump f r) = usage_key u' d' date' r.
Proof. destruct f; reflexivity. Qed.

Lemma filter_bumped f u d date (p : UsageRow -> bool) l :
  (forall r, p (bump f r) = p r) ->
  filter p (bumped f u d date l) = bumped f u d date (filter p l).
Proof.
  intro Hp. unfold bumped. induction l as [|r l IH]; simpl; [reflexivity|].
  destruct (usage_key u d date r) eqn:K.
  - rewrite Hp. destruct (p r); simpl; [rewrite K|]; rewrite IH; reflexivity.
  - destruct (p r); simpl; [rewrite K|]; rewrite IH; reflexivity.
Qed.

Lemma sum_of_bumped_other f g u d date l :
  f <> g -> sum_of (field_of g) (bumped f u d date l) = sum_of (field_of g) l.
Proof.
  intro Hne. unfold bumped. induction l as [|r l IH]; simpl; [reflexivity|].
  rewrite IH. destruct (usage_key u d date r); [|reflexivity].
  destruct f, g; simpl; congruence.
Qed.

Lemma sum_of_bumped_same f u d date l :
  sum_of (field_of f) (bumped f u d date l) =
  sum_of (field_of f) l + Z.of_nat (List.length (filter (usage_key u d date) l)).
Proof.
  unfold bumped. induction l as [|r l IH]; simpl; [reflexivity|].
  rewrite IH. destruct (usage_key u d date r); simpl List.length; [|lia].
  destruct f; simpl; lia.
Qed.

Lemma filter_key_ensured u d date l :
  (List.length (filter (usage_key u d date) l) <= 1)%nat ->
  List.length (filter (usage_key u d date) (ensured u d date l)) = 1%nat.
Proof.
  intro H. unfold ensured. destruct (existsb _ l) eqn:E.
  - apply existsb_exists in E. destruct E as (r & Hin & Hk).
    assert (In r (filter (usage_key u d date) l)) by (apply filter_In; auto).
    destruct (filter _ l); simpl in *; [contradiction | lia].
  - rewrite filter_app, length_app. simpl.
    unfold usage_key at 2. simpl. rewrite !Z.eqb_refl. simpl.
    assert (filter (usage_key u d date) l = []).
    { destruct (filter (usage_key u d date) l) as [|r l'] eqn:F; [reflexivity|].
      assert (In r (filter (usage_key u d date) l)) by (rewrite F; left; reflexivity).
      apply filter_In in H0. destruct H0.
      assert (existsb (usage_key u d date) l = true) by (apply existsb_exists; eauto).
      congruence. }
    rewrite H0. reflexivity.
Qed.

Lemma total_after_read u d date w :
  fault_at (env w) (queries w) = None ->
  fault_at (env w) (S (queries w)) = None ->
  fst (select_total u date 0 (db (after_read u d date w))) = total_sent u date w.
Proof.
  intros H0 H1. destruct (after_read_ok u d date w H0 H1) as (_ & _ & Hrows & _).
  unfold select_total, total_sent, rows_of_day. cbn [fst]. rewrite Hrows.
  rewrite !sum_of_filter_ensured by reflexivity. reflexivity.
Qed.

Lemma checkAndUpdateUsage_run u d t w :
  fault_at (env w) (queries w) = None ->
  fault_at (env w) (S (queries w)) = None ->
  let w2 := after_read u d (today w) w in
  let s := settings_in_effect u w2 in
  let w3 := snd (getUserSettings u w2) in
  checkAndUpdateUsage u d t w =
  if enable_rate_limiting s && (total_sent u (today w) w >=? daily_message_limit s)
  then (Throw (Error (quota_message (daily_message_limit s))), w3)
  else match fault_at (env w) (queries w3) with
       | Some m => on_error u (Error m) (with_now (Z.add 1) (with_queries S w3))
       | None =>
           on_error u (ReferenceError "totalSent is not defined")
             (with_db (fun _ => snd (update_usage (updateField t) u d (today w) 0 (db w3)))
                (with_now (Z.add 1) (with_queries S w3)))
       end.
Proof.
  intros H0 H1 w2 s w3.
  unfold checkAndUpdateUsage, bind, gets, try_catch. cbn [fst snd].
  rewrite (reserve_run u d t (today w) w H0 H1).
  rewrite (total_after_read u d (today w) w H0 H1).
  fold w2. fold s. fold w3.
  destruct (enable_rate_limiting s && (total_sent u (today w) w >=? daily_message_limit s)).
  - reflexivity.
  - destruct (fault_at (env w) (queries w3)); reflexivity.
Qed.

Lemma counter_ensured f u d date u' d' date' l :
  sum_of (field_of f) (filter (usage_key u' d' date') (ensured u d date l)) =
  sum_of (field_of f) (filter (usage_key u' d' date') l).
Proof. apply sum_of_filter_ensured. destruct f; reflexivity. Qed.

Lemma quota_denied u d t w :
  fault_at (env w) (queries w) = None ->
  fault_at (env w) (S (queries w)) = None ->
  let s := settings_in_effect u (after_read u d (today w) w) in
  enable_rate_limiting s = true ->
  daily_message_limit s <= total_sent u (today w) w ->
  exists w',
    checkAndUpdateUsage u d t w =
      (Throw (Error (quota_message (daily_message_limit s))), w')
    /\ daily_usage (db w') = ensured u d (today w) (daily_usage (db w))
    /\ forall f u' d' date', counter f u' d' date' w' = counter f u' d' date' w.
Proof.
  intros H0 H1 s He Hl.
  rewrite (checkAndUpdateUsage_run u d t w H0 H1). fold s. rewrite He.
  replace (total_sent u (today w) w >=? daily_message_limit s) with true
    by (symmetry; apply Z.geb_le; lia).
  cbn [andb]. eexists. split; [reflexivity|].
  destruct (after_read_ok u d (today w) w H0 H1) as (_ & _ & Hrows & _).
  assert (Hu : daily_usage (db (snd (getUserSettings u (after_read u d (today w) w)))) =
               ensured u d (today w) (daily_usage (db w))).
  { rewrite getUserSettings_usage. exact Hrows. }
  split; [exact Hu|]. intros. unfold counter. rewrite Hu. apply counter_ensured.
Qed.

Lemma quota_reserved u d t w :
  fault_at (env w) (queries w) = None ->
  fault_at (env w) (S (queries w)) = None ->
  let w2 := after_read u d (today w) w in
  let s := settings_in_effect u w2 in
  fault_at (env w) (queries (snd (getUserSettings u w2))) = None ->
  enable_rate_limiting s = false \/ total_sent u (today w) w < daily_message_limit s ->
  exists s' w',
    checkAndUpdateUsage u d t w = (Ok (mkUsageCheck true (-1) s'), w')
    /\ daily_usage (db w') =
       bumped (updateField t) u d (today w) (ensured u d (today w) (daily_usage (db w)))
    /\ In "Error checking usage:" (console w').
Proof.
  intros H0 H1 w2 s H3 Hpass.
  rewrite (checkAndUpdateUsage_run u d t w H0 H1). fold w2. fold s. rewrite H3.
  replace (enable_rate_limiting s && (total_sent u (today w) w >=? daily_message_limit s))
    with false.
  2:{ symmetry. destruct Hpass as [->|Hlt]; [reflexivity|].
      apply andb_false_iff. right. rewrite Z.geb_leb. apply Z.leb_gt. lia. }
  rewrite on_error_reference. do 2 eexists. split; [reflexivity|].
  destruct (after_read_ok u d (today w) w H0 H1) as (_ & _ & Hrows & _).
  split.
  - rewrite getUserSettings_usage. cbn. rewrite getUserSettings_usage.
    unfold w2. rewrite Hrows. reflexivity.
  - match goal with |- In _ (console (snd (getUserSettings u ?x))) =>
      destruct (getUserSettings_console u x) as [l Hl]; rewrite Hl end.
    cbn. apply in_or_app. left. apply in_or_app. right. left. reflexivity.
Qed.

Lemma counter_reserved f u d date l :
  (List.length (filter (usage_key u d date) l) <= 1)%nat ->
  sum_of (field_of f) (filter (usage_key u d date) (bumped f u d date (ensured u d date l))) =
  sum_of (field_of f) (filter (usage_key u d date) l) + 1.
Proof.
  intro H1. rewrite filter_bumped by (intro; apply usage_key_bump).
  rewrite sum_of_bumped_same.
  assert (E : filter (usage_key u d date) (filter (usage_key u d date) (ensured u d date l)) =
          filter (usage_key u d date) (ensured u d date l)).
  { induction (ensured u d date l) as [|r l' IH]; simpl; [reflexivity|].
    destruct (usage_key u d date r) eqn:K; simpl; [rewrite K, IH|]; auto. }
  rewrite E, filter_key_ensured by exact H1.
  rewrite counter_ensured. reflexivity.
Qed.

Lemma on_error_logged u e w :
  JsString.includes (message e) "Daily message limit" = false ->
  exists s' w',
    on_error u e w = (Ok (mkUsageCheck true (-1) s'), w')
    /\ In "Error checking usage:" (console w')
    /\ daily_usage (db w') = daily_usage (db w).
Proof.
  intro H. rewrite (on_error_other u e w H). do 2 eexists. split; [reflexivity|].
  split.
  - match goal with |- In _ (console (snd (getUserSettings u ?x))) =>
      destruct (getUserSettings_console u x) as [l Hl]; rewrite Hl end.
    cbn. apply in_or_app. left. apply in_or_app. right. left. reflexivity.
  - rewrite getUserSettings_usage. reflexivity.
Qed.

(** Whatever the store does, a reservation ends in one of two ways: it
    allows the send and reports the sentinel, or it throws an error whose
    message carries the words of the quota denial. *)
Lemma reserve_throws u d t date w :
  exists e w', reserve u d t date w = (Throw e, w').
Proof.
  unfold reserve, bind.
  destruct (pool_query (ensure_usage_row u d date) w) as [[[]|e] w1];
    [|do 2 eexists; reflexivity].
  destruct (pool_query (select_usage u date) w1) as [[[[tm tb] ta]|e] w2];
    [|do 2 eexists; reflexivity].
  rewrite (getUserSettings_run u w2).
  destruct (enable_rate_limiting (settings_in_effect u w2)); cbn.
  - destruct (tm + tb >=? _); cbn; [do 2 eexists; reflexivity|].
    destruct (pool_query _ _) as [[[]|e] w4]; do 2 eexists; reflexivity.
  - destruct (pool_query _ _) as [[[]|e] w4]; do 2 eexists; reflexivity.
Qed.

Lemma checkAndUpdateUsage_outcome u d t w :
  match fst (checkAndUpdateUsage u d t w) with
  | Ok c => allowed c = true /\ remaining c = -1
  | Throw e => JsString.includes (message e) "Daily message limit" = true
  end.
Proof.
  unfold checkAndUpdateUsage, bind, gets, try_catch. cbn [fst snd].
  destruct (reserve_throws u d t (today w) w) as (e & w' & ->).
  destruct (JsString.includes (message e) "Daily message limit") eqn:E.
  - unfold on_error. rewrite E. exact E.
  - rewrite (on_error_other u e w' E). split; reflexivity.
Qed.

(** A call that runs alone does what [checkAndUpdateUsage] does. *)
Lemma run_alone_spec u d t w :
  run_alone (start_call u d t w) w =
  (set_pc (start_call u d t w) (Finished (fst (checkAndUpdateUsage u d t w))),
   snd (checkAndUpdateUsage u d t w)).
Proof.
  unfold run_alone, checkAndUpdateUsage, reserve, start_call, step, advance,
    set_pc, bind, try_catch, gets, ret; cbn.
  destruct (pool_query (ensure_usage_row u d (today w)) w) as [[[]|e] w1]; cbn.
  2:{ destruct (on_error u e w1); reflexivity. }
  destruct (pool_query (select_usage u (today w)) w1) as [[[[tm tb] ta]|e] w2]; cbn.
  2:{ destruct (on_error u e w2); reflexivity. }
  destruct (getUserSettings u w2) as [[s|e] w3]; cbn.
  2:{ destruct (on_error u e w3); reflexivity. }
  destruct (enable_rate_limiting s); cbn.
  - unfold throw. destruct (tm + tb >=? daily_message_limit s); cbn.
    + match goal with |- context [on_error u ?e ?w] => destruct (on_error u e w) end;
        reflexivity.
    + destruct (pool_query _ w3) as [[[]|e] w4]; cbn;
        match goal with |- context [on_error u ?e ?w] => destruct (on_error u e w) end;
        reflexivity.
  - destruct (pool_query _ w3) as [[[]|e] w4]; cbn;
      match goal with |- context [on_error u ?e ?w] => destruct (on_error u e w) end;
      reflexivity.
Qed.

(** C1.  With dailyMessageLimit = 5 and nothing sent today, the first five
    reservations are let through and each one reports remaining = -1 (the
    fifth as well, where 0 is expected); the sixth is denied with the quota
    error.  The five that were let through are counted. *)
Theorem fifth_reservation_reports_unknown :
  map remaining_of (fst (reservations 6 1 10 "message" w_limit5)) =
    [Ok (-1); Ok (-1); Ok (-1); Ok (-1); Ok (-1);
     Throw (Error "Daily message limit reached (5). Try again tomorrow.")]
  /\ total_sent 1 0 (snd (reservations 5 1 10 "message" w_limit5)) = 5
  /\ counter f_messages_sent 1 10 0 (snd (reservations 6 1 10 "message" w_limit5)) = 5.
Proof. vm_compute. repeat split; reflexivity. Qed.

(** C2.  Two reservations of the same user start when one send is left
    (limit 5, 4 sent).  Their turns alternate, so both read the total
    before either writes: both are let through and the day's total is 6. *)
Theorem interleaved_reservations_exceed_limit :
  let a := start_call 1 10 "message" w_boundary in
  let b := start_call 1 11 "message" w_boundary in
  let run := run_schedule [0; 1; 0; 1; 0; 1; 0; 1]%nat [a; b] w_boundary in
  daily_message_limit (settings_in_effect 1 w_boundary) = 5
  /\ total_sent 1 0 w_boundary = 4
  /\ map succeeded (fst run) = [true; true]
  /\ total_sent 1 0 (snd run) = 6.
Proof. vm_compute. repeat split; reflexivity. Qed.

(** The same two reservations one after the other: the second is denied. *)
Lemma sequential_reservations_respect_limit :
  let a := start_call 1 10 "message" w_boundary in
  let b := start_call 1 11 "message" w_boundary in
  let run := run_schedule [0; 0; 0; 0; 1; 1; 1; 1]%nat [a; b] w_boundary in
  map succeeded (fst run) = [true; false]
  /\ total_sent 1 0 (snd run) = 5.
Proof. vm_compute. repeat split; reflexivity. Qed.

(** C9, as amended.  When one of the reservation's own statements (the row
    creation, the read of the totals, the counter update) fails with a
    storage error, the call allows the send, returns remaining = -1 and
    logs the anomaly; a quota denial is thrown to the caller. *)
Theorem own_statement_failure_fails_open u d t w :
  let w2 := after_read u d (today w) w in
  let s := settings_in_effect u w2 in
  (forall m,
     JsString.includes m "Daily message limit" = false ->
     fault_at (env w) (queries w) = Some m
     \/ (fault_at (env w) (queries w) = None /\
         fault_at (env w) (S (queries w)) = Some m)
     \/ (fault_at (env w) (queries w) = None /\
         fault_at (env w) (S (queries w)) = None /\
         (enable_rate_limiting s = false \/
          total_sent u (today w) w < daily_message_limit s) /\
         fault_at (env w) (queries (snd (getUserSettings u w2))) = Some m) ->
     exists s' w',
       checkAndUpdateUsage u d t w = (Ok (mkUsageCheck true (-1) s'), w')
       /\ In "Error checking usage:" (console w'))
  /\ (fault_at (env w) (queries w) = None ->
      fault_at (env w) (S (queries w)) = None ->
      enable_rate_limiting s = true ->
      daily_message_limit s <= total_sent u (today w) w ->
      fst (checkAndUpdateUsage u d t w) =
        Throw (Error (quota_message (daily_message_limit s)))).
Proof.
  intros w2 s. split.
  - intros m Hm [H | [[H0 H1] | (H0 & H1 & Hpass & H3)]].
    + unfold checkAndUpdateUsage, reserve, bind, gets, try_catch. cbn [fst snd].
      rewrite (pool_query_fault _ w m H).
      destruct (on_error_logged u (Error m) (with_now (Z.add 1) (with_queries S w)) Hm)
        as (s' & w' & E & L & _).
      exists s', w'. split; assumption.
    + unfold checkAndUpdateUsage, reserve, bind, gets, try_catch. cbn [fst snd].
      rewrite (pool_query_ok _ w H0).
      rewrite (pool_query_fault _ _ m) by exact H1.
      match goal with |- context [on_error u _ ?x] =>
        destruct (on_error_logged u (Error m) x Hm) as (s' & w' & E & L & _) end.
      exists s', w'. split; assumption.
    + rewrite (checkAndUpdateUsage_run u d t w H0 H1). fold w2. fold s. rewrite H3.
      replace (enable_rate_limiting s &&
               (total_sent u (today w) w >=? daily_message_limit s)) with false.
      2:{ symmetry. destruct Hpass as [->|Hlt]; [reflexivity|].
          apply andb_false_iff. right. rewrite Z.geb_leb. apply Z.leb_gt. lia. }
      match goal with |- context [on_error u _ ?x] =>
        destruct (on_error_logged u (Error m) x Hm) as (s' & w' & E & L & _) end.
      exists s', w'. split; assumption.
  - intros H0 H1 He Hl.
    destruct (quota_denied u d t w H0 H1 He Hl) as (w' & E & _). rewrite E. reflexivity.
Qed.

Lemma own_statement_failure_fails_open_witness :
  (exists s' w',
     checkAndUpdateUsage 1 10 "message" w_store_down =
       (Ok (mkUsageCheck true (-1) s'), w')
     /\ In "Error checking usage:" (console w'))
  /\ fst (checkAndUpdateUsage 1 10 "message"
            (snd (reservations 5 1 10 "message" w_limit5))) =
     Throw (Error (quota_message 5)).
Proof.
  split.
  - apply (proj1 (own_statement_failure_fails_open 1 10 "message" w_store_down)
             "connection terminated").
    + reflexivity.
    + left. reflexivity.
  - apply (proj2 (own_statement_failure_fails_open 1 10 "message"
                    (snd (reservations 5 1 10 "message" w_limit5)))).
    + reflexivity.
    + reflexivity.
    + reflexivity.
    + vm_compute. discriminate.
Defined.

(** The statement that loads the settings fails while the user, whose own
    limit is 1000, has sent 300: the loader answers with the built-in
    defaults, the check runs against their limit of 200, and the
    reservation is denied. *)
Lemma settings_failure_blocks_send :
  fault_at (env w_settings_down) 2 = Some "connection terminated"
  /\ JsString.includes "connection terminated" "Daily message limit" = false
  /\ (queries w_settings_down <= 2
      < queries (snd (checkAndUpdateUsage 1 10 "message" w_settings_down)))%nat
  /\ user_settings (db w_settings_down) = [(1, settings_limit 1000)]
  /\ total_sent 1 0 w_settings_down = 300
  /\ fst (checkAndUpdateUsage 1 10 "message" w_settings_down) =
     Throw (Error "Daily message limit reached (200). Try again tomorrow.").
Proof. vm_compute. repeat split; try reflexivity; lia. Qed.

(** ** Dispatcher and BroadcastRunner *)

Arguments sendMessage : simpl never.
Arguments format_number : simpl never.

Lemma sendMessage_skip dev to text mt info w :
  clients_get (clients w) dev = Some info ->
  fault_at (env w) (queries w) = None ->
  exists w1,
    sendMessage dev to text (mkSendOptions true mt) w =
      (match send_outcome (env w) (sends w) with
       | SendOk mid ts => Ok (mkSendResult mid ts)
       | SendRejected m => Throw (Error m)
       end, w1)
    /\ trace w1 =
       trace w ++
       [match send_outcome (env w) (sends w) with
        | SendOk _ _ =>
            EvSent dev (format_number to) (render (env w) (format_number to) text)
        | SendRejected _ =>
            EvSendFailed dev (format_number to) (render (env w) (format_number to) text)
        end]
    /\ env w1 = env w /\ clients w1 = clients w
    /\ sends w1 = S (sends w) /\ queries w1 = S (queries w).
Proof.
  intros Hc Hq.
  unfold sendMessage, bind, gets, try_catch, ret, throw, console_error, modify,
    client_sendMessage.
  cbn [fst snd]. rewrite Hc. rewrite (pool_query_ok _ w Hq).
  cbn [skipRateLimit].
  destruct (truthy_id _); cbn;
    destruct (send_outcome (env w) (sends w)); cbn;
    eexists; repeat split; reflexivity.
Qed.

Section Broadcast.

Variables (deviceId userId date : Z) (text : string) (options : SendOptions)
          (s : Settings) (n : Z).

Lemma broadcast_turn_run i r results info w :
  reliable w ->
  clients_get (clients w) deviceId = Some info ->
  exists w',
    broadcast_turn deviceId userId date text options s n i r results w =
      (Ok (results ++ [attempt_result r (send_outcome (env w) (sends w))]), w')
    /\ trace w' =
       trace w ++ attempt_events deviceId (env w) text (delayMs s)
                    (negb (i <? n - 1)) r (send_outcome (env w) (sends w))
    /\ env w' = env w /\ clients w' = clients w /\ sends w' = S (sends w).
Proof.
  intros Hrel Hc.
  destruct (sendMessage_skip deviceId r text (Some "broadcast") info w Hc (Hrel _))
    as (w1 & Hrun & Htr & Henv & Hcl & Hs & Hq).
  unfold broadcast_turn, try_catch, bind. rewrite Hrun.
  destruct (send_outcome (env w) (sends w)) as [mid ts|m] eqn:Ho.
  - rewrite pool_query_ok by (rewrite Henv; apply Hrel).
    cbn [fst snd sr_messageId attempt_result attempt_events].
    destruct (i <? n - 1); cbn; (eexists; split; [reflexivity|]); cbn;
      rewrite ?Htr, ?Henv, ?Hcl, ?Hs, <- ?app_assoc; repeat split; reflexivity.
  - cbn. exists w1. repeat split; assumption.
Qed.

Lemma broadcast_loop_run rest : forall w i results info,
  reliable w ->
  clients_get (clients w) deviceId = Some info ->
  i + Z.of_nat (List.length rest) = n ->
  exists w',
    broadcast_loop deviceId userId date text options s n i rest results w =
      (Ok (results ++ expected_results (env w) (sends w) rest), w')
    /\ trace w' =
       trace w ++ expected_events deviceId (env w) text (delayMs s) (sends w) rest
    /\ sends w' = (sends w + List.length rest)%nat.
Proof.
  induction rest as [|r rest IH]; intros w i results info Hrel Hc Hn.
  - exists w. cbn. rewrite !app_nil_r, Nat.add_0_r. repeat split; reflexivity.
  - cbn [broadcast_loop]. unfold bind.
    destruct (broadcast_turn_run i r results info w Hrel Hc)
      as (w1 & Hrun & Htr & Henv & Hcl & Hs).
    rewrite Hrun.
    assert (Hlast : negb (i <? n - 1) = is_nil rest).
    { cbn [List.length] in Hn. destruct rest; cbn [is_nil negb List.length] in *.
      - apply negb_true_iff. apply Z.ltb_ge. lia.
      - apply negb_false_iff. apply Z.ltb_lt. lia. }
    assert (Hrel1 : reliable w1) by (intro k; rewrite Henv; apply Hrel).
    assert (Hc1 : clients_get (clients w1) deviceId = Some info) by (rewrite Hcl; exact Hc).
    destruct (IH w1 (i + 1) (results ++ [attempt_result r (send_outcome (env w) (sends w))])
                info Hrel1 Hc1) as (w' & Hr' & Ht' & Hs').
    { cbn [List.length] in Hn. lia. }
    exists w'. rewrite Hr', Ht', Hs', Henv, Hs, Htr, Hlast.
    cbn [expected_results expected_events List.length].
    rewrite <- !app_assoc. repeat split; try reflexivity. lia.
Qed.

End Broadcast.

Arguments after_lookup : simpl never.

Lemma getUserSettings_keeps_sends u : keeps sends (getUserSettings u).
Proof. unfold getUserSettings, load_user_settings, console_error. keeps_all. Qed.

Lemma getUserSettings_keeps_clients u : keeps clients (getUserSettings u).
Proof. unfold getUserSettings, load_user_settings, console_error. keeps_all. Qed.

Lemma getUserSettings_sends u w : sends (snd (getUserSettings u w)) = sends w.
Proof. exact (getUserSettings_keeps_sends u w). Qed.

Lemma getUserSettings_clients u w : clients (snd (getUserSettings u w)) = clients w.
Proof. exact (getUserSettings_keeps_clients u w). Qed.

Lemma after_lookup_ok dev w :
  fault_at (env w) (queries w) = None ->
  pool_query (select_device_user dev) w =
    (Ok (fst (select_device_user dev 0 (db w))), after_lookup dev w)
  /\ env (after_lookup dev w) = env w
  /\ trace (after_lookup dev w) = trace w
  /\ sends (after_lookup dev w) = sends w
  /\ clients (after_lookup dev w) = clients w.
Proof.
  intro H. unfold after_lookup. rewrite (pool_query_ok _ w H).
  repeat split; reflexivity.
Qed.

(** The part of [sendBroadcast] before the loop. *)
Lemma sendBroadcast_preflight dev recipients text options u w :
  fault_at (env w) (queries w) = None ->
  device_user dev w = Some u ->
  let s := settings_in_effect u (after_lookup dev w) in
  let w2 := snd (getUserSettings u (after_lookup dev w)) in
  let n := Z.of_nat (List.length recipients) in
  sendBroadcast dev recipients text options w =
  if enable_rate_limiting s && (n >? max_broadcast_recipients s)
  then (Throw (Error (too_many_message s)), w2)
  else
    match pool_query (select_total u (today w2)) w2 with
    | (Ok currentUsage, w3) =>
        if enable_rate_limiting s && (n >? daily_message_limit s - currentUsage)
        then (Throw (Error (not_enough_message (daily_message_limit s - currentUsage) n)), w3)
        else broadcast_loop dev u (today w2) text options s n 0 recipients [] w3
    | (Throw e, w3) => (Throw e, w3)
    end.
Proof.
  intros H0 Hu s w2 n.
  destruct (after_lookup_ok dev w H0) as (Hrun & _).
  unfold sendBroadcast. unfold bind at 1. rewrite Hrun.
  unfold device_user in Hu. rewrite Hu.
  unfold bind at 1. rewrite (getUserSettings_run u (after_lookup dev w)).
  fold s. fold w2. fold n.
  destruct (enable_rate_limiting s && (n >? max_broadcast_recipients s)); [reflexivity|].
  unfold bind at 1. unfold gets at 1. unfold bind at 1.
  destruct (pool_query (select_total u (today w2)) w2) as [[c|e] w3]; [|reflexivity].
  destruct (enable_rate_limiting s && (n >? daily_message_limit s - c)); reflexivity.
Qed.

Lemma expected_results_recipients e rest : forall k,
  map recipient (expected_results e k rest) = rest.
Proof.
  induction rest as [|r rest IH]; intro k; cbn; [reflexivity|].
  rewrite IH. destruct (send_outcome e k); reflexivity.
Qed.

Lemma expected_results_success e rest : forall k,
  map success (expected_results e k rest) =
  map (fun j => accepted (send_outcome e j)) (seq k (List.length rest)).
Proof.
  induction rest as [|r rest IH]; intro k; cbn; [reflexivity|].
  rewrite IH. destruct (send_outcome e k); reflexivity.
Qed.

Lemma expected_sleeps_all_accepted dev e text delay rest : forall k,
  (forall j, accepted (send_outcome e j) = true) ->
  List.length (filter is_sleep (expected_events dev e text delay k rest)) =
  (List.length rest - 1)%nat.
Proof.
  induction rest as [|r rest IH]; intros k Hall; [reflexivity|].
  cbn [expected_events]. rewrite filter_app, length_app, IH by exact Hall.
  specialize (Hall k). unfold attempt_events.
  destruct (send_outcome e k); [|discriminate].
  destruct rest; cbn; lia.
Qed.

Lemma select_total_ok u date w :
  fault_at (env w) (queries w) = None ->
  exists w3,
    pool_query (select_total u date) w = (Ok (total_sent u date w), w3)
    /\ env w3 = env w /\ trace w3 = trace w /\ sends w3 = sends w
    /\ clients w3 = clients w.
Proof.
  intro H. rewrite (pool_query_ok _ w H). eexists. repeat split; reflexivity.
Qed.

(** C4, as amended.  With rate limiting enabled, a broadcast to more
    recipients than max_broadcast_recipients is rejected with the
    too-many-recipients error, and one to more recipients than the day's
    remaining quota with the not-enough-quota error; in both cases the
    transport is not called and nothing is sent. *)
Theorem broadcast_preflight_rejects dev recipients text options u w :
  fault_at (env w) (queries w) = None ->
  device_user dev w = Some u ->
  let s := settings_in_effect u (after_lookup dev w) in
  let w2 := snd (getUserSettings u (after_lookup dev w)) in
  let n := Z.of_nat (List.length recipients) in
  let remaining := daily_message_limit s - total_sent u (today w2) w2 in
  enable_rate_limiting s = true ->
  (max_broadcast_recipients s < n ->
   exists w',
     sendBroadcast dev recipients text options w =
       (Throw (Error (too_many_message s)), w')
     /\ trace w' = trace w /\ sends w' = sends w)
  /\ (n <= max_broadcast_recipients s ->
      fault_at (env w) (queries w2) = None ->
      remaining < n ->
      exists w',
        sendBroadcast dev recipients text options w =
          (Throw (Error (not_enough_message remaining n)), w')
        /\ trace w' = trace w /\ sends w' = sends w).
Proof.
  intros H0 Hu s w2 n remaining He.
  destruct (after_lookup_ok dev w H0) as (_ & Henv1 & Htr1 & Hs1 & _).
  assert (Htr2 : trace w2 = trace w) by (unfold w2; rewrite getUserSettings_trace; exact Htr1).
  assert (Hs2 : sends w2 = sends w) by (unfold w2; rewrite getUserSettings_sends; exact Hs1).
  assert (Henv2 : env w2 = env w) by (unfold w2; rewrite getUserSettings_env; exact Henv1).
  rewrite (sendBroadcast_preflight dev recipients text options u w H0 Hu).
  fold s. fold w2. fold n. rewrite He. cbn [andb].
  split.
  - intro Hmax. replace (n >? max_broadcast_recipients s) with true
      by (symmetry; apply Z.gtb_lt; lia).
    exists w2. repeat split; assumption.
  - intros Hmax Hq Hrem.
    replace (n >? max_broadcast_recipients s) with false
      by (symmetry; rewrite Z.gtb_ltb; apply Z.ltb_ge; lia).
    destruct (select_total_ok u (today w2) w2) as (w3 & Hrun & _ & Htr3 & Hs3 & _).
    { rewrite Henv2. exact Hq. }
    rewrite Hrun. fold remaining.
    replace (n >? remaining) with true by (symmetry; apply Z.gtb_lt; lia).
    exists w3. repeat split; congruence.
Qed.

Lemma broadcast_preflight_rejects_witness :
  (exists w',
     sendBroadcast 10 ["6281"; "6282"; "6283"] "halo" no_options w_boundary =
       (Throw (Error "Not enough daily quota. Remaining: 1, Required: 3"), w')
     /\ trace w' = trace w_boundary /\ sends w' = sends w_boundary).
Proof.
  apply (proj2 (broadcast_preflight_rejects 10 ["6281"; "6282"; "6283"] "halo"
                  no_options 1 w_boundary eq_refl eq_refl eq_refl)).
  - vm_compute. discriminate.
  - reflexivity.
  - vm_compute. reflexivity.
Defined.

(** With rate limiting switched off and max_broadcast_recipients = 1, a
    broadcast to two recipients is not rejected: both messages are sent. *)
Lemma unlimited_broadcast_ignores_cap :
  max_broadcast_recipients (settings_in_effect 1 (after_lookup 10 w_unlimited)) = 1
  /\ enable_rate_limiting (settings_in_effect 1 (after_lookup 10 w_unlimited)) = false
  /\ (exists results,
        fst (sendBroadcast 10 ["6281"; "6282"] "halo" no_options w_unlimited) = Ok results
        /\ map success results = [true; true])
  /\ filter is_sent
       (trace (snd (sendBroadcast 10 ["6281"; "6282"] "halo" no_options w_unlimited))) =
     [EvSent 10 "6281@c.us" "halo"; EvSent 10 "6282@c.us" "halo"].
Proof.
  vm_compute. repeat split; try reflexivity. eexists. split; reflexivity.
Qed.

(** C5, as amended.  A broadcast that passes the pre-flight checks, with a
    store that works and a client registered for the device: every
    recipient gets one attempt and one entry of the result array, in input
    order; an accepted send that is not the last recipient's is followed by
    a sleep of [delayMs], a rejected send is recorded and the loop goes on
    to the next recipient at once.  When every send is accepted there is
    one sleep less than there are recipients. *)
Theorem broadcast_sequential_paced dev recipients text options u info w :
  reliable w ->
  clients_get (clients w) dev = Some info ->
  device_user dev w = Some u ->
  let s := settings_in_effect u (after_lookup dev w) in
  let w2 := snd (getUserSettings u (after_lookup dev w)) in
  let n := Z.of_nat (List.length recipients) in
  let remaining := daily_message_limit s - total_sent u (today w2) w2 in
  enable_rate_limiting s = false \/
  (n <= max_broadcast_recipients s /\ n <= remaining) ->
  exists results w',
    sendBroadcast dev recipients text options w = (Ok results, w')
    /\ results = expected_results (env w) (sends w) recipients
    /\ map recipient results = recipients
    /\ trace w' =
       trace w ++ expected_events dev (env w) text (delayMs s) (sends w) recipients
    /\ ((forall j, accepted (send_outcome (env w) j) = true) ->
        List.length (filter is_sleep
                       (expected_events dev (env w) text (delayMs s) (sends w) recipients)) =
        (List.length recipients - 1)%nat).
Proof.
  intros Hrel Hc Hu s w2 n remaining Hpass.
  destruct (after_lookup_ok dev w (Hrel _)) as (_ & Henv1 & Htr1 & Hs1 & Hc1).
  assert (Htr2 : trace w2 = trace w) by (unfold w2; rewrite getUserSettings_trace; exact Htr1).
  assert (Hs2 : sends w2 = sends w) by (unfold w2; rewrite getUserSettings_sends; exact Hs1).
  assert (Henv2 : env w2 = env w) by (unfold w2; rewrite getUserSettings_env; exact Henv1).
  assert (Hc2 : clients w2 = clients w) by (unfold w2; rewrite getUserSettings_clients; exact Hc1).
  rewrite (sendBroadcast_preflight dev recipients text options u w (Hrel _) Hu).
  fold s. fold w2. fold n.
  destruct (select_total_ok u (today w2) w2) as (w3 & Hrun & Henv3 & Htr3 & Hs3 & Hc3).
  { rewrite Henv2. apply Hrel. }
  rewrite Hrun. fold remaining.
  replace (enable_rate_limiting s && (n >? max_broadcast_recipients s)) with false.
  2:{ symmetry. destruct Hpass as [->|[Hmax _]]; [reflexivity|].
      apply andb_false_iff. right. rewrite Z.gtb_ltb. apply Z.ltb_ge. lia. }
  replace (enable_rate_limiting s && (n >? remaining)) with false.
  2:{ symmetry. destruct Hpass as [->|[_ Hrem]]; [reflexivity|].
      apply andb_false_iff. right. rewrite Z.gtb_ltb. apply Z.ltb_ge. lia. }
  destruct (broadcast_loop_run dev u (today w2) text options s n recipients w3 0 [] info)
    as (w' & Hloop & Htr' & _).
  { intro k. rewrite Henv3, Henv2. apply Hrel. }
  { rewrite Hc3, Hc2. exact Hc. }
  { unfold n. lia. }
  rewrite Hloop. cbn [app].
  assert (E3 : env w3 = env w) by congruence.
  assert (S3 : sends w3 = sends w) by congruence.
  rewrite E3, S3 in *.
  do 2 eexists. split; [reflexivity|]. split; [reflexivity|].
  split; [apply expected_results_recipients|].
  split; [rewrite Htr'; congruence|].
  apply expected_sleeps_all_accepted.
Qed.

Lemma broadcast_sequential_paced_witness :
  exists results w',
    sendBroadcast 10 ["6281"; "6282"; "6283"] "halo" no_options w_calm = (Ok results, w')
    /\ map recipient results = ["6281"; "6282"; "6283"]
    /\ trace w' =
       [EvSent 10 "6281@c.us" "halo"; EvSleep 2000;
        EvSent 10 "6282@c.us" "halo"; EvSleep 2000;
        EvSent 10 "6283@c.us" "halo"].
Proof.
  destruct (broadcast_sequential_paced 10 ["6281"; "6282"; "6283"] "halo" no_options
              1 true w_calm (fun _ => eq_refl) eq_refl eq_refl)
    as (results & w' & Hrun & _ & Hrec & Htr & _).
  - right. vm_compute. split; discriminate.
  - exists results, w'. repeat split; assumption.
Defined.

(** Three recipients, the send to the first is rejected: the loop goes on
    to the second without sleeping, so the whole broadcast has one sleep,
    not two; the failure is in the results and the other two are sent. *)
Lemma no_sleep_after_rejected_send :
  let run := sendBroadcast 10 ["6281"; "6282"; "6283"] "halo" no_options w_first_rejected in
  trace (snd run) =
    [EvSendFailed 10 "6281@c.us" "halo";
     EvSent 10 "6282@c.us" "halo"; EvSleep 2000;
     EvSent 10 "6283@c.us" "halo"]
  /\ List.length (filter is_sleep (trace (snd run))) = 1%nat
  /\ (exists results, fst run = Ok results /\ map success results = [false; true; true]).
Proof.
  vm_compute. repeat split; try reflexivity. eexists. split; reflexivity.
Qed.

(** ** Strings *)

Example toLowerCase_folds : JsString.toLowerCase "Hi THERE 42" = "hi there 42".
Proof. reflexivity. Qed.

Example includes_inside : JsString.includes "oh hi there" "hi" = true.
Proof. reflexivity. Qed.

Example includes_absent : JsString.includes "hello" "hi" = false.
Proof. reflexivity. Qed.

Example startsWith_prefix : JsString.startsWith "hi there" "hi" = true.
Proof. reflexivity. Qed.

Example endsWith_suffix : JsString.endsWith "hi there" "there" = true.
Proof. reflexivity. Qed.

Example endsWith_longer : JsString.endsWith "re" "there" = false.
Proof. reflexivity. Qed.

Example split_trim :
  map JsString.trim (JsString.split "," "promo, harga ,info") = ["promo"; "harga"; "info"].
Proof. reflexivity. Qed.

Example format_number_strips : format_number "+62 812-555" = "62812555@c.us".
Proof. reflexivity. Qed.

(** ** AutoReplyCascade *)

Arguments saveMessage : simpl never.
Arguments checkAutoReply : simpl never.
Arguments checkAIAutoReply : simpl never.
Arguments shouldReply : simpl never.

Lemma saveMessage_frame msg dev b w :
  let w1 := snd (saveMessage msg dev b w) in
  fst (saveMessage msg dev b w) = Ok tt
  /\ env w1 = env w /\ clients w1 = clients w /\ sends w1 = sends w
  /\ trace w1 = trace w /\ calls w1 = calls w /\ completions w1 = completions w
  /\ auto_replies (db w1) = auto_replies (db w)
  /\ daily_usage (db w1) = daily_usage (db w)
  /\ ai_conversations (db w1) = ai_conversations (db w)
  /\ conv_seq (db w1) = conv_seq (db w).
Proof.
  unfold saveMessage, try_catch, bind, ret, throw, console_error, modify, pool_query,
    insert_message.
  destruct (hasMedia msg); [destruct (downloadMedia msg)|]; cbn;
    try (repeat split; reflexivity);
    (destruct (fault_at (env w) (queries w)); cbn; [repeat split; reflexivity|];
     destruct (existsb _ _); cbn; repeat split; reflexivity).
Qed.

Lemma rules_loop_no_match msg dev rules w :
  Forall (fun r => shouldReply r (msg_body msg) = false) rules ->
  rules_loop msg dev rules w = (Ok false, w).
Proof.
  induction 1 as [|r rules Hr _ IH]; cbn [rules_loop]; [reflexivity|].
  rewrite Hr. exact IH.
Qed.

Lemma rules_loop_skip msg dev pre rest w :
  Forall (fun r => shouldReply r (msg_body msg) = false) pre ->
  rules_loop msg dev (pre ++ rest) w = rules_loop msg dev rest w.
Proof.
  induction 1 as [|r rules Hr _ IH]; cbn [rules_loop app]; [reflexivity|].
  rewrite Hr. exact IH.
Qed.

Lemma rules_loop_match msg dev rule post w :
  shouldReply rule (msg_body msg) = true ->
  rules_loop msg dev (rule :: post) w =
  match clients_get (clients w) dev with
  | None => (Ok true, w)
  | Some _ =>
      match send_outcome (env w) (sends w) with
      | SendOk _ _ =>
          (Ok true,
           with_trace (fun t => t ++ [EvSent dev (from msg) (reply_message rule)])
             (with_sends S w))
      | SendRejected m =>
          (Throw (Error m),
           with_trace (fun t => t ++ [EvSendFailed dev (from msg) (reply_message rule)])
             (with_sends S w))
      end
  end.
Proof.
  intro H. cbn [rules_loop]. rewrite H.
  unfold bind, gets, ret, client_sendMessage. cbn [fst snd].
  destruct (clients_get (clients w) dev); [|reflexivity].
  destruct (send_outcome (env w) (sends w)); reflexivity.
Qed.

(** [checkAutoReply] on an inbound message when the rules load. *)
Lemma checkAutoReply_loaded msg dev w :
  fromMe msg = false ->
  fault_at (env w) (queries w) = None ->
  checkAutoReply msg dev w =
  let w1 := with_db (fun _ => db w)
              (with_now (Z.add 1) (with_queries S
                 (with_calls (fun l => l ++ ["checkAutoReply"]) w))) in
  match rules_loop msg dev (fst (select_active_rules dev 0 (db w))) w1 with
  | (Ok b, w2) => (Ok b, w2)
  | (Throw _, w2) =>
      (Ok false, with_console (fun l => l ++ ["Error checking auto reply:"]) w2)
  end.
Proof.
  intros Hme Hq. unfold checkAutoReply, entered, modify, bind at 1. cbn [fst snd].
  rewrite Hme. unfold try_catch, bind.
  rewrite pool_query_ok by exact Hq. cbn [fst snd].
  destruct (rules_loop _ _ _ _) as [[b|e] w2]; reflexivity.
Qed.

Lemma checkAutoReply_fault msg dev m w :
  fromMe msg = false ->
  fault_at (env w) (queries w) = Some m ->
  checkAutoReply msg dev w =
  (Ok false,
   with_console (fun l => l ++ ["Error checking auto reply:"])
     (with_now (Z.add 1) (with_queries S
        (with_calls (fun l => l ++ ["checkAutoReply"]) w)))).
Proof.
  intros Hme Hq. unfold checkAutoReply, entered, modify, bind at 1. cbn [fst snd].
  rewrite Hme. unfold try_catch, bind.
  rewrite (pool_query_fault _ _ m) by exact Hq. reflexivity.
Qed.

Lemma checkAndUpdateUsage_keeps_calls u d t : keeps calls (checkAndUpdateUsage u d t).
Proof. unfold_calls. keeps_all. Qed.

Lemma checkAndUpdateUsage_keeps_trace u d t : keeps trace (checkAndUpdateUsage u d t).
Proof. unfold_calls. keeps_all. Qed.

Lemma checkAndUpdateUsage_keeps_sends u d t : keeps sends (checkAndUpdateUsage u d t).
Proof. unfold_calls. keeps_all. Qed.

Lemma checkAndUpdateUsage_keeps_env u d t : keeps env (checkAndUpdateUsage u d t).
Proof. unfold_calls. keeps_all. Qed.

Lemma checkAndUpdateUsage_keeps_clients u d t : keeps clients (checkAndUpdateUsage u d t).
Proof. unfold_calls. keeps_all. Qed.

Lemma checkAIAutoReply_calls msg dev u w :
  calls (snd (checkAIAutoReply msg dev u w)) = calls w ++ ["checkAIAutoReply"].
Proof.
  unfold checkAIAutoReply. unfold bind at 1. unfold entered at 1, modify. cbn [fst snd].
  match goal with |- calls (snd (?body ?w0)) = _ =>
    assert (H : keeps calls body); [| exact (H w0)] end.
  unfold_calls. keeps_all.
Qed.

(** The first match wins.  For an inbound message that is not
    self-authored, a body and triggers of ASCII text, and the rules of the
    device loaded in the order the table holds them: the rules before the
    first one whose predicate (on the lower-cased body and trigger, by match
    type) is true are passed over, and that first rule ends the scan.  If
    the device has a registered client and the transport accepts the send,
    its reply_message goes out verbatim, and it is the only send; if the
    device has no client nothing is sent.  In both cases the AI step is not
    entered and the provider is not called. *)
Theorem first_matching_rule_replies msg dev userId pre rule post w :
  fromMe msg = false ->
  let w1 := snd (saveMessage msg dev false w) in
  fault_at (env w) (queries w1) = None ->
  fst (select_active_rules dev 0 (db w)) = pre ++ rule :: post ->
  rules_ascii msg (pre ++ [rule]) = true ->
  Forall (fun r => shouldReply r (msg_body msg) = false) pre ->
  shouldReply rule (msg_body msg) = true ->
  clients_get (clients w) dev = None \/
  accepted (send_outcome (env w) (sends w)) = true ->
  exists w',
    handleIncomingMessage msg dev userId w = (Ok tt, w')
    /\ trace w' =
       trace w ++
       match clients_get (clients w) dev with
       | Some _ => [EvSent dev (from msg) (reply_message rule)]
       | None => []
       end ++ [EvEmit userId "message"]
    /\ calls w' = calls w ++ ["checkAutoReply"]
    /\ completions w' = completions w.
Proof.
  intros Hme w1 Hq Hrules _ Hpre Hrule Hsend.
  destruct (saveMessage_frame msg dev false w)
    as (Hsave & Henv & Hcl & Hs & Htr & Hca & Hco & Har & _).
  fold w1 in Henv, Hcl, Hs, Htr, Hca, Hco, Har.
  unfold handleIncomingMessage. unfold bind at 1.
  destruct (saveMessage msg dev false w) as [r0 w1'] eqn:Esave.
  cbn [fst snd] in Hsave, w1. subst r0. subst w1.
  unfold bind at 1.
  rewrite checkAutoReply_loaded by (rewrite ?Henv; assumption).
  cbv zeta.
  assert (Hr : fst (select_active_rules dev 0 (db w1')) = pre ++ rule :: post).
  { unfold select_active_rules in *. cbn [fst] in *. rewrite Har. exact Hrules. }
  rewrite Hr, rules_loop_skip by exact Hpre.
  rewrite rules_loop_match by exact Hrule.
  cbn [clients with_db with_now with_queries with_calls env sends].
  rewrite Hcl, Henv, Hs.
  destruct (clients_get (clients w) dev) as [info|].
  - destruct Hsend as [Hsend|Hsend]; [discriminate|].
    destruct (send_outcome (env w) (sends w)); [|discriminate].
    cbn. eexists. split; [reflexivity|]. cbn.
    rewrite Htr, Hca, Hco, <- app_assoc. repeat split; reflexivity.
  - cbn. eexists. split; [reflexivity|]. cbn.
    rewrite Htr, Hca, Hco. repeat split; reflexivity.
Qed.

(** Rules [contains "hi"] then [exact "hi there"], in creation order, and
    the body "hi there": the contains rule replies. *)
Lemma first_matching_rule_replies_witness :
  exists w',
    handleIncomingMessage (inbound "hi there") 10 1 w_rules = (Ok tt, w')
    /\ trace w' =
       [EvSent 10 "6281@c.us" (reply_message rule_contains_hi); EvEmit 1 "message"]
    /\ calls w' = ["checkAutoReply"]
    /\ completions w' = 0%nat.
Proof.
  apply (first_matching_rule_replies (inbound "hi there") 10 1
           [] rule_contains_hi [rule_exact_hi_there] w_rules).
  - reflexivity.
  - reflexivity.
  - reflexivity.
  - reflexivity.
  - constructor.
  - reflexivity.
  - right. reflexivity.
Defined.

(** When the transport rejects the reply of the first matching rule, the
    handler that is there for a failing rules query swallows the error:
    [checkAutoReply] logs, answers false as if no rule had matched, and the
    handler goes on to the AI step. *)
Lemma rejected_rule_reply_enters_ai msg dev userId pre rule post info reason w :
  fromMe msg = false ->
  let w1 := snd (saveMessage msg dev false w) in
  fault_at (env w) (queries w1) = None ->
  fst (select_active_rules dev 0 (db w)) = pre ++ rule :: post ->
  rules_ascii msg (pre ++ [rule]) = true ->
  Forall (fun r => shouldReply r (msg_body msg) = false) pre ->
  shouldReply rule (msg_body msg) = true ->
  clients_get (clients w) dev = Some info ->
  send_outcome (env w) (sends w) = SendRejected reason ->
  exists w2,
    checkAutoReply msg dev w1 = (Ok false, w2)
    /\ trace w2 = trace w ++ [EvSendFailed dev (from msg) (reply_message rule)]
    /\ console w2 = console w1 ++ ["Error checking auto reply:"]
    /\ handleIncomingMessage msg dev userId w =
       (checkAIAutoReply msg dev userId ;; io_emit userId "message") w2.
Proof.
  intros Hme w1 Hq Hrules _ Hpre Hrule Hc Hsend.
  destruct (saveMessage_frame msg dev false w)
    as (Hsave & Henv & Hcl & Hs & Htr & Hca & Hco & Har & _).
  fold w1 in Henv, Hcl, Hs, Htr, Hca, Hco, Har.
  assert (Hr : fst (select_active_rules dev 0 (db w1)) = pre ++ rule :: post).
  { unfold select_active_rules in *. cbn [fst] in *. rewrite Har. exact Hrules. }
  assert (Hrun : exists w2,
            checkAutoReply msg dev w1 = (Ok false, w2)
            /\ trace w2 = trace w ++ [EvSendFailed dev (from msg) (reply_message rule)]
            /\ console w2 = console w1 ++ ["Error checking auto reply:"]).
  { rewrite checkAutoReply_loaded by (rewrite ?Henv; assumption). cbv zeta.
    rewrite Hr, rules_loop_skip by exact Hpre.
    rewrite rules_loop_match by exact Hrule.
    cbn [clients with_db with_now with_queries with_calls env sends].
    rewrite Hcl, Henv, Hs, Hc, Hsend.
    eexists. split; [reflexivity|]. cbn. rewrite Htr. split; reflexivity. }
  destruct Hrun as (w2 & Hrun & Ht & Hcon).
  exists w2. split; [exact Hrun|]. split; [exact Ht|]. split; [exact Hcon|].
  unfold handleIncomingMessage. unfold bind at 1.
  unfold w1 in *. destruct (saveMessage msg dev false w) as [r0 w1'].
  cbn [fst snd] in *. subst r0. unfold bind at 1. rewrite Hrun. reflexivity.
Qed.

(** C3.  Rules [contains "hi"] then [exact "hi there"] and the inbound body
    "Hi There": the contains rule matches and the transport rejects its
    reply.  The error is swallowed, [checkAutoReply] answers false as if no
    rule had matched, and the handler goes on to the AI step: the provider
    is called and its completion is sent. *)
Lemma rejected_rule_reply_falls_through_to_ai :
  let w' := snd (handleIncomingMessage (inbound "Hi There") 10 1 w_rules_rejected) in
  shouldReply rule_contains_hi "Hi There" = true
  /\ calls w' = ["checkAutoReply"; "checkAIAutoReply"]
  /\ completions w' = 1%nat
  /\ trace w' =
     [EvSendFailed 10 "6281@c.us" "Hello! How can I help?";
      EvComplete gemini [] "Hi There"; EvSent 10 "6281@c.us" "Halo!";
      EvEmit 1 "message"]
  /\ In "Error checking auto reply:" (console w').
Proof. vm_compute. repeat split; try reflexivity. left. reflexivity. Qed.

(** No rule matches, on ASCII text: [checkAutoReply] answers false and has
    sent nothing. *)
Lemma no_rule_matches msg dev w :
  fromMe msg = false ->
  fault_at (env w) (queries w) = None ->
  rules_ascii msg (fst (select_active_rules dev 0 (db w))) = true ->
  Forall (fun r => shouldReply r (msg_body msg) = false)
         (fst (select_active_rules dev 0 (db w))) ->
  exists w2,
    checkAutoReply msg dev w = (Ok false, w2)
    /\ trace w2 = trace w /\ sends w2 = sends w /\ db w2 = db w.
Proof.
  intros Hme Hq _ Hno. rewrite checkAutoReply_loaded by assumption. cbv zeta.
  rewrite rules_loop_no_match by exact Hno.
  eexists. split; [reflexivity|]. repeat split; reflexivity.
Qed.

(** C10.  When the statement that loads the keyword rules fails,
    [checkAutoReply] swallows the error and answers false, having sent
    nothing and changed no table, which is what it does when no rule
    matches; the handler then runs the AI step and ends with its emit. *)
Theorem rule_load_failure_falls_through msg dev userId m w :
  fromMe msg = false ->
  let w1 := snd (saveMessage msg dev false w) in
  fault_at (env w) (queries w1) = Some m ->
  exists w2,
    checkAutoReply msg dev w1 = (Ok false, w2)
    /\ trace w2 = trace w1 /\ sends w2 = sends w1 /\ db w2 = db w1
    /\ In "Error checking auto reply:" (console w2)
    /\ handleIncomingMessage msg dev userId w =
       (checkAIAutoReply msg dev userId ;; io_emit userId "message") w2
    /\ In "checkAIAutoReply" (calls (snd (handleIncomingMessage msg dev userId w))).
Proof.
  intros Hme w1 Hq.
  destruct (saveMessage_frame msg dev false w) as (Hsave & Henv & _).
  fold w1 in Henv.
  assert (Hrun : checkAutoReply msg dev w1 =
                 (Ok false,
                  with_console (fun l => l ++ ["Error checking auto reply:"])
                    (with_now (Z.add 1) (with_queries S
                       (with_calls (fun l => l ++ ["checkAutoReply"]) w1))))).
  { apply (checkAutoReply_fault msg dev m); [exact Hme | rewrite Henv; exact Hq]. }
  eexists. split; [exact Hrun|].
  assert (Hh : handleIncomingMessage msg dev userId w =
               (checkAIAutoReply msg dev userId ;; io_emit userId "message")
                 (with_console (fun l => l ++ ["Error checking auto reply:"])
                    (with_now (Z.add 1) (with_queries S
                       (with_calls (fun l => l ++ ["checkAutoReply"]) w1))))).
  { unfold handleIncomingMessage. unfold bind at 1.
    unfold w1 in *. destruct (saveMessage msg dev false w) as [r0 w1'].
    cbn [fst snd] in *. subst r0. unfold bind at 1. rewrite Hrun. reflexivity. }
  repeat split; try reflexivity.
  - cbn. apply in_or_app. right. left. reflexivity.
  - exact Hh.
  - rewrite Hh. unfold bind.
    match goal with |- context [checkAIAutoReply msg dev userId ?x] =>
      pose proof (checkAIAutoReply_calls msg dev userId x) as Hc;
      destruct (checkAIAutoReply msg dev userId x) as [[[]|e] w3] end;
      cbn [snd] in Hc |- *; unfold io_emit, modify; cbn [snd calls with_trace];
      rewrite Hc; apply in_or_app; right; left; reflexivity.
Qed.

Lemma rule_load_failure_falls_through_witness :
  exists w2,
    checkAutoReply (inbound "hi there") 10
      (snd (saveMessage (inbound "hi there") 10 false w_rules_down)) = (Ok false, w2)
    /\ In "checkAIAutoReply"
         (calls (snd (handleIncomingMessage (inbound "hi there") 10 1 w_rules_down))).
Proof.
  destruct (rule_load_failure_falls_through (inbound "hi there") 10 1
              "connection terminated" w_rules_down eq_refl eq_refl)
    as (w2 & Hrun & _ & _ & _ & _ & _ & Hin).
  exists w2. split; assumption.
Defined.

(** ** What one run of the cascade may change *)

Lemma pool_query_cases {A} (q : Z -> Db -> A * Db) w :
  (exists m, pool_query q w = (Throw (Error m), with_now (Z.add 1) (with_queries S w)))
  \/ pool_query q w =
     (Ok (fst (q (now w) (db w))),
      with_db (fun _ => snd (q (now w) (db w))) (with_now (Z.add 1) (with_queries S w))).
Proof.
  destruct (fault_at (env w) (queries w)) as [m|] eqn:E.
  - left. exists m. apply pool_query_fault. exact E.
  - right. apply pool_query_ok. exact E.
Qed.

Lemma reserve_usage u d t date w :
  usage_shape (updateField t) u d date
    (daily_usage (db w)) (daily_usage (db (snd (reserve u d t date w)))).
Proof.
  unfold reserve. unfold bind at 1.
  destruct (pool_query_cases (ensure_usage_row u d date) w) as [(m & ->)| ->];
    [left; reflexivity|].
  set (w1 := with_db _ _).
  assert (H1 : daily_usage (db w1) = ensured u d date (daily_usage (db w)))
    by (unfold w1; cbn; apply daily_usage_ensure).
  unfold bind at 1.
  destruct (pool_query_cases (select_usage u date) w1) as [(m & ->)| ->];
    [right; left; exact H1|].
  set (w2 := with_db _ _).
  assert (H2 : daily_usage (db w2) = ensured u d date (daily_usage (db w)))
    by (unfold w2; cbn; exact H1).
  destruct (fst (select_usage u date (now w1) (db w1))) as [[tm tb] ta].
  unfold bind at 1. rewrite (getUserSettings_run u w2).
  set (w3 := snd (getUserSettings u w2)).
  assert (H3 : daily_usage (db w3) = ensured u d date (daily_usage (db w)))
    by (unfold w3; rewrite getUserSettings_usage; exact H2).
  set (s := settings_in_effect u w2).
  assert (Hrest :
    usage_shape (updateField t) u d date (daily_usage (db w))
      (daily_usage (db (snd
         ((pool_query (update_usage (updateField t) u d date) ;;
           totalSent <- read_const [("total_messages", tm); ("total_broadcasts", tb)]
                          "totalSent" ;;
           ret (mkUsageCheck true (daily_message_limit s - totalSent - 1) s)) w3))))).
  { unfold bind at 1.
    destruct (pool_query_cases (update_usage (updateField t) u d date) w3)
      as [(m & ->)| ->]; [right; left; exact H3|].
    right. right. cbn. rewrite H3. reflexivity. }
  destruct (enable_rate_limiting s).
  - cbn [read_const String.eqb Ascii.eqb Bool.eqb]. unfold bind at 1. unfold bind at 1.
    unfold ret at 1.
    destruct (tm + tb >=? daily_message_limit s).
    + right. left. exact H3.
    + exact Hrest.
  - unfold bind at 1. unfold ret at 1. exact Hrest.
Qed.

Lemma on_error_usage u e w :
  daily_usage (db (snd (on_error u e w))) = daily_usage (db w).
Proof.
  destruct (JsString.includes (message e) "Daily message limit") eqn:E.
  - unfold on_error. rewrite E. reflexivity.
  - rewrite (on_error_other u e w E). cbn [snd]. rewrite getUserSettings_usage. reflexivity.
Qed.

Lemma checkAndUpdateUsage_usage u d t w :
  usage_shape (updateField t) u d (today w)
    (daily_usage (db w)) (daily_usage (db (snd (checkAndUpdateUsage u d t w)))).
Proof.
  pose proof (reserve_usage u d t (today w) w) as H.
  unfold checkAndUpdateUsage, bind, gets, try_catch. cbn [fst snd].
  destruct (reserve u d t (today w) w) as [[c|e] w1]; cbn [snd] in *; [exact H|].
  rewrite on_error_usage. exact H.
Qed.

Section Within.

Context {X : Type} (f : World -> X) (R0 : X -> X -> Prop).
Hypothesis R0_refl : forall x, R0 x x.

Lemma within_keeps {A} (m : M A) : keeps f m -> within f R0 m.
Proof. intros H w. rewrite (H w). apply R0_refl. Qed.

Lemma within_bind_left {A B} (m : M A) (k : A -> M B) :
  keeps f m -> (forall a, within f R0 (k a)) -> within f R0 (bind m k).
Proof.
  intros Hm Hk w. unfold bind. specialize (Hm w).
  destruct (m w) as [[a|e] w1]; cbn [snd] in *.
  - rewrite <- Hm. apply Hk.
  - rewrite Hm. apply R0_refl.
Qed.

Lemma within_bind_right {A B} (m : M A) (k : A -> M B) :
  within f R0 m -> (forall a, keeps f (k a)) -> within f R0 (bind m k).
Proof.
  intros Hm Hk w. unfold bind. specialize (Hm w).
  destruct (m w) as [[a|e] w1]; cbn [snd] in *.
  - rewrite (Hk a w1). exact Hm.
  - exact Hm.
Qed.

Lemma within_try_left {A} (m : M A) (h : JsError -> M A) :
  keeps f m -> (forall e, within f R0 (h e)) -> within f R0 (try_catch m h).
Proof.
  intros Hm Hh w. unfold try_catch. specialize (Hm w).
  destruct (m w) as [[a|e] w1]; cbn [snd] in *.
  - rewrite Hm. apply R0_refl.
  - rewrite <- Hm. apply Hh.
Qed.

Lemma within_try_right {A} (m : M A) (h : JsError -> M A) :
  within f R0 m -> (forall e, keeps f (h e)) -> within f R0 (try_catch m h).
Proof.
  intros Hm Hh w. unfold try_catch. specialize (Hm w).
  destruct (m w) as [[a|e] w1]; cbn [snd] in *.
  - exact Hm.
  - rewrite (Hh e w1). exact Hm.
Qed.

End Within.

Lemma never_throws_try {A} (m : M A) (h : JsError -> M A) :
  (forall e, never_throws (h e)) -> never_throws (try_catch m h).
Proof.
  intros Hh w. unfold try_catch. destruct (m w) as [[a|e] w1].
  - exists a. reflexivity.
  - apply Hh.
Qed.

Lemma never_throws_console l : never_throws (console_error l).
Proof. intro w. exists tt. reflexivity. Qed.

Lemma one_shot_keeps {A} (m : M A) : keeps sent_count m -> one_shot m.
Proof.
  intros H w. specialize (H w). destruct (m w) as [[a|e] w1]; cbn [snd] in H; lia.
Qed.

Lemma one_shot_bind_left {A B} (m : M A) (k : A -> M B) :
  keeps sent_count m -> (forall a, one_shot (k a)) -> one_shot (bind m k).
Proof.
  intros Hm Hk w. unfold bind. specialize (Hm w).
  destruct (m w) as [[a|e] w1]; cbn [snd] in Hm.
  - specialize (Hk a w1). destruct (k a w1) as [[b|e] w2]; lia.
  - exact Hm.
Qed.

Lemma one_shot_bind_right {A B} (m : M A) (k : A -> M B) :
  one_shot m -> (forall a, keeps sent_count (k a)) -> (forall a, never_throws (k a)) ->
  one_shot (bind m k).
Proof.
  intros Hm Hk Hn w. unfold bind. specialize (Hm w).
  destruct (m w) as [[a|e] w1].
  - specialize (Hk a w1). destruct (Hn a w1) as [b Hb].
    destruct (k a w1) as [r w2]. cbn [fst snd] in *. subst r. lia.
  - exact Hm.
Qed.

Lemma sent_count_app w l :
  List.length (filter is_sent (trace w ++ l)) =
  (sent_count w + List.length (filter is_sent l))%nat.
Proof. unfold sent_count. rewrite filter_app, length_app. reflexivity. Qed.

Lemma one_shot_client_sendMessage dev chat text :
  one_shot (client_sendMessage dev chat text).
Proof.
  intro w. unfold client_sendMessage.
  destruct (send_outcome (env w) (sends w)); unfold sent_count; cbn;
    rewrite filter_app, length_app; cbn; lia.
Qed.

Lemma keeps_sent_of_trace {A} (m : M A) : keeps trace m -> keeps sent_count m.
Proof. intros H w. unfold sent_count. rewrite (H w). reflexivity. Qed.


(** What the usage ledger leaves alone. *)
Lemma checkAndUpdateUsage_keeps_sent u d t : keeps sent_count (checkAndUpdateUsage u d t).
Proof. unfold_calls. keeps_all. Qed.

Lemma checkAndUpdateUsage_keeps_conv u d t :
  keeps (fun w => conv_seq (db w)) (checkAndUpdateUsage u d t).
Proof. unfold_calls. keeps_all. Qed.

#[local] Hint Resolve checkAndUpdateUsage_keeps_sent checkAndUpdateUsage_keeps_conv : keeps.

Lemma checkAndUpdateUsage_within u d :
  within (fun w => daily_usage (db w)) (reserved_once u d)
    (checkAndUpdateUsage u d "auto_reply").
Proof. intro w. exists (today w). apply (checkAndUpdateUsage_usage u d "auto_reply" w). Qed.

Lemma save_conversation_within dev chat a b :
  within (fun w => conv_seq (db w)) at_most_two_more (save_conversation dev chat a b).
Proof.
  intro w. unfold at_most_two_more, save_conversation, bind.
  destruct (pool_query_cases (insert_turn dev chat user a) w) as [(m & ->)| ->];
    [cbn -[Z.add]; lia|].
  match goal with |- context [pool_query (insert_turn dev chat assistant b) ?x] =>
    destruct (pool_query_cases (insert_turn dev chat assistant b) x) as [(m & ->)| ->] end;
    [cbn -[Z.add]; lia|].
  match goal with |- context [pool_query (trim_conversation dev chat) ?x] =>
    destruct (pool_query_cases (trim_conversation dev chat) x) as [(m & ->)| ->] end;
    cbn -[Z.add]; lia.
Qed.

Lemma reserved_once_refl u d l : reserved_once u d l l.
Proof. exists 0. left. reflexivity. Qed.

Lemma at_most_two_more_refl c : at_most_two_more c c.
Proof. unfold at_most_two_more. lia. Qed.

Lemma at_most_one_more_refl c : at_most_one_more c c.
Proof. unfold at_most_one_more. lia. Qed.

Ltac within_step refl :=
  first
    [ apply save_conversation_within
    | apply checkAndUpdateUsage_within
    | apply within_bind_left; [exact refl | solve [keeps_all] | intro]
    | apply within_bind_right; [| intro; solve [keeps_all]]
    | apply within_try_left; [exact refl | solve [keeps_all] | intro]
    | apply within_try_right; [| intro; solve [keeps_all]]
    | apply within_keeps; [exact refl | solve [keeps_all]]
    | match goal with
      | |- within _ _ (match ?x with _ => _ end) => destruct x
      end ].

Lemma handleIncomingMessage_conv msg dev u :
  within (fun w => conv_seq (db w)) at_most_two_more (handleIncomingMessage msg dev u).
Proof.
  unfold handleIncomingMessage, checkAIAutoReply, checkAutoReply, saveMessage,
    reply_with, send_fallback, console_error, entered.
  repeat within_step at_most_two_more_refl.
Qed.

Lemma handleIncomingMessage_usage msg dev u :
  within (fun w => daily_usage (db w)) (reserved_once u dev)
    (handleIncomingMessage msg dev u).
Proof.
  unfold handleIncomingMessage, checkAIAutoReply, checkAutoReply, saveMessage,
    reply_with, send_fallback, save_conversation, console_error, entered.
  repeat within_step (reserved_once_refl u dev).
Qed.

Lemma checkAutoReply_keeps_usage msg dev :
  keeps (fun w => daily_usage (db w)) (checkAutoReply msg dev).
Proof. unfold checkAutoReply, console_error, entered. keeps_all. Qed.


Lemma one_shot_within {A} (m : M A) :
  one_shot m -> within sent_count at_most_one_more m.
Proof.
  intros H w. specialize (H w). unfold at_most_one_more.
  destruct (m w) as [[a|e] w1]; cbn [snd]; lia.
Qed.

Lemma within_try_one_shot {A} (m : M A) (h : JsError -> M A) :
  one_shot m -> (forall e, within sent_count at_most_one_more (h e)) ->
  within sent_count at_most_one_more (try_catch m h).
Proof.
  intros Hm Hh w. unfold try_catch, at_most_one_more. specialize (Hm w).
  destruct (m w) as [[a|e] w1]; cbn [snd].
  - exact Hm.
  - specialize (Hh e w1). unfold at_most_one_more in Hh. lia.
Qed.

Lemma keeps_sent_saveMessage msg dev b : keeps sent_count (saveMessage msg dev b).
Proof. unfold saveMessage, console_error. keeps_all. Qed.

Lemma rules_loop_sent msg dev rules w :
  match rules_loop msg dev rules w with
  | (Ok true, w') => (sent_count w' <= sent_count w + 1)%nat
  | (Ok false, w') => sent_count w' = sent_count w
  | (Throw _, w') => sent_count w' = sent_count w
  end.
Proof.
  induction rules as [|r rules IH]; cbn [rules_loop]; [reflexivity|].
  destruct (shouldReply r (msg_body msg)); [|exact IH].
  unfold bind, gets, ret. cbn [fst snd].
  destruct (clients_get (clients w) dev); [|lia].
  pose proof (one_shot_client_sendMessage dev (from msg) (reply_message r) w) as H.
  destruct (client_sendMessage dev (from msg) (reply_message r) w) as [[a|e] w1]; exact H.
Qed.

Lemma checkAutoReply_sent msg dev w :
  match checkAutoReply msg dev w with
  | (Ok true, w') => (sent_count w' <= sent_count w + 1)%nat
  | (Ok false, w') => sent_count w' = sent_count w
  | (Throw _, _) => False
  end.
Proof.
  unfold checkAutoReply, entered, modify. unfold bind at 1. cbn [fst snd].
  destruct (fromMe msg); [reflexivity|].
  unfold try_catch. unfold bind at 1.
  match goal with |- context [pool_query ?q ?x] =>
    destruct (pool_query_cases q x) as [(m & ->)| ->] end; [reflexivity|].
  match goal with |- context [rules_loop msg dev ?r ?x] =>
    pose proof (rules_loop_sent msg dev r x) as H;
    destruct (rules_loop msg dev r x) as [[[|]|e] w2] end; exact H.
Qed.

Lemma checkAIAutoReply_sent msg dev u :
  within sent_count at_most_one_more (checkAIAutoReply msg dev u).
Proof.
  unfold checkAIAutoReply, entered.
  apply within_bind_left; [exact at_most_one_more_refl | keeps_all | intro].
  destruct (fromMe msg); [apply within_keeps; [exact at_most_one_more_refl | keeps_all]|].
  destruct (_ || _); [apply within_keeps; [exact at_most_one_more_refl | keeps_all]|].
  apply within_try_one_shot.
  - apply one_shot_bind_left; [keeps_all|]. intros [|st rows]; [apply one_shot_keeps; keeps_all|].
    destruct (ai_gates st msg); [|apply one_shot_keeps; keeps_all].
    apply one_shot_bind_left; [keeps_all|]. intro history.
    apply one_shot_bind_left; [keeps_all|]. intro aiResponse.
    destruct (JsString.truthy aiResponse); [|apply one_shot_keeps; keeps_all].
    unfold reply_with, save_conversation.
    apply one_shot_bind_left; [keeps_all|]. intros _.
    apply one_shot_bind_left; [keeps_all|]. intros _.
    apply one_shot_bind_left; [keeps_all|]. intros [info|]; [|apply one_shot_keeps; keeps_all].
    apply one_shot_bind_right.
    + apply one_shot_client_sendMessage.
    + intro. unfold console_error. keeps_all.
    + intro. apply never_throws_try. intro. apply never_throws_console.
  - intro e. unfold send_fallback, console_error.
    apply within_bind_left; [exact at_most_one_more_refl | keeps_all | intro].
    apply within_try_right; [|intro; keeps_all].
    apply within_bind_left; [exact at_most_one_more_refl | keeps_all | intro fb].
    destruct (truthy_text fb); [|apply within_keeps; [exact at_most_one_more_refl | keeps_all]].
    apply within_bind_left; [exact at_most_one_more_refl | keeps_all | intros [info|]];
      [|apply within_keeps; [exact at_most_one_more_refl | keeps_all]].
    apply within_bind_right; [|intro; keeps_all].
    apply one_shot_within. apply one_shot_client_sendMessage.
Qed.

Lemma handleIncomingMessage_sent msg dev u :
  within sent_count at_most_one_more (handleIncomingMessage msg dev u).
Proof.
  intro w. unfold at_most_one_more, handleIncomingMessage. unfold bind at 1.
  pose proof (keeps_sent_saveMessage msg dev false w) as H0.
  destruct (saveMessage msg dev false w) as [[[]|e] w1]; cbn [snd] in H0 |- *; [|lia].
  unfold bind at 1.
  pose proof (checkAutoReply_sent msg dev w1) as H1.
  destruct (checkAutoReply msg dev w1) as [[[|]|e] w2]; [| |contradiction].
  - cbn [negb]. unfold bind, ret.
    pose proof (keeps_sent_io_emit u "message" w2) as H2. cbn [snd] in *. cbn beta in H2. lia.
  - cbn [negb]. unfold bind.
    pose proof (checkAIAutoReply_sent msg dev u w2) as H2. unfold at_most_one_more in H2.
    destruct (checkAIAutoReply msg dev u w2) as [[[]|e] w3]; cbn [snd] in *; [|lia].
    pose proof (keeps_sent_io_emit u "message" w3) as H3. cbn beta in H3. lia.
Qed.

Lemma sum_of_ensured f u d date l :
  f (mkUsage u d date 0 0 0) = 0 -> sum_of f (ensured u d date l) = sum_of f l.
Proof.
  intro Hz. unfold ensured. destruct (existsb _ l); [reflexivity|].
  rewrite sum_of_app. cbn. lia.
Qed.

Lemma usage_shape_other g u d date l l' :
  g <> f_auto_replies_sent ->
  usage_shape f_auto_replies_sent u d date l l' ->
  forall u' d' date',
    sum_of (field_of g) (filter (usage_key u' d' date') l') =
    sum_of (field_of g) (filter (usage_key u' d' date') l).
Proof.
  intros Hg [-> | [-> | ->]] u' d' date'.
  - reflexivity.
  - apply counter_ensured.
  - rewrite filter_bumped by (intro; apply usage_key_bump).
    rewrite sum_of_bumped_other by congruence. apply counter_ensured.
Qed.

Lemma usage_shape_auto u d date l l' :
  (List.length (filter (usage_key u d date) l) <= 1)%nat ->
  usage_shape f_auto_replies_sent u d date l l' ->
  sum_of auto_replies_sent l <= sum_of auto_replies_sent l' <= sum_of auto_replies_sent l + 1.
Proof.
  intros H1 [-> | [-> | ->]].
  - lia.
  - rewrite sum_of_ensured by reflexivity. lia.
  - change auto_replies_sent with (field_of f_auto_replies_sent).
    rewrite sum_of_bumped_same, filter_key_ensured by exact H1.
    rewrite sum_of_ensured by reflexivity. lia.
Qed.

(** The frame of the cascade.  One run on an inbound message has at most
    one message accepted by the transport, appends at most two conversation
    turns, leaves every messages_sent and broadcasts_sent counter as it was
    and raises the auto_replies_sent counters by at most one in all; a run
    in which a keyword rule replied leaves the whole usage table as it
    was. *)
Theorem cascade_effects msg dev userId w :
  usage_unique w ->
  let w' := snd (handleIncomingMessage msg dev userId w) in
  (sent_count w' <= sent_count w + 1)%nat
  /\ conv_seq (db w) <= conv_seq (db w') <= conv_seq (db w) + 2
  /\ (forall u d date,
        counter f_messages_sent u d date w' = counter f_messages_sent u d date w
        /\ counter f_broadcasts_sent u d date w' = counter f_broadcasts_sent u d date w)
  /\ sum_of auto_replies_sent (daily_usage (db w))
     <= sum_of auto_replies_sent (daily_usage (db w'))
     <= sum_of auto_replies_sent (daily_usage (db w)) + 1
  /\ (fst (checkAutoReply msg dev (snd (saveMessage msg dev false w))) = Ok true ->
      daily_usage (db w') = daily_usage (db w)).
Proof.
  intros Hu w'.
  split; [exact (handleIncomingMessage_sent msg dev userId w)|].
  split; [exact (handleIncomingMessage_conv msg dev userId w)|].
  destruct (handleIncomingMessage_usage msg dev userId w) as [date Hshape].
  fold w' in Hshape. cbn beta in Hshape.
  split; [|split].
  - intros u d date'. unfold counter. split.
    + apply (usage_shape_other f_messages_sent userId dev date); [discriminate|exact Hshape].
    + apply (usage_shape_other f_broadcasts_sent userId dev date); [discriminate|exact Hshape].
  - apply (usage_shape_auto userId dev date); [apply Hu | exact Hshape].
  - intro Hkw. unfold w', handleIncomingMessage. unfold bind at 1.
    destruct (saveMessage_frame msg dev false w) as (Hs & _ & _ & _ & _ & _ & _ & _ & Hus & _).
    destruct (saveMessage msg dev false w) as [r0 w1]. cbn [fst snd] in *. subst r0.
    unfold bind at 1.
    pose proof (checkAutoReply_keeps_usage msg dev w1) as Hk. cbn beta in Hk.
    destruct (checkAutoReply msg dev w1) as [r w2]. cbn [fst snd] in *. subst r.
    cbn. congruence.
Qed.

Lemma cascade_effects_witness :
  let w' := snd (handleIncomingMessage (inbound "hi there") 10 1 w_rules_down) in
  (sent_count w' <= sent_count w_rules_down + 1)%nat
  /\ conv_seq (db w_rules_down) <= conv_seq (db w') <= conv_seq (db w_rules_down) + 2
  /\ sum_of auto_replies_sent (daily_usage (db w_rules_down))
     <= sum_of auto_replies_sent (daily_usage (db w'))
     <= sum_of auto_replies_sent (daily_usage (db w_rules_down)) + 1.
Proof.
  assert (Hu : usage_unique w_rules_down).
  { intros u d date. unfold one_row. simpl. lia. }
  destruct (cascade_effects (inbound "hi there") 10 1 w_rules_down Hu)
    as (H1 & H2 & _ & H4 & _).
  repeat split; first [exact H1 | apply H2 | apply H4].
Defined.

(** C7.  The AI reply goes out while the user's total has reached the
    limit: the reservation that follows the send, which is there to count
    the reply, is denied, so no counter moves and the denial is logged as a
    usage update error. *)
Lemma ai_reply_unmetered_when_quota_exhausted :
  let w' := snd (handleIncomingMessage (inbound "halo") 10 1 w_exhausted) in
  calls w' = ["checkAutoReply"; "checkAIAutoReply"]
  /\ trace w' =
     [EvComplete gemini [] "halo"; EvSent 10 "6281@c.us" "Halo!"; EvEmit 1 "message"]
  /\ daily_usage (db w_exhausted) = [mkUsage 1 10 0 5 0 0]
  /\ daily_usage (db w') = [mkUsage 1 10 0 5 0 0]
  /\ console w' = ["Usage update error:"].
Proof. vm_compute. repeat split; reflexivity. Qed.

(** With quota to spare the same path counts its reply once, as an automatic
    reply. *)
Example ai_reply_metered_once :
  let w' := snd (handleIncomingMessage (inbound "halo") 10 1 w_rules_down) in
  trace w' =
    [EvComplete gemini [] "halo"; EvSent 10 "6281@c.us" "Halo!"; EvEmit 1 "message"]
  /\ daily_usage (db w_rules_down) = []
  /\ daily_usage (db w') = [mkUsage 1 10 0 0 0 1].
Proof. vm_compute. repeat split; reflexivity. Qed.

(** ** ConversationContext *)

Lemma insert_by_last {A} (le : A -> A -> bool) x l :
  Forall (fun y => le x y = false) l -> insert_by le x l = l ++ [x].
Proof.
  induction 1 as [|y l Hy _ IH]; cbn; [reflexivity|].
  rewrite Hy, IH. reflexivity.
Qed.

Lemma sort_newest_first_sorted l :
  StronglySorted older l ->
  sort_by (fun a b => t_created_at b <=? t_created_at a) l = rev l.
Proof.
  induction 1 as [|x l Hs IH Hx]; cbn; [reflexivity|].
  unfold sort_by in IH. rewrite IH. apply insert_by_last.
  apply Forall_rev. eapply Forall_impl; [|exact Hx].
  intros y Hy. unfold older in Hy. apply Z.leb_gt. exact Hy.
Qed.

Lemma StronglySorted_filter_older (p : Turn -> bool) l :
  StronglySorted older l -> StronglySorted older (filter p l).
Proof.
  induction 1 as [|x l Hs IH Hx]; cbn; [constructor|].
  destruct (p x); [|exact IH]. constructor; [exact IH|].
  apply Forall_forall. intros y Hy. apply filter_In in Hy.
  rewrite Forall_forall in Hx. apply Hx. tauto.
Qed.

Lemma StronglySorted_snoc l x :
  StronglySorted older l -> Forall (fun y => older y x) l ->
  StronglySorted older (l ++ [x]).
Proof.
  induction 1 as [|y l Hs IH Hy]; intro Hx; cbn.
  - constructor; constructor.
  - inversion Hx; subst. constructor; [apply IH; assumption|].
    apply Forall_app. split; [exact Hy|]. constructor; [assumption|constructor].
Qed.

Lemma firstn_In {A} (x : A) n : forall l, In x (firstn n l) -> In x l.
Proof.
  induction n as [|n IH]; intros [|y l] H; cbn in *; try contradiction.
  destruct H as [->|H]; [left; reflexivity | right; apply IH; exact H].
Qed.

Lemma drop_first_0 p l : drop_first p 0 l = l.
Proof.
  induction l as [|x l IH]; cbn; [reflexivity|].
  destruct (p x); [reflexivity|]. rewrite IH. reflexivity.
Qed.

Lemma filter_drop_first p l : forall k,
  filter p (drop_first p k l) = skipn k (filter p l).
Proof.
  induction l as [|x l IH]; intro k; cbn.
  - destruct k; reflexivity.
  - destruct (p x) eqn:Px.
    + destruct k; cbn; [rewrite Px; reflexivity|apply IH].
    + cbn. rewrite Px. apply IH.
Qed.

Lemma filter_drop_first_other p q l : forall k,
  (forall t, p t = true -> q t = false) ->
  filter q (drop_first p k l) = filter q l.
Proof.
  induction l as [|x l IH]; intros k Hpq; cbn; [reflexivity|].
  destruct (p x) eqn:Px.
  - rewrite (Hpq x Px). destruct k; [cbn; rewrite (Hpq x Px); reflexivity|].
    apply IH. exact Hpq.
  - cbn. rewrite IH by exact Hpq. reflexivity.
Qed.

Lemma existsb_id_In i ids : existsb (Z.eqb i) ids = true <-> In i ids.
Proof.
  rewrite existsb_exists. split.
  - intros (j & Hj & E). apply Z.eqb_eq in E. subst. exact Hj.
  - intro H. exists i. split; [exact H | apply Z.eqb_refl].
Qed.

Lemma delete_first_by_id p l : forall k ids,
  NoDup (map t_id l) ->
  (forall i, In i ids <-> In i (map t_id (firstn k (filter p l)))) ->
  filter (fun t => negb (existsb (Z.eqb (t_id t)) ids)) l = drop_first p k l.
Proof.
  induction l as [|x l IH]; intros k ids Hnd Hids; cbn; [reflexivity|].
  inversion Hnd as [|? ? Hx Hnd']; subst.
  cbn [filter] in Hids. destruct (p x) eqn:Px.
  - destruct k as [|k].
    + assert (E : existsb (Z.eqb (t_id x)) ids = false).
      { apply not_true_is_false. intro H. apply existsb_id_In in H.
        apply Hids in H. exact H. }
      rewrite E. cbn. f_equal.
      rewrite (IH 0%nat ids Hnd').
      * apply drop_first_0.
      * intro i. rewrite Hids. cbn. tauto.
    + assert (E : existsb (Z.eqb (t_id x)) ids = true).
      { apply existsb_id_In. apply Hids. left. reflexivity. }
      rewrite E. cbn.
      transitivity (filter (fun t => negb (existsb (Z.eqb (t_id t))
                                             (map t_id (firstn k (filter p l))))) l).
      * apply filter_ext_in. intros t Ht. f_equal.
        apply eq_true_iff_eq. rewrite !existsb_id_In, Hids. cbn.
        split; [|tauto]. intros [E'|H]; [|exact H].
        exfalso. apply Hx. rewrite E'. apply in_map. exact Ht.
      * apply IH; [exact Hnd'|]. intro i. reflexivity.
  - assert (E : existsb (Z.eqb (t_id x)) ids = false).
    { apply not_true_is_false. intro H. apply existsb_id_In in H.
      apply Hids in H. apply Hx.
      apply in_map_iff in H. destruct H as (y & Ey & Hy).
      apply firstn_In in Hy. apply filter_In in Hy.
      rewrite <- Ey. apply in_map. tauto. }
    rewrite E. cbn. f_equal. apply IH; assumption.
Qed.

Lemma NoDup_map_filter {A B} (f : A -> B) (p : A -> bool) l :
  NoDup (map f l) -> NoDup (map f (filter p l)).
Proof.
  induction l as [|x l IH]; cbn; intro H; [constructor|].
  inversion H as [|? ? Hx Hnd]; subst.
  destruct (p x); cbn; [|apply IH; exact Hnd].
  constructor; [|apply IH; exact Hnd].
  intro Hin. apply Hx. apply in_map_iff in Hin. destruct Hin as (y & E & Hy).
  apply filter_In in Hy. rewrite <- E. apply in_map. tauto.
Qed.

Lemma Forall_filter {A} (P : A -> Prop) (p : A -> bool) l :
  Forall P l -> Forall P (filter p l).
Proof.
  rewrite !Forall_forall. intros H x Hx. apply filter_In in Hx. apply H. tauto.
Qed.

Arguments save_conversation : simpl never.

Section Exchange.

Variables (dev : Z) (chat a b : string) (w : World).

Hypothesis H0 : fault_at (env w) (queries w) = None.
Hypothesis H1 : fault_at (env w) (S (queries w)) = None.
Hypothesis H2 : fault_at (env w) (S (S (queries w))) = None.
Hypothesis Hwf : conv_wf w.

Let tu := mkTurn (conv_seq (db w)) dev chat user a (now w).
Let ta := mkTurn (1 + conv_seq (db w)) dev chat assistant b (1 + now w).
Let T2 := (ai_conversations (db w) ++ [tu]) ++ [ta].
Let F2 := filter (same_chat dev chat) T2.
Let keep (t : Turn) :=
  negb (existsb (Z.eqb (t_id t))
          (map t_id (skipn 50 (chat_newest_first dev chat T2)))).

Lemma save_conversation_explicit :
  save_conversation dev chat a b w =
  (Ok tt,
   with_db (fun d => with_ai_conversations (fun _ => filter keep T2) d)
     (with_db (fun d => with_conv_seq (fun c => 1 + (1 + c))
                          (with_ai_conversations (fun _ => T2) d))
        (with_now (fun t => 1 + (1 + (1 + t)))
           (with_queries (fun q => S (S (S q))) w)))).
Proof.
  unfold save_conversation, bind.
  rewrite (pool_query_ok _ w H0). cbn [fst snd insert_turn].
  rewrite pool_query_ok by exact H1. cbn [fst snd insert_turn].
  rewrite pool_query_ok by exact H2. reflexivity.
Qed.

Lemma same_chat_refl_tu : same_chat dev chat tu = true /\ same_chat dev chat ta = true.
Proof.
  unfold same_chat, tu, ta. cbn. rewrite Z.eqb_refl, String.eqb_refl. split; reflexivity.
Qed.

Lemma F2_eq : F2 = filter (same_chat dev chat) (ai_conversations (db w)) ++ [tu; ta].
Proof.
  unfold F2, T2. rewrite !filter_app. cbn [filter].
  destruct same_chat_refl_tu as [-> ->]. rewrite <- app_assoc. reflexivity.
Qed.

Lemma T2_sorted : StronglySorted older T2.
Proof.
  destruct Hwf as (Hs & Hnow & _ & _).
  unfold T2. apply StronglySorted_snoc; [apply StronglySorted_snoc|].
  - exact Hs.
  - eapply Forall_impl; [|exact Hnow]. intros y Hy; cbn beta in Hy. unfold older, tu. cbn. exact Hy.
  - apply Forall_app. split.
    + eapply Forall_impl; [|exact Hnow]. intros y Hy; cbn beta in Hy. unfold older, ta. cbn -[Z.add]. lia.
    + constructor; [|constructor]. unfold older, tu, ta. cbn -[Z.add]. lia.
Qed.

Lemma T2_ids : NoDup (map t_id T2).
Proof.
  destruct Hwf as (_ & _ & Hnd & Hid).
  unfold T2. rewrite !map_app. cbn [map].
  rewrite <- app_assoc. cbn [app].
  apply NoDup_app.
  - exact Hnd.
  - constructor; [|constructor; [intros []|constructor]].
    intros [E|[]]. unfold tu, ta in E. cbn -[Z.add] in E. lia.
  - intros i Hi [E|[E|[]]]; apply in_map_iff in Hi; destruct Hi as (y & Ey & Hy);
      rewrite Forall_forall in Hid; specialize (Hid y Hy); cbn beta in Hid;
      unfold tu, ta in E; cbn -[Z.add] in E; lia.
Qed.

Lemma trimmed_table :
  filter keep T2 = drop_first (same_chat dev chat) (List.length F2 - 50) T2.
Proof.
  unfold keep. apply delete_first_by_id; [exact T2_ids|].
  intro i. unfold chat_newest_first.
  rewrite sort_newest_first_sorted by (apply StronglySorted_filter_older, T2_sorted).
  fold F2. rewrite skipn_rev, map_rev, <- in_rev. reflexivity.
Qed.

Lemma save_conversation_run :
  let w' := snd (save_conversation dev chat a b w) in
  fst (save_conversation dev chat a b w) = Ok tt
  /\ chat_turns dev chat w' = lastn 50 (chat_turns dev chat w ++ [tu; ta])
  /\ (forall d' c', same_chat d' c' tu = false ->
                    chat_turns d' c' w' = chat_turns d' c' w)
  /\ conv_wf w'.
Proof.
  rewrite save_conversation_explicit. cbn [fst snd].
  split; [reflexivity|]. unfold chat_turns. cbn [db ai_conversations with_db
    with_ai_conversations with_conv_seq with_now with_queries].
  split; [|split].
  - rewrite trimmed_table, filter_drop_first. fold F2. rewrite F2_eq. reflexivity.
  - intros d' c' Hne. rewrite trimmed_table.
    rewrite filter_drop_first_other.
    + unfold T2. rewrite !filter_app. cbn [filter].
      change (same_chat d' c' ta) with (same_chat d' c' tu).
      rewrite Hne, !app_nil_r. reflexivity.
    + intros t Ht. unfold same_chat in Ht, Hne |- *. unfold tu in Hne. cbn in Hne.
      apply andb_true_iff in Ht. destruct Ht as [Hd Hc].
      apply Z.eqb_eq in Hd. apply String.eqb_eq in Hc. rewrite Hd, Hc.
      exact Hne.
  - destruct Hwf as (Hs & Hnow & Hnd & Hid).
    unfold conv_wf. cbn [db ai_conversations conv_seq now with_db
      with_ai_conversations with_conv_seq with_now with_queries].
    split; [|split; [|split]].
    + apply StronglySorted_filter_older, T2_sorted.
    + apply Forall_filter. unfold T2. rewrite !Forall_app. repeat split.
      * eapply Forall_impl; [|exact Hnow]. intros y Hy; cbn beta in Hy. cbn -[Z.add]. lia.
      * constructor; [|constructor]. unfold tu. cbn -[Z.add]. lia.
      * constructor; [|constructor]. unfold ta. cbn -[Z.add]. lia.
    + apply NoDup_map_filter, T2_ids.
    + apply Forall_filter. unfold T2. rewrite !Forall_app. repeat split.
      * eapply Forall_impl; [|exact Hid]. intros y Hy; cbn beta in Hy. cbn -[Z.add]. lia.
      * constructor; [|constructor]. unfold tu. cbn -[Z.add]. lia.
      * constructor; [|constructor]. unfold ta. cbn -[Z.add]. lia.
Qed.

End Exchange.

Lemma StronglySorted_app_older l1 l2 :
  StronglySorted older (l1 ++ l2) ->
  forall x y, In x l1 -> In y l2 -> older x y.
Proof.
  induction l1 as [|z l1 IH]; cbn; intros Hs x y Hx Hy; [contradiction|].
  inversion Hs as [|? ? Hs' Hz]; subst.
  destruct Hx as [->|Hx].
  - rewrite Forall_forall in Hz. apply Hz. apply in_or_app. right. exact Hy.
  - apply IH; assumption.
Qed.

Lemma lastn_length {A} n (l : list A) : (List.length (lastn n l) <= n)%nat.
Proof. unfold lastn. rewrite length_skipn. lia. Qed.

(** ** ScheduledMessageRunner *)

Arguments process_row : simpl never.
Arguments processScheduledMessages : simpl never.

Lemma sendMessage_keeps_scheduled dev to text o :
  keeps (fun w => scheduled_messages (db w)) (sendMessage dev to text o).
Proof. unfold_calls. keeps_all. Qed.

Lemma sendMessage_keeps_env dev to text o : keeps env (sendMessage dev to text o).
Proof. unfold_calls. keeps_all. Qed.

(** A statement that rewrites the rows of one id leaves the others. *)
Lemma In_map_other (f : Scheduled -> Scheduled) id l row :
  In row l -> s_id row <> id ->
  In row (map (fun m => if s_id m =? id then f m else m) l).
Proof.
  intros Hin Hne. apply in_map_iff. exists row. split; [|exact Hin].
  destruct (s_id row =? id) eqn:E; [apply Z.eqb_eq in E; contradiction|reflexivity].
Qed.

Lemma untouched_refl row w : untouched row w w.
Proof. intro H; exact H. Qed.

Lemma untouched_trans row a b c :
  untouched row a b -> untouched row b c -> untouched row a c.
Proof. unfold untouched; auto. Qed.

Lemma untouched_keeps {A} row (m : M A) :
  keeps (fun w => scheduled_messages (db w)) m -> preserves (untouched row) m.
Proof. intros H w Hin. rewrite (H w). exact Hin. Qed.

Lemma untouched_mark {A} row (q : Z -> Db -> A * Db) :
  (forall t d, In row (scheduled_messages d) ->
               In row (scheduled_messages (snd (q t d)))) ->
  preserves (untouched row) (pool_query q).
Proof.
  intro H. apply preserves_pool_query.
  - apply untouched_trans.
  - intros w Hin. exact Hin.
  - intros w t Hin. cbn. apply H. exact Hin.
Qed.

Lemma process_row_other m row :
  s_id row <> s_id m -> preserves (untouched row) (process_row m).
Proof.
  intro Hne. unfold process_row.
  apply preserves_try_catch; [apply untouched_trans| |intro e].
  - apply preserves_bind; [apply untouched_trans|apply preserves_gets, untouched_refl|].
    intro connected. destruct (negb connected).
    + apply untouched_mark. intros t d Hin. cbn. apply In_map_other; assumption.
    + apply preserves_bind; [apply untouched_trans| |intro].
      * apply untouched_keeps, sendMessage_keeps_scheduled.
      * apply untouched_mark. intros t d Hin. cbn. apply In_map_other; assumption.
  - apply preserves_bind; [apply untouched_trans| |intro].
    + apply untouched_mark. intros t d Hin. cbn. apply In_map_other; assumption.
    + apply untouched_keeps. unfold console_error. keeps_all.
Qed.

Lemma process_rows_other rows row :
  (forall m, In m rows -> s_id row <> s_id m) ->
  preserves (untouched row) (process_rows rows).
Proof.
  induction rows as [|m rows IH]; intro H; cbn [process_rows].
  - apply preserves_ret, untouched_refl.
  - apply preserves_bind; [apply untouched_trans| |intro].
    + apply process_row_other. apply H. left. reflexivity.
    + apply IH. intros m' Hm'. apply H. right. exact Hm'.
Qed.

Lemma insert_by_In {A} (le : A -> A -> bool) x y l :
  In y (insert_by le x l) -> y = x \/ In y l.
Proof.
  induction l as [|z l IH]; cbn.
  - intros [->|[]]. left. reflexivity.
  - destruct (le x z); cbn.
    + intros [->|H]; [left; reflexivity | right; exact H].
    + intros [->|H]; [right; left; reflexivity|].
      destruct (IH H) as [->|H']; [left; reflexivity | right; right; exact H'].
Qed.

Lemma sort_by_In {A} (le : A -> A -> bool) y l : In y (sort_by le l) -> In y l.
Proof.
  induction l as [|x l IH]; cbn; [tauto|].
  intro H. apply insert_by_In in H. destruct H as [->|H]; [left; reflexivity|].
  right. apply IH. exact H.
Qed.

(** The poll takes up pending rows of the table only. *)
Lemma select_due_pending t d m :
  In m (fst (select_due t d)) ->
  In m (scheduled_messages d) /\ status m = pending /\ scheduled_at m <= t.
Proof.
  unfold select_due. cbn [fst]. intro H.
  apply firstn_In, sort_by_In, filter_In in H. destruct H as [Hin Hp].
  apply andb_true_iff in Hp. destruct Hp as [Hp _].
  apply andb_true_iff in Hp. destruct Hp as [Hp Hdue].
  split; [exact Hin|]. split; [|apply Z.leb_le; exact Hdue].
  destruct (status m); try discriminate. reflexivity.
Qed.

Lemma NoDup_map_inj {A B} (f : A -> B) l a b :
  NoDup (map f l) -> In a l -> In b l -> f a = f b -> a = b.
Proof.
  induction l as [|x l IH]; cbn; intros Hnd Ha Hb E; [contradiction|].
  inversion Hnd as [|? ? Hx Hnd']; subst.
  destruct Ha as [->|Ha], Hb as [->|Hb].
  - reflexivity.
  - exfalso. apply Hx. rewrite E. apply in_map. exact Hb.
  - exfalso. apply Hx. rewrite <- E. apply in_map. exact Ha.
  - apply IH; assumption.
Qed.

(** Operations that run one after the other leave a row that is in a
    terminal state as it is. *)
Lemma terminal_rows_stay o w row :
  scheduled_wf w ->
  In row (scheduled_messages (db w)) ->
  is_pending (status row) = false ->
  In row (scheduled_messages (db (run_op o w))).
Proof.
  intros Hwf Hin Hterm. destruct o as [d to text at_|id d|]; cbn [run_op].
  - unfold scheduleMessage.
    apply (untouched_mark row (insert_scheduled d to text at_)); [|exact Hin].
    intros t db0 H. cbn. apply in_or_app. left. exact H.
  - unfold cancelScheduledMessage.
    apply (untouched_mark row (cancel_pending id d)); [|exact Hin].
    intros t db0 H. cbn. apply in_map_iff. exists row. split; [|exact H].
    rewrite Hterm, andb_false_r. reflexivity.
  - unfold processScheduledMessages, try_catch, bind.
    destruct (pool_query_cases select_due w) as [(m & ->)| ->]; [exact Hin|].
    cbn [fst].
    match goal with |- context [process_rows ?rows ?x] =>
      pose proof (process_rows_other rows row) as H;
      assert (Hx : In row (scheduled_messages (db x))) by exact Hin;
      destruct (process_rows rows x) as [[[]|e] w2] eqn:E end.
    + cbn [snd]. 
      assert (H' := fun G => H G (with_db (fun _ => snd (select_due (now w) (db w)))
                                    (with_now (Z.add 1) (with_queries S w)))).
      rewrite E in H'. apply H'; [|exact Hx].
      intros m Hm Eid. apply select_due_pending in Hm. destruct Hm as (Hm & Hp & _).
      assert (row = m) by (apply (NoDup_map_inj s_id _ _ _ Hwf Hin Hm Eid)).
      subst m. rewrite Hp in Hterm. discriminate.
    + cbn [snd console_error modify with_console db].
      assert (H' := fun G => H G (with_db (fun _ => snd (select_due (now w) (db w)))
                                    (with_now (Z.add 1) (with_queries S w)))).
      rewrite E in H'. apply H'; [|exact Hx].
      intros m Hm Eid. apply select_due_pending in Hm. destruct Hm as (Hm & Hp & _).
      assert (row = m) by (apply (NoDup_map_inj s_id _ _ _ Hwf Hin Hm Eid)).
      subst m. rewrite Hp in Hterm. discriminate.
Qed.

(** A new scheduled message starts pending. *)
Lemma scheduleMessage_pending d to text at_ w :
  fault_at (env w) (queries w) = None ->
  exists m w',
    scheduleMessage d to text at_ w = (Ok m, w')
    /\ status m = pending
    /\ scheduled_messages (db w') = scheduled_messages (db w) ++ [m].
Proof.
  intro H. unfold scheduleMessage. rewrite (pool_query_ok _ w H).
  do 2 eexists. repeat split; reflexivity.
Qed.

Lemma filter_none {A} (p : A -> bool) l :
  (forall x, In x l -> p x = false) -> filter p l = [].
Proof.
  induction l as [|x l IH]; intro H; cbn; [reflexivity|].
  rewrite (H x) by (left; reflexivity). apply IH. intros y Hy. apply H. right. exact Hy.
Qed.

Lemma map_unhit {A} (p : A -> bool) (f : A -> A) l :
  (forall x, In x l -> p x = false) -> map (fun x => if p x then f x else x) l = l.
Proof.
  induction l as [|x l IH]; intro H; cbn; [reflexivity|].
  rewrite (H x) by (left; reflexivity). f_equal.
  apply IH. intros y Hy. apply H. right. exact Hy.
Qed.

(** Cancelling what is not pending changes nothing and returns no row. *)
Lemma cancel_not_pending id d w :
  fault_at (env w) (queries w) = None ->
  (forall m, In m (scheduled_messages (db w)) ->
             s_id m = id -> s_device m = d -> is_pending (status m) = false) ->
  exists w',
    cancelScheduledMessage id d w = (Ok None, w')
    /\ scheduled_messages (db w') = scheduled_messages (db w).
Proof.
  intros H Hno. unfold cancelScheduledMessage. rewrite (pool_query_ok _ w H).
  assert (Hhit : forall m, In m (scheduled_messages (db w)) ->
                 (s_id m =? id) && (s_device m =? d) && is_pending (status m) = false).
  { intros m Hm. destruct (s_id m =? id) eqn:E1; [|reflexivity].
    destruct (s_device m =? d) eqn:E2; [|reflexivity].
    apply Z.eqb_eq in E1, E2. rewrite (Hno m Hm E1 E2). reflexivity. }
  eexists. split.
  - unfold cancel_pending. cbn [fst]. rewrite (filter_none _ _ Hhit). reflexivity.
  - cbn. apply map_unhit. exact Hhit.
Qed.

Lemma cancel_hits_row (cancel : Scheduled -> Scheduled) l m :
  (forall x, s_id (cancel x) = s_id x) ->
  NoDup (map s_id l) -> In m l -> status m = pending ->
  let hit x := (s_id x =? s_id m) && (s_device x =? s_device m)
               && is_pending (status x) in
  hd_error (map cancel (filter hit l)) = Some (cancel m)
  /\ find (fun x => s_id x =? s_id m) (map (fun x => if hit x then cancel x else x) l) =
     Some (cancel m).
Proof.
  intros Hc Hnd Hin Hp hit. induction l as [|x l IH]; [contradiction|].
  cbn [map] in Hnd. inversion Hnd as [|? ? Hx Hnd']; subst.
  destruct Hin as [->|Hin].
  - assert (E : hit m = true) by (unfold hit; rewrite !Z.eqb_refl, Hp; reflexivity).
    cbn [filter map find hd_error]. rewrite E. cbn [map hd_error].
    rewrite Hc, Z.eqb_refl. split; reflexivity.
  - assert (Hne : (s_id x =? s_id m) = false).
    { apply Z.eqb_neq. intro E. apply Hx. rewrite E. apply in_map. exact Hin. }
    assert (E : hit x = false) by (unfold hit; rewrite Hne; reflexivity).
    cbn [filter map find]. rewrite E, Hne. apply IH; assumption.
Qed.

(** Cancelling a pending message sets it to cancelled. *)
Lemma cancel_pending_row m w :
  fault_at (env w) (queries w) = None ->
  scheduled_wf w ->
  In m (scheduled_messages (db w)) ->
  status m = pending ->
  exists w',
    cancelScheduledMessage (s_id m) (s_device m) w =
      (Ok (Some (mkScheduled (s_id m) (s_device m) (to_number m) (body m)
                   (scheduled_at m) cancelled (sent_at m) (error_message m))), w')
    /\ status_of (s_id m) w' = Some cancelled.
Proof.
  intros H Hwf Hin Hp. unfold cancelScheduledMessage. rewrite (pool_query_ok _ w H).
  destruct (cancel_hits_row
              (fun x => mkScheduled (s_id x) (s_device x) (to_number x) (body x)
                          (scheduled_at x) cancelled (sent_at x) (error_message x))
              _ m (fun _ => eq_refl) Hwf Hin Hp) as [E1 E2].
  eexists. split.
  - unfold cancel_pending. cbn [fst]. cbv zeta. rewrite E1. reflexivity.
  - unfold status_of, find_scheduled.
    cbn [db with_db scheduled_messages snd cancel_pending with_scheduled_messages
         with_now with_queries]. cbv zeta. rewrite E2. reflexivity.
Qed.

Lemma find_marked (f : Scheduled -> Scheduled) id l m :
  In m l -> s_id m = id -> (forall x, s_id (f x) = s_id x) ->
  exists m0,
    In m0 l /\ s_id m0 = id /\
    find (fun x => s_id x =? id) (map (fun x => if s_id x =? id then f x else x) l) =
    Some (f m0).
Proof.
  intros Hin Hid Hf. induction l as [|x l IH]; [contradiction|]. cbn.
  destruct (s_id x =? id) eqn:E.
  - rewrite Hf, E. exists x. apply Z.eqb_eq in E.
    split; [left; reflexivity|]. split; [exact E | reflexivity].
  - rewrite E. destruct Hin as [->|Hin]; [apply Z.eqb_neq in E; contradiction|].
    destruct (IH Hin) as (m0 & H1 & H2 & H3). exists m0.
    split; [right; exact H1|]. split; [exact H2 | exact H3].
Qed.

(** What one call of [sendMessage] does to the transport: when it returns
    the message went out, when it throws either the transport was not called
    or it rejected the message. *)
Lemma sendMessage_outcome dev to text o w :
  let chatId := format_number to in
  let text' := render (env w) chatId text in
  match sendMessage dev to text o w with
  | (Ok _, w1) =>
      trace w1 = trace w ++ [EvSent dev chatId text'] /\ sends w1 = S (sends w)
  | (Throw _, w1) =>
      (trace w1 = trace w /\ sends w1 = sends w)
      \/ (trace w1 = trace w ++ [EvSendFailed dev chatId text']
          /\ sends w1 = S (sends w))
  end.
Proof.
  intros chatId text'. unfold sendMessage. unfold bind at 1. unfold gets. cbn [fst snd].
  destruct (clients_get (clients w) dev) as [info|]; [|left; split; reflexivity].
  unfold bind at 1.
  destruct (pool_query_cases (select_device_user dev) w) as [(m & ->)| ->];
    [left; split; reflexivity|].
  set (w1 := with_db _ _).
  assert (Ht1 : trace w1 = trace w) by reflexivity.
  assert (Hs1 : sends w1 = sends w) by reflexivity.
  assert (He1 : env w1 = env w) by reflexivity.
  clearbody w1.
  assert (Hsend : forall w2, trace w2 = trace w -> sends w2 = sends w -> env w2 = env w ->
    match (try (processed <- gets (fun w0 => render (env w0) (format_number to) text) ;;
                m <- client_sendMessage dev (format_number to) processed ;;
                ret (mkSendResult (fst m) (snd m)))
           catch error => (console_error "Error sending message:" ;; throw error)) w2 with
    | (Ok _, w3) =>
        trace w3 = trace w ++ [EvSent dev chatId text'] /\ sends w3 = S (sends w)
    | (Throw _, w3) =>
        (trace w3 = trace w /\ sends w3 = sends w)
        \/ (trace w3 = trace w ++ [EvSendFailed dev chatId text']
            /\ sends w3 = S (sends w))
    end).
  { intros w2 Ht Hs He. unfold try_catch, bind, gets, client_sendMessage, ret,
      console_error, modify, throw. cbn [fst snd]. rewrite He, Hs.
    destruct (send_outcome (env w) (sends w)); cbn [fst snd trace sends with_trace
      with_sends with_console]; rewrite Ht, Hs.
    - split; reflexivity.
    - right. split; reflexivity. }
  destruct (truthy_id _) as [u|]; [destruct (skipRateLimit o)|].
  - unfold bind at 1, ret at 1. apply Hsend; assumption.
  - unfold bind at 1. unfold bind at 1.
    pose proof (checkAndUpdateUsage_keeps_trace u dev
                  (match messageType o with
                   | Some t => if JsString.truthy t then t else "message"
                   | None => "message" end) w1) as Kt.
    pose proof (checkAndUpdateUsage_keeps_sends u dev
                  (match messageType o with
                   | Some t => if JsString.truthy t then t else "message"
                   | None => "message" end) w1) as Ks.
    pose proof (checkAndUpdateUsage_keeps_env u dev
                  (match messageType o with
                   | Some t => if JsString.truthy t then t else "message"
                   | None => "message" end) w1) as Ke.
    cbn beta in Kt, Ks, Ke.
    destruct (checkAndUpdateUsage u dev _ w1) as [[c|e] w2]; cbn [snd] in Kt, Ks, Ke.
    + destruct (allowed c).
      * unfold ret at 1. apply Hsend; congruence.
      * unfold throw at 1. left. split; congruence.
    + left. split; congruence.
  - unfold bind at 1, ret at 1. apply Hsend; assumption.
Qed.

Lemma find_marked_row (f : Scheduled -> Scheduled) l m :
  NoDup (map s_id l) -> In m l -> (forall x, s_id (f x) = s_id x) ->
  find (fun x => s_id x =? s_id m)
       (map (fun x => if s_id x =? s_id m then f x else x) l) = Some (f m).
Proof.
  intros Hnd Hin Hf.
  destruct (find_marked f (s_id m) l m Hin eq_refl Hf) as (m0 & Hin0 & Hid & ->).
  rewrite (NoDup_map_inj s_id l m0 m Hnd Hin0 Hin Hid). reflexivity.
Qed.

(** Promotion of a row when the store works: the row ends as sent exactly
    when [sendMessage] returned, and as failed with the message of the error
    when it threw or when the device is not connected. *)
Lemma process_row_run m w :
  reliable w ->
  scheduled_wf w ->
  In m (scheduled_messages (db w)) ->
  let dispatch := sendMessage (s_device m) (to_number m) (body m) no_options w in
  let w' := snd (process_row m w) in
  fst (process_row m w) = Ok tt
  /\ env w' = env w
  /\ if isConnected (s_device m) w then
       match fst dispatch with
       | Ok _ =>
           find_scheduled (s_id m) w' = Some (as_sent (now (snd dispatch)) m)
           /\ trace w' = trace w ++ [sent_event (env w) m]
           /\ sends w' = S (sends w)
       | Throw e =>
           find_scheduled (s_id m) w' = Some (as_failed (message e) m)
           /\ sent_count w' = sent_count w
       end
     else
       find_scheduled (s_id m) w' = Some (as_failed "Device not connected" m)
       /\ trace w' = trace w /\ sends w' = sends w.
Proof.
  intros Hrel Hwf Hin dispatch w'. subst dispatch w'.
  unfold process_row, try_catch, bind, gets. cbn [fst snd].
  destruct (isConnected (s_device m) w) eqn:Hc; cbn [negb].
  - pose proof (sendMessage_keeps_scheduled (s_device m) (to_number m) (body m)
                  no_options w) as Hk.
    pose proof (sendMessage_keeps_env (s_device m) (to_number m) (body m)
                  no_options w) as He.
    pose proof (sendMessage_outcome (s_device m) (to_number m) (body m)
                  no_options w) as Ho.
    cbv zeta in Ho.
    destruct (sendMessage (s_device m) (to_number m) (body m) no_options w)
      as [[r|e] w1]; cbn [fst snd] in Hk, He, Ho |- *; cbn beta in Hk, He.
    + rewrite pool_query_ok by (rewrite He; apply Hrel). cbn [fst snd].
      split; [reflexivity|]. split; [exact He|].
      unfold find_scheduled. cbn [db with_db scheduled_messages snd mark_sent
        with_scheduled_messages with_now with_queries trace sends]. rewrite Hk.
      destruct Ho as [Ht Hs]. split; [|split; assumption].
      apply (find_marked_row
               (fun x => mkScheduled (s_id x) (s_device x) (to_number x) (body x)
                           (scheduled_at x) sent (Some (now w1)) (error_message x)));
        [exact Hwf | exact Hin | reflexivity].
    + rewrite pool_query_ok by (rewrite He; apply Hrel).
      unfold console_error, modify. cbn [fst snd].
      split; [reflexivity|]. split; [exact He|].
      unfold find_scheduled, sent_count. cbn [db with_db scheduled_messages snd mark_failed
        with_scheduled_messages with_now with_queries with_console trace]. rewrite Hk.
      split.
      * apply (find_marked_row
                 (fun x => mkScheduled (s_id x) (s_device x) (to_number x) (body x)
                             (scheduled_at x) failed (sent_at x) (Some (message e))));
          [exact Hwf | exact Hin | reflexivity].
      * destruct Ho as [[-> _]|[-> _]]; [reflexivity|].
        rewrite filter_app, length_app. cbn. lia.
  - rewrite pool_query_ok by apply Hrel. cbn [fst snd].
    split; [reflexivity|]. split; [reflexivity|].
    unfold find_scheduled. cbn [db with_db scheduled_messages snd mark_failed
      with_scheduled_messages with_now with_queries trace sends].
    split; [|split; reflexivity].
    apply (find_marked_row
             (fun x => mkScheduled (s_id x) (s_device x) (to_number x) (body x)
                         (scheduled_at x) failed (sent_at x)
                         (Some "Device not connected")));
      [exact Hwf | exact Hin | reflexivity].
Qed.

Lemma batch_events_nil e rows : batch_events e rows [].
Proof. induction rows as [|m rows IH]; cbn; [reflexivity | left; exact IH]. Qed.

(** What one row of the batch does to the transport, whatever the store
    answers. *)
Lemma process_row_trace m w :
  let w' := snd (process_row m w) in
  env w' = env w
  /\ exists l,
       trace w' = trace w ++ l
       /\ sends w' = (sends w + List.length l)%nat
       /\ (l = [] \/ l = [sent_event (env w) m] \/ l = [rejected_event (env w) m]).
Proof.
  intro w'. subst w'.
  assert (Hmark : forall reason w0,
            let w1 := snd (pool_query (mark_failed (s_id m) reason) w0) in
            env w1 = env w0 /\ trace w1 = trace w0 /\ sends w1 = sends w0).
  { intros reason w0.
    destruct (pool_query_cases (mark_failed (s_id m) reason) w0) as [(x & E)|E];
      rewrite E; repeat split; reflexivity. }
  unfold process_row, try_catch, bind, gets. cbn [fst snd].
  destruct (isConnected (s_device m) w); cbn [negb].
  - pose proof (sendMessage_keeps_env (s_device m) (to_number m) (body m)
                  no_options w) as He.
    pose proof (sendMessage_outcome (s_device m) (to_number m) (body m)
                  no_options w) as Ho.
    cbv zeta in Ho. cbn beta in He.
    destruct (sendMessage (s_device m) (to_number m) (body m) no_options w)
      as [[r|e] w1]; cbn [fst snd] in He, Ho |- *.
    + destruct Ho as [Ht Hs].
      destruct (pool_query_cases (mark_sent (s_id m)) w1) as [(x & E)|E]; rewrite E.
      * destruct (Hmark (message (Error x)) (with_now (Z.add 1) (with_queries S w1)))
          as (H1 & H2 & H3).
        cbn [env trace sends with_now with_queries] in H1, H2, H3.
        destruct (pool_query _ (with_now _ _)) as [[[]|e'] w2]; cbn [fst snd] in *;
          unfold console_error, modify; cbn [snd env trace sends with_console];
          (split; [congruence|]); exists [sent_event (env w) m];
          (split; [rewrite H2; exact Ht|]);
          (split; [rewrite H3, Hs; cbn; lia | right; left; reflexivity]).
      * cbn [snd env trace sends with_db with_now with_queries].
        split; [exact He|]. exists [sent_event (env w) m].
        split; [exact Ht|]. split; [rewrite Hs; cbn; lia | right; left; reflexivity].
    + destruct (Hmark (message e) w1) as (H1 & H2 & H3).
      destruct (pool_query _ w1) as [[[]|e'] w2]; cbn [fst snd] in *;
        unfold console_error, modify; cbn [snd env trace sends with_console];
        (split; [congruence|]);
        (destruct Ho as [[Ht Hs]|[Ht Hs]];
         [ exists []; rewrite app_nil_r; split; [congruence|];
           split; [rewrite H3, Hs; cbn; lia | left; reflexivity]
         | exists [rejected_event (env w) m]; split; [rewrite H2; exact Ht|];
           split; [rewrite H3, Hs; cbn; lia | right; right; reflexivity] ]).
  - destruct (Hmark "Device not connected" w) as (H1 & H2 & H3).
    destruct (pool_query _ w) as [[[]|e'] w2] eqn:E; cbn [fst snd] in *.
    + split; [exact H1|]. exists []. rewrite app_nil_r.
      split; [exact H2|]. split; [rewrite H3; cbn; lia | left; reflexivity].
    + destruct (Hmark (message e') w2) as (H4 & H5 & H6).
      destruct (pool_query _ w2) as [[[]|e''] w3]; cbn [fst snd] in *;
        unfold console_error, modify; cbn [snd env trace sends with_console];
        (split; [congruence|]); exists []; rewrite app_nil_r;
        (split; [congruence|]); (split; [rewrite H6, H3; cbn; lia | left; reflexivity]).
Qed.

Lemma process_rows_trace rows : forall w,
  let w' := snd (process_rows rows w) in
  env w' = env w
  /\ exists l,
       trace w' = trace w ++ l
       /\ sends w' = (sends w + List.length l)%nat
       /\ batch_events (env w) rows l.
Proof.
  induction rows as [|m rows IH]; intro w; cbn [process_rows].
  - cbn. split; [reflexivity|]. exists []. rewrite app_nil_r.
    split; [reflexivity|]. split; [cbn; lia | reflexivity].
  - unfold bind.
    destruct (process_row_trace m w) as (He & l0 & Ht & Hs & Hl).
    destruct (process_row m w) as [[[]|e] w1]; cbn [snd] in He, Ht, Hs |- *.
    + destruct (IH w1) as (He' & l1 & Ht' & Hs' & Hl').
      cbv zeta in *. split; [congruence|]. exists (l0 ++ l1).
      split; [rewrite Ht', Ht, app_assoc; reflexivity|].
      split; [rewrite Hs', Hs, length_app; lia|].
      rewrite He in Hl'. cbn [batch_events].
      destruct Hl as [->|[->| ->]]; [left; exact Hl'| |];
        right; exists l1; (split; [|exact Hl']); [left|right]; reflexivity.
    + split; [exact He|]. exists l0. split; [exact Ht|]. split; [exact Hs|].
      cbn [batch_events].
      destruct Hl as [->|[->| ->]]; [left; apply batch_events_nil| |];
        right; exists []; (split; [|apply batch_events_nil]); [left|right]; reflexivity.
Qed.

(** The transport calls of a poll are calls for rows of its batch. *)
Lemma processScheduledMessages_trace w :
  let w' := snd (processScheduledMessages w) in
  exists l,
    trace w' = trace w ++ l
    /\ sends w' = (sends w + List.length l)%nat
    /\ batch_events (env w) (fst (select_due (now w) (db w))) l.
Proof.
  unfold processScheduledMessages, try_catch, bind.
  destruct (pool_query_cases select_due w) as [(x & ->)| ->].
  - cbn. exists []. rewrite app_nil_r. split; [reflexivity|].
    split; [cbn; lia | apply batch_events_nil].
  - cbn [fst].
    match goal with |- context [process_rows ?rows ?x] =>
      destruct (process_rows_trace rows x) as (He & l & Ht & Hs & Hl);
      destruct (process_rows rows x) as [[[]|e] w2] end;
      cbn [snd] in *; exists l; (split; [exact Ht|]); (split; [exact Hs|]); exact Hl.
Qed.

Lemma insert_by_perm {A} (le : A -> A -> bool) x l :
  Permutation (insert_by le x l) (x :: l).
Proof.
  induction l as [|y l IH]; cbn; [apply Permutation_refl|].
  destruct (le x y); [apply Permutation_refl|].
  eapply Permutation_trans; [apply perm_skip, IH | apply perm_swap].
Qed.

Lemma sort_by_perm {A} (le : A -> A -> bool) l : Permutation (sort_by le l) l.
Proof.
  induction l as [|x l IH]; cbn; [apply Permutation_refl|].
  eapply Permutation_trans; [apply insert_by_perm | apply perm_skip, IH].
Qed.

Lemma NoDup_firstn {A} n (l : list A) : NoDup l -> NoDup (firstn n l).
Proof.
  intro H. rewrite <- (firstn_skipn n l) in H. exact (NoDup_app_remove_r _ _ H).
Qed.

(** The rows of a batch have distinct ids. *)
Lemma select_due_distinct t d :
  NoDup (map s_id (scheduled_messages d)) -> NoDup (map s_id (fst (select_due t d))).
Proof.
  intro H. unfold select_due. cbn [fst]. rewrite <- firstn_map. apply NoDup_firstn.
  eapply Permutation_NoDup;
    [apply Permutation_sym, Permutation_map, sort_by_perm|].
  apply NoDup_map_filter. exact H.
Qed.

Lemma find_by_id l (r : Scheduled) :
  NoDup (map s_id l) -> In r l -> find (fun x => s_id x =? s_id r) l = Some r.
Proof.
  induction l as [|x l IH]; cbn; intros Hnd Hin; [contradiction|].
  inversion Hnd as [|? ? Hx Hnd']; subst.
  destruct Hin as [->|Hin]; [rewrite Z.eqb_refl; reflexivity|].
  destruct (s_id x =? s_id r) eqn:E; [|apply IH; assumption].
  apply Z.eqb_eq in E. exfalso. apply Hx. rewrite E. apply in_map. exact Hin.
Qed.

Lemma mark_ids (f : Scheduled -> Scheduled) id l :
  (forall x, s_id (f x) = s_id x) ->
  map s_id (map (fun m => if s_id m =? id then f m else m) l) = map s_id l.
Proof.
  intro Hf. rewrite map_map. apply map_ext. intro m.
  destruct (s_id m =? id); [apply Hf | reflexivity].
Qed.

(** The poll rewrites rows in place: the ids of the table stay. *)
Lemma process_row_keeps_ids m :
  keeps (fun w => map s_id (scheduled_messages (db w))) (process_row m).
Proof.
  assert (Hf : forall reason,
            keeps (fun w => map s_id (scheduled_messages (db w)))
                  (pool_query (mark_failed (s_id m) reason))).
  { intro reason.
    apply (keeps_table (fun d => map s_id (scheduled_messages d))). intros t d. cbn.
    apply (mark_ids (fun x => mkScheduled (s_id x) (s_device x) (to_number x) (body x)
                                (scheduled_at x) failed (sent_at x) (Some reason))).
    reflexivity. }
  unfold process_row. apply keeps_try_catch; [|intro e].
  - apply keeps_bind; [apply keeps_gets|]. intro connected.
    destruct (negb connected); [apply Hf|].
    apply keeps_bind; [|intro].
    + intro w. cbn beta.
      rewrite (sendMessage_keeps_scheduled (s_device m) (to_number m) (body m) no_options w).
      reflexivity.
    + apply (keeps_table (fun d => map s_id (scheduled_messages d))). intros t d. cbn.
      apply (mark_ids (fun x => mkScheduled (s_id x) (s_device x) (to_number x) (body x)
                                  (scheduled_at x) sent (Some t) (error_message x))).
      reflexivity.
  - apply keeps_bind; [apply Hf|]. intro. unfold console_error. keeps_all.
Qed.

Lemma process_rows_terminal rows : forall w,
  reliable w ->
  scheduled_wf w ->
  NoDup (map s_id rows) ->
  (forall m, In m rows -> In m (scheduled_messages (db w))) ->
  let w' := snd (process_rows rows w) in
  scheduled_wf w'
  /\ forall m, In m rows ->
       exists m', In m' (scheduled_messages (db w')) /\ s_id m' = s_id m
                  /\ (status m' = sent \/ status m' = failed).
Proof.
  induction rows as [|m0 rows IH]; intros w Hrel Hwf Hnd Hin; cbn [process_rows].
  - cbn. split; [exact Hwf|]. intros m [].
  - cbn [map] in Hnd. inversion Hnd as [|? ? Hx Hnd']; subst.
    unfold bind.
    destruct (process_row_run m0 w Hrel Hwf (Hin m0 (or_introl eq_refl)))
      as (Hok & He & Hrow).
    pose proof (process_row_keeps_ids m0 w) as Hids. cbn beta in Hids.
    assert (Hothers : forall m, In m rows -> In m (scheduled_messages (db (snd (process_row m0 w))))).
    { intros m Hm. apply (process_row_other m0 m).
      - intro E. apply Hx. rewrite <- E. apply in_map. exact Hm.
      - apply Hin. right. exact Hm. }
    assert (Hm0 : exists m', In m' (scheduled_messages (db (snd (process_row m0 w))))
                             /\ s_id m' = s_id m0
                             /\ (status m' = sent \/ status m' = failed)).
    { destruct (isConnected (s_device m0) w).
      - destruct (fst (sendMessage (s_device m0) (to_number m0) (body m0) no_options w))
          as [r|e].
        + destruct Hrow as (Hf & _). apply find_some in Hf.
          eexists. split; [exact (proj1 Hf)|]. split; [reflexivity | left; reflexivity].
        + destruct Hrow as (Hf & _). apply find_some in Hf.
          eexists. split; [exact (proj1 Hf)|]. split; [reflexivity | right; reflexivity].
      - destruct Hrow as (Hf & _). apply find_some in Hf.
        eexists. split; [exact (proj1 Hf)|]. split; [reflexivity | right; reflexivity]. }
    destruct (process_row m0 w) as [[[]|e] w1]; cbn [fst snd] in *; [|discriminate].
    assert (Hrel1 : reliable w1) by (intro n; rewrite He; apply Hrel).
    assert (Hwf1 : scheduled_wf w1) by (unfold scheduled_wf; rewrite Hids; exact Hwf).
    destruct (IH w1 Hrel1 Hwf1 Hnd' Hothers) as (Hwf' & Hterm).
    split; [exact Hwf'|]. intros m [<-|Hm]; [|apply Hterm; exact Hm].
    destruct Hm0 as (m' & Hin' & Hid' & Hst).
    exists m'. split; [|split; assumption].
    apply (process_rows_other rows m'); [|exact Hin'].
    intros m Hm E. apply Hx. rewrite <- Hid', E. apply in_map. exact Hm.
Qed.

(** When the store works, every row of the batch is in a terminal state
    after the poll. *)
Lemma poll_leaves_batch_terminal m w :
  reliable w ->
  scheduled_wf w ->
  In m (fst (select_due (now w) (db w))) ->
  let w' := snd (processScheduledMessages w) in
  status_of (s_id m) w' = Some sent \/ status_of (s_id m) w' = Some failed.
Proof.
  intros Hrel Hwf Hin w'. subst w'.
  unfold processScheduledMessages, try_catch, bind.
  rewrite pool_query_ok by apply Hrel. cbn [fst snd select_due].
  change (firstn 10 _) with (fst (select_due (now w) (db w))).
  set (w1 := with_db _ _).
  assert (Hdb : scheduled_messages (db w1) = scheduled_messages (db w)) by reflexivity.
  assert (Hrel1 : reliable w1) by exact Hrel.
  assert (Hwf1 : scheduled_wf w1) by exact Hwf.
  destruct (process_rows_terminal (fst (select_due (now w) (db w))) w1 Hrel1 Hwf1
              (select_due_distinct _ _ Hwf)) as (Hwf' & Hterm).
  { intros m1 Hm1. rewrite Hdb. apply (select_due_pending _ _ _ Hm1). }
  destruct (Hterm m Hin) as (m' & Hin' & Hid & Hst).
  assert (Hfind : forall w2, scheduled_messages (db w2) =
                             scheduled_messages (db (snd (process_rows
                               (fst (select_due (now w) (db w))) w1))) ->
                  status_of (s_id m) w2 = Some sent \/ status_of (s_id m) w2 = Some failed).
  { intros w2 E. unfold status_of, find_scheduled. rewrite E, <- Hid.
    rewrite (find_by_id _ m' Hwf' Hin'). cbn. destruct Hst as [-> | ->]; [left|right]; reflexivity. }
  destruct (process_rows _ w1) as [[[]|e] w2]; cbn [snd] in *; apply Hfind; reflexivity.
Qed.

(** With nothing in between, the interleaved loop is the poll loop. *)
Lemma process_rows_with_alone rows : forall k w,
  process_rows_with no_interference k rows w = process_rows rows w.
Proof.
  induction rows as [|m rows IH]; intros k w; cbn [process_rows_with process_rows];
    [reflexivity|].
  unfold bind at 1. unfold modify, no_interference. cbn [fst snd].
  unfold bind. destruct (process_row m w) as [[[]|e] w1]; [apply IH|reflexivity].
Qed.

Lemma processScheduledMessages_with_alone w :
  processScheduledMessages_with no_interference w = processScheduledMessages w.
Proof.
  unfold processScheduledMessages_with, processScheduledMessages, try_catch, bind.
  destruct (pool_query select_due w) as [[rows|e] w1]; [|reflexivity].
  rewrite process_rows_with_alone. reflexivity.
Qed.

(** C6, as amended.  A scheduled message starts pending.  Operations that
    run one after the other never change a row that is in a terminal state:
    cancelling what is not pending changes nothing and returns no row,
    cancelling a pending message sets it to cancelled, and the poll takes up
    pending rows only.  With a store that works, promotion ends a row as
    sent, stamped with the time of the statement, exactly when [sendMessage]
    returned, the message having gone out in one transport call; it ends the
    row as failed with the message of the error when [sendMessage] threw, no
    message having gone out, and as failed with "Device not connected",
    without calling the transport, when the device is not connected.
    Whatever the store answers, the transport calls of one poll are calls
    for rows of its batch, at most one for each row and in the order of the
    batch; and with a store that works every row of the batch is sent or
    failed after the poll. *)
Theorem scheduled_states_sequential :
  (forall d to text at_ w,
     fault_at (env w) (queries w) = None ->
     exists m w',
       scheduleMessage d to text at_ w = (Ok m, w') /\ status m = pending
       /\ scheduled_messages (db w') = scheduled_messages (db w) ++ [m])
  /\ (forall o w row,
        scheduled_wf w ->
        In row (scheduled_messages (db w)) ->
        is_pending (status row) = false ->
        In row (scheduled_messages (db (run_op o w))))
  /\ (forall id d w,
        fault_at (env w) (queries w) = None ->
        (forall m, In m (scheduled_messages (db w)) ->
                   s_id m = id -> s_device m = d -> is_pending (status m) = false) ->
        exists w',
          cancelScheduledMessage id d w = (Ok None, w')
          /\ scheduled_messages (db w') = scheduled_messages (db w))
  /\ (forall m w,
        fault_at (env w) (queries w) = None ->
        scheduled_wf w ->
        In m (scheduled_messages (db w)) ->
        status m = pending ->
        status_of (s_id m) (snd (cancelScheduledMessage (s_id m) (s_device m) w)) =
          Some cancelled)
  /\ (forall t d m,
        In m (fst (select_due t d)) ->
        In m (scheduled_messages d) /\ status m = pending /\ scheduled_at m <= t)
  /\ (forall m w,
        reliable w ->
        scheduled_wf w ->
        In m (scheduled_messages (db w)) ->
        let dispatch := sendMessage (s_device m) (to_number m) (body m) no_options w in
        let w' := snd (process_row m w) in
        fst (process_row m w) = Ok tt
        /\ env w' = env w
        /\ if isConnected (s_device m) w then
             match fst dispatch with
             | Ok _ =>
                 find_scheduled (s_id m) w' = Some (as_sent (now (snd dispatch)) m)
                 /\ trace w' = trace w ++ [sent_event (env w) m]
                 /\ sends w' = S (sends w)
             | Throw e =>
                 find_scheduled (s_id m) w' = Some (as_failed (message e) m)
                 /\ sent_count w' = sent_count w
             end
           else
             find_scheduled (s_id m) w' = Some (as_failed "Device not connected" m)
             /\ trace w' = trace w /\ sends w' = sends w)
  /\ (forall w,
        let w' := snd (processScheduledMessages w) in
        exists l,
          trace w' = trace w ++ l
          /\ sends w' = (sends w + List.length l)%nat
          /\ batch_events (env w) (fst (select_due (now w) (db w))) l)
  /\ (forall m w,
        reliable w ->
        scheduled_wf w ->
        In m (fst (select_due (now w) (db w))) ->
        let w' := snd (processScheduledMessages w) in
        status_of (s_id m) w' = Some sent \/ status_of (s_id m) w' = Some failed).
Proof.
  split; [exact scheduleMessage_pending|].
  split; [exact terminal_rows_stay|].
  split; [exact cancel_not_pending|].
  split.
  { intros m w H Hwf Hin Hp.
    destruct (cancel_pending_row m w H Hwf Hin Hp) as (w' & E & Hs).
    rewrite E. exact Hs. }
  split; [exact select_due_pending|].
  split; [exact process_row_run|].
  split; [exact processScheduledMessages_trace | exact poll_leaves_batch_terminal].
Qed.

(** A row that stays, a cancellation, a row that is sent, a row of a device
    that is not connected, and a poll. *)
Lemma scheduled_states_sequential_witness :
  In done_3 (scheduled_messages (db (run_op OpPoll w_two_due)))
  /\ status_of 2 (snd (cancelScheduledMessage 2 10 w_two_due)) = Some cancelled
  /\ (let w' := snd (process_row due_1 w_two_due) in
      find_scheduled 1 w' = Some (as_sent 1005 due_1)
      /\ trace w' = [EvSent 10 "6281@c.us" "first"]
      /\ sends w' = 1%nat)
  /\ (let w' := snd (process_row due_offline w_offline) in
      find_scheduled 1 w' = Some (as_failed "Device not connected" due_offline)
      /\ trace w' = [] /\ sends w' = 0%nat)
  /\ (status_of 2 (snd (processScheduledMessages w_two_due)) = Some sent
      \/ status_of 2 (snd (processScheduledMessages w_two_due)) = Some failed).
Proof.
  destruct scheduled_states_sequential
    as (_ & Hstay & _ & Hcancel & _ & Hpromote & _ & Hpoll).
  assert (Hwf : scheduled_wf w_two_due).
  { unfold scheduled_wf. vm_compute.
    repeat (apply NoDup_cons;
            [intro H; repeat (destruct H as [H|H]; [discriminate H|]); exact H|]).
    apply NoDup_nil. }
  assert (Hwf' : scheduled_wf w_offline).
  { unfold scheduled_wf. vm_compute.
    repeat (apply NoDup_cons;
            [intro H; repeat (destruct H as [H|H]; [discriminate H|]); exact H|]).
    apply NoDup_nil. }
  split; [|split; [|split; [|split]]].
  - apply (Hstay OpPoll w_two_due done_3 Hwf).
    + right. right. left. reflexivity.
    + reflexivity.
  - apply (Hcancel due_2 w_two_due eq_refl Hwf).
    + right. left. reflexivity.
    + reflexivity.
  - exact (proj2 (proj2 (Hpromote due_1 w_two_due (fun _ => eq_refl) Hwf
                           (or_introl eq_refl)))).
  - exact (proj2 (proj2 (Hpromote due_offline w_offline (fun _ => eq_refl) Hwf'
                           (or_introl eq_refl)))).
  - apply (Hpoll due_2 w_two_due (fun _ => eq_refl) Hwf).
    right. left. reflexivity.
Defined.

(** Messages 1 and 2 are due and the poll has selected both.  While the
    loop is busy with message 1 the user cancels message 2: the cancel finds
    the row pending, sets it to cancelled and returns it.  The loop then
    takes up its copy of row 2, sends it and writes sent over cancelled. *)
Lemma cancelled_message_is_sent :
  let batch := fst (select_due (now w_two_due) (db w_two_due)) in
  let w1 := snd (pool_query select_due w_two_due) in
  let w2 := snd (process_row due_1 w1) in
  let cancel := cancelScheduledMessage 2 10 w2 in
  let w3 := snd cancel in
  let w4 := snd (process_row due_2 w3) in
  batch = [due_1; due_2]
  /\ (exists row, fst cancel = Ok (Some row) /\ status row = cancelled)
  /\ status_of 2 w3 = Some cancelled
  /\ status_of 2 w4 = Some sent
  /\ In (EvSent 10 "6282@c.us" "second") (trace w4)
  /\ scheduled_messages
       (db (snd (processScheduledMessages_with cancel_2_before_second_row w_two_due))) =
     scheduled_messages (db w4)
  /\ trace (snd (processScheduledMessages_with cancel_2_before_second_row w_two_due)) =
     trace w4.
Proof.
  vm_compute. split; [reflexivity|]. split; [eexists; split; reflexivity|].
  split; [reflexivity|]. split; [reflexivity|].
  split; [right; left; reflexivity|]. split; reflexivity.
Qed.

(** A second poll right after the first finds nothing pending and sends
    nothing. *)
Lemma second_poll_sends_nothing :
  let w1 := snd (processScheduledMessages w_two_due) in
  let w2 := snd (processScheduledMessages w1) in
  trace w1 = [EvSent 10 "6281@c.us" "first"; EvSent 10 "6282@c.us" "second"]
  /\ trace w2 = trace w1
  /\ scheduled_messages (db w2) = scheduled_messages (db w1).
Proof. vm_compute. repeat split; reflexivity. Qed.

(** ** SettingsCache: expiry, invalidation and failure *)

Lemma getUserSettings_fresh u s w :
  fresh_entry u w = Some s -> getUserSettings u w = (Ok s, w).
Proof.
  unfold fresh_entry, getUserSettings, bind, gets. cbn.
  destruct (cache_get (userSettings w) u) as [c|]; [|discriminate].
  destruct (now w - timestamp c <? 300000); [|discriminate].
  intro H. injection H as <-. reflexivity.
Qed.

Lemma getUserSettings_miss u w :
  fresh_entry u w = None -> getUserSettings u w = load_user_settings u w.
Proof.
  unfold fresh_entry, getUserSettings, bind, gets. cbn.
  destruct (cache_get (userSettings w) u) as [c|]; [|reflexivity].
  destruct (now w - timestamp c <? 300000); [discriminate|reflexivity].
Qed.

Lemma cache_get_set u e c : cache_get (cache_set u e c) u = Some e.
Proof. unfold cache_set. cbn. rewrite Z.eqb_refl. reflexivity. Qed.

Lemma cache_get_delete u c :
  cache_get (filter (fun p => negb (fst p =? u)) c) u = None.
Proof.
  induction c as [|[k e] c IH]; cbn; [reflexivity|].
  destruct (k =? u) eqn:E; cbn; [exact IH|]. rewrite E. exact IH.
Qed.

Lemma load_user_settings_ok u s rest w :
  fault_at (env w) (queries w) = None ->
  fst (select_user_settings u 0 (db w)) = s :: rest ->
  load_user_settings u w =
  (Ok s,
   with_userSettings (cache_set u (mkCacheEntry s (1 + now w)))
     (with_db (fun _ => db w) (with_now (Z.add 1) (with_queries S w)))).
Proof.
  intros H0 Hrows. unfold load_user_settings, try_catch, bind.
  rewrite (pool_query_ok _ _ H0).
  change (fst (select_user_settings u (now w) (db w)))
    with (fst (select_user_settings u 0 (db w))).
  rewrite Hrows. reflexivity.
Qed.

(** X1.  A cache entry is trusted while it is less than five minutes old:
    it is returned without a statement, whatever the store holds by then.
    From five minutes on the store is read again, and its row replaces the
    entry. *)
Theorem settings_cached_for_five_minutes u c w :
  cache_get (userSettings w) u = Some c ->
  (now w - timestamp c < 300000 ->
   forall f, getUserSettings u (with_db f w) = (Ok (settings c), with_db f w))
  /\ (300000 <= now w - timestamp c ->
      forall s rest,
        fault_at (env w) (queries w) = None ->
        fst (select_user_settings u 0 (db w)) = s :: rest ->
        exists w', getUserSettings u w = (Ok s, w')
                   /\ queries w' = S (queries w)
                   /\ cache_get (userSettings w') u = Some (mkCacheEntry s (1 + now w))).
Proof.
  intro Hc. split.
  - intros Hage f. apply getUserSettings_fresh. unfold fresh_entry. cbn.
    rewrite Hc. apply Z.ltb_lt in Hage. rewrite Hage. reflexivity.
  - intros Hage s rest H0 Hrows. rewrite getUserSettings_miss.
    + rewrite (load_user_settings_ok u s rest w H0 Hrows). eexists. split; [reflexivity|].
      split; [reflexivity|]. cbn. apply cache_get_set.
    + unfold fresh_entry. rewrite Hc.
      destruct (now w - timestamp c <? 300000) eqn:E; [|reflexivity].
      apply Z.ltb_lt in E. lia.
Qed.

Lemma settings_cached_for_five_minutes_witness :
  getUserSettings 1 (with_db (fun d => d) w_cached) =
    (Ok (settings_limit 5), with_db (fun d => d) w_cached)
  /\ exists w', getUserSettings 1 w_expired = (Ok (settings_limit 1000), w')
                /\ queries w' = 1%nat
                /\ cache_get (userSettings w') 1 =
                   Some (mkCacheEntry (settings_limit 1000) 300001).
Proof.
  split.
  - apply (proj1 (settings_cached_for_five_minutes 1 (mkCacheEntry (settings_limit 5) 0)
                    w_cached eq_refl)).
    vm_compute. reflexivity.
  - apply (proj2 (settings_cached_for_five_minutes 1 (mkCacheEntry (settings_limit 5) 0)
                    w_expired eq_refl)) with (rest := []).
    + vm_compute. discriminate.
    + reflexivity.
    + reflexivity.
Defined.

(** X2.  After [clearSettingsCache] the next [getUserSettings] reads the
    user's row from the store with one statement, and the read after that
    is served from the cache. *)
Theorem cleared_cache_reads_store u s rest w :
  fault_at (env w) (queries w) = None ->
  fst (select_user_settings u 0 (db w)) = s :: rest ->
  exists w1 w2,
    clearSettingsCache u w = (Ok tt, w1)
    /\ getUserSettings u w1 = (Ok s, w2)
    /\ queries w2 = S (queries w)
    /\ getUserSettings u w2 = (Ok s, w2).
Proof.
  intros H0 Hrows. eexists. eexists. split; [reflexivity|].
  set (w1 := with_userSettings _ w).
  assert (Hmiss : fresh_entry u w1 = None).
  { unfold fresh_entry, w1. cbn. rewrite cache_get_delete. reflexivity. }
  rewrite (getUserSettings_miss _ _ Hmiss).
  rewrite (load_user_settings_ok u s rest w1 H0 Hrows).
  split; [reflexivity|]. split; [reflexivity|].
  apply getUserSettings_fresh. unfold fresh_entry. cbn -[Z.add Z.sub Z.ltb].
  rewrite Z.eqb_refl. cbn -[Z.add Z.sub Z.ltb]. rewrite Z.sub_diag. reflexivity.
Qed.

Lemma cleared_cache_reads_store_witness :
  exists w1 w2,
    clearSettingsCache 1 w_cached = (Ok tt, w1)
    /\ getUserSettings 1 w1 = (Ok (settings_limit 1000), w2)
    /\ queries w2 = 1%nat
    /\ getUserSettings 1 w2 = (Ok (settings_limit 1000), w2).
Proof.
  apply (cleared_cache_reads_store 1 (settings_limit 1000) [] w_cached); reflexivity.
Defined.

(** X3.  When the store fails while the settings are loaded (the SELECT,
    or the INSERT of the default row), [getUserSettings] does not throw: it
    logs, answers the built-in defaults and caches nothing, so the next call
    asks the store again. *)
Theorem settings_load_failure_gives_defaults u m w :
  fresh_entry u w = None ->
  fault_at (env w) (queries w) = Some m
  \/ (fault_at (env w) (queries w) = None
      /\ fst (select_user_settings u 0 (db w)) = []
      /\ fault_at (env w) (S (queries w)) = Some m) ->
  exists w',
    getUserSettings u w = (Ok default_settings, w')
    /\ userSettings w' = userSettings w
    /\ db w' = db w
    /\ console w' = console w ++ ["Error getting user settings:"].
Proof.
  intros Hmiss H. rewrite (getUserSettings_miss _ _ Hmiss).
  unfold load_user_settings, try_catch, bind.
  destruct H as [H0 | (H0 & Hrows & H1)].
  - rewrite (pool_query_fault _ _ _ H0). eexists. split; [reflexivity|].
    repeat split; reflexivity.
  - rewrite (pool_query_ok _ _ H0).
    change (fst (select_user_settings u (now w) (db w)))
      with (fst (select_user_settings u 0 (db w))).
    rewrite Hrows.
    erewrite pool_query_fault by exact H1.
    eexists. split; [reflexivity|]. repeat split; reflexivity.
Qed.

Lemma settings_load_failure_gives_defaults_witness :
  exists w',
    getUserSettings 1 w_store_down = (Ok default_settings, w')
    /\ userSettings w' = userSettings w_store_down
    /\ db w' = db w_store_down
    /\ console w' = console w_store_down ++ ["Error getting user settings:"].
Proof.
  apply (settings_load_failure_gives_defaults 1 "connection terminated" w_store_down).
  - reflexivity.
  - left. reflexivity.
Defined.

(** X4.  The first read for a user without a settings row creates the row
    with the column defaults, returns it and caches it; the table then holds
    exactly that row for the user. *)
Theorem first_read_creates_default_row u w :
  fresh_entry u w = None ->
  fault_at (env w) (queries w) = None ->
  fault_at (env w) (S (queries w)) = None ->
  fst (select_user_settings u 0 (db w)) = [] ->
  exists w',
    getUserSettings u w = (Ok default_settings, w')
    /\ user_settings (db w') = user_settings (db w) ++ [(u, default_settings)]
    /\ fst (select_user_settings u 0 (db w')) = [default_settings]
    /\ fresh_entry u w' = Some default_settings
    /\ queries w' = S (S (queries w)).
Proof.
  intros Hmiss H0 H1 Hrows. rewrite (getUserSettings_miss _ _ Hmiss).
  unfold load_user_settings, try_catch, bind.
  rewrite (pool_query_ok _ _ H0).
  change (fst (select_user_settings u (now w) (db w)))
    with (fst (select_user_settings u 0 (db w))).
  rewrite Hrows.
  erewrite pool_query_ok by exact H1.
  eexists. split; [reflexivity|]. cbn.
  split; [reflexivity|]. split.
  - unfold select_user_settings in Hrows. cbn in Hrows.
    rewrite filter_app, map_app. rewrite Hrows. cbn. rewrite Z.eqb_refl. reflexivity.
  - split; [|reflexivity]. unfold fresh_entry. cbn -[Z.add Z.sub Z.ltb].
    rewrite Z.eqb_refl. cbn -[Z.add Z.sub Z.ltb]. rewrite Z.sub_diag. reflexivity.
Qed.

Lemma first_read_creates_default_row_witness :
  exists w',
    getUserSettings 1 w_no_settings = (Ok default_settings, w')
    /\ user_settings (db w') = [(1, default_settings)]
    /\ fst (select_user_settings 1 0 (db w')) = [default_settings]
    /\ fresh_entry 1 w' = Some default_settings
    /\ queries w' = 2%nat.
Proof.
  apply (first_read_creates_default_row 1 w_no_settings); reflexivity.
Defined.

(** ** UsageLedger: when a reservation is denied, and what it leaves alone *)

(** X5.  A reservation is denied for one reason only.  When no store
    error carries the text of the quota error, a call of
    [checkAndUpdateUsage] that throws has read the totals, found rate
    limiting enabled and the day's total at or above the limit, and throws
    the quota error. *)
Theorem denial_means_quota_reached u d t e w :
  honest_faults w ->
  fst (checkAndUpdateUsage u d t w) = Throw e ->
  let s := settings_in_effect u (after_read u d (today w) w) in
  fault_at (env w) (queries w) = None
  /\ fault_at (env w) (S (queries w)) = None
  /\ enable_rate_limiting s = true
  /\ daily_message_limit s <= total_sent u (today w) w
  /\ e = Error (quota_message (daily_message_limit s)).
Proof.
  intros Hh He s.
  destruct (fault_at (env w) (queries w)) as [m|] eqn:H0.
  { exfalso. revert He.
    unfold checkAndUpdateUsage, reserve, bind, gets, try_catch. cbn [fst snd].
    rewrite (pool_query_fault _ w m H0).
    rewrite (on_error_other u (Error m) _ (Hh _ _ H0)). discriminate. }
  destruct (fault_at (env w) (S (queries w))) as [m|] eqn:H1.
  { exfalso. revert He.
    unfold checkAndUpdateUsage, reserve, bind, gets, try_catch. cbn [fst snd].
    rewrite (pool_query_ok _ w H0).
    rewrite (pool_query_fault _ _ m) by exact H1.
    rewrite (on_error_other u (Error m) _ (Hh _ _ H1)). discriminate. }
  revert He. rewrite (checkAndUpdateUsage_run u d t w H0 H1). fold s.
  destruct (enable_rate_limiting s) eqn:Hen; cbn [andb].
  - destruct (total_sent u (today w) w >=? daily_message_limit s) eqn:Hge.
    + intro He. cbn in He. injection He as <-.
      rewrite Z.geb_leb in Hge. apply Z.leb_le in Hge. repeat split; auto.
    + match goal with |- context [match fault_at (env w) ?q with _ => _ end] =>
        destruct (fault_at (env w) q) as [m|] eqn:H3 end.
      * rewrite (on_error_other u (Error m) _ (Hh _ _ H3)). discriminate.
      * rewrite on_error_reference. discriminate.
  - match goal with |- context [match fault_at (env w) ?q with _ => _ end] =>
      destruct (fault_at (env w) q) as [m|] eqn:H3 end.
    + rewrite (on_error_other u (Error m) _ (Hh _ _ H3)). discriminate.
    + rewrite on_error_reference. discriminate.
Qed.

Lemma denial_means_quota_reached_witness :
  let s := settings_in_effect 1 (after_read 1 10 (today w_exhausted) w_exhausted) in
  enable_rate_limiting s = true
  /\ daily_message_limit s <= total_sent 1 (today w_exhausted) w_exhausted.
Proof.
  destruct (denial_means_quota_reached 1 10 "message" (Error (quota_message 5)) w_exhausted)
    as (_ & _ & H1 & H2 & _).
  - intros n m H. vm_compute in H. discriminate.
  - vm_compute. reflexivity.
  - split; assumption.
Defined.

Lemma other_rows_ensured u d date l :
  other_rows u d date (ensured u d date l) = other_rows u d date l.
Proof.
  unfold other_rows, ensured.
  destruct (existsb (usage_key u d date) l); [reflexivity|].
  rewrite filter_app. cbn. unfold usage_key at 2. cbn. rewrite !Z.eqb_refl. cbn.
  apply app_nil_r.
Qed.

Lemma other_rows_bumped f u d date l :
  other_rows u d date (bumped f u d date l) = other_rows u d date l.
Proof.
  unfold other_rows, bumped. induction l as [|r l IH]; cbn; [reflexivity|].
  destruct (usage_key u d date r) eqn:E; cbn.
  - rewrite usage_key_bump, E. cbn. exact IH.
  - rewrite E. cbn. f_equal. exact IH.
Qed.

(** X6.  Whatever the store does, a reservation leaves the usage rows of
    every other user, device and day as they were: the same rows, in the
    same order. *)
Theorem reservation_touches_own_row_only u d t w :
  let w' := snd (checkAndUpdateUsage u d t w) in
  other_rows u d (today w) (daily_usage (db w')) =
  other_rows u d (today w) (daily_usage (db w)).
Proof.
  intro w'.
  destruct (checkAndUpdateUsage_usage u d t w) as [H | [H | H]]; fold w' in H; rewrite H.
  - reflexivity.
  - apply other_rows_ensured.
  - rewrite other_rows_bumped. apply other_rows_ensured.
Qed.

(** ** Dispatcher: the order of the checks in [sendMessage] *)

Lemma clients_get_delete dev cs : clients_get (clients_delete dev cs) dev = None.
Proof.
  unfold clients_delete. induction cs as [|[k i] cs IH]; cbn; [reflexivity|].
  destruct (k =? dev) eqn:E; cbn; [exact IH|]. rewrite E. exact IH.
Qed.

Lemma sendMessage_no_client dev to text o w :
  clients_get (clients w) dev = None ->
  sendMessage dev to text o w = (Throw (Error "Device not connected"), w).
Proof.
  intro H. unfold sendMessage, bind, gets. cbn. rewrite H. reflexivity.
Qed.

(** X7.  Once [disconnectDevice] has run with a [destroy] that resolves,
    whether or not its UPDATE succeeds, the device has no client:
    [isConnected] is false and [sendMessage] throws 'Device not connected'
    at once, with no statement issued and no usage counted.  When
    [destroy] rejects, the client stays registered and nothing changes. *)
Theorem disconnected_device_refuses_sends dev to text o w :
  let w1 := snd (disconnectDevice None dev w) in
  sendMessage dev to text o w1 = (Throw (Error "Device not connected"), w1)
  /\ isConnected dev w1 = false
  /\ daily_usage (db w1) = daily_usage (db w)
  /\ (forall m info,
        clients_get (clients w) dev = Some info ->
        disconnectDevice (Some m) dev w = (Throw (Error m), w)).
Proof.
  intro w1.
  assert (Hc : clients_get (clients w1) dev = None /\ daily_usage (db w1) = daily_usage (db w)).
  { subst w1. unfold disconnectDevice, bind, gets, modify, ret. cbn.
    destruct (clients_get (clients w) dev) eqn:E; cbn; [|split; [exact E|reflexivity]].
    match goal with |- context [pool_query ?q ?x] =>
      destruct (pool_query_cases q x) as [[m ->] | ->] end; cbn;
      (split; [apply clients_get_delete|reflexivity]). }
  destruct Hc as [Hc Hu]. split; [apply sendMessage_no_client; exact Hc|].
  split; [unfold isConnected; rewrite Hc; reflexivity|].
  split; [exact Hu|].
  intros m info E. unfold disconnectDevice, bind, gets. cbn. rewrite E. reflexivity.
Qed.

Lemma sendMessage_metered dev to text mt info u w :
  clients_get (clients w) dev = Some info ->
  fault_at (env w) (queries w) = None ->
  device_user dev w = Some u ->
  sendMessage dev to text (mkSendOptions false mt) w =
  match checkAndUpdateUsage u dev (message_type (mkSendOptions false mt))
          (after_lookup dev w) with
  | (Ok usageCheck, w2) =>
      if allowed usageCheck then
        match send_outcome (env w2) (sends w2) with
        | SendOk mid ts =>
            (Ok (mkSendResult mid ts),
             with_trace (fun t => t ++ [EvSent dev (format_number to)
                                          (render (env w2) (format_number to) text)])
               (with_sends S w2))
        | SendRejected m =>
            (Throw (Error m),
             with_console (fun l => l ++ ["Error sending message:"])
               (with_trace (fun t => t ++ [EvSendFailed dev (format_number to)
                                             (render (env w2) (format_number to) text)])
                  (with_sends S w2)))
        end
      else (Throw (Error "Rate limit exceeded"), w2)
  | (Throw e, w2) => (Throw e, w2)
  end.
Proof.
  intros Hc Hq Hu.
  unfold sendMessage, bind, gets. cbn [fst snd]. rewrite Hc.
  destruct (after_lookup_ok dev w Hq) as (E & _). rewrite E.
  unfold device_user in Hu. rewrite Hu. cbn [skipRateLimit messageType].
  unfold message_type. cbn [messageType].
  destruct (checkAndUpdateUsage u dev _ (after_lookup dev w)) as [[c|e] w2]; [|reflexivity].
  destruct (allowed c); [|reflexivity].
  unfold try_catch, bind, gets, ret, throw, console_error, modify, client_sendMessage.
  cbn [fst snd].
  destruct (send_outcome (env w2) (sends w2)); reflexivity.
Qed.

Lemma sendMessage_over_quota dev to text mt info u w :
  clients_get (clients w) dev = Some info ->
  fault_at (env w) (queries w) = None ->
  fault_at (env w) (S (queries w)) = None ->
  fault_at (env w) (S (S (queries w))) = None ->
  device_user dev w = Some u ->
  let w1 := after_lookup dev w in
  let s := settings_in_effect u (after_read u dev (today w1) w1) in
  enable_rate_limiting s = true ->
  daily_message_limit s <= total_sent u (today w1) w1 ->
  exists w',
    sendMessage dev to text (mkSendOptions false mt) w =
      (Throw (Error (quota_message (daily_message_limit s))), w')
    /\ sends w' = sends w
    /\ trace w' = trace w
    /\ env w' = env w
    /\ forall f u' d' date', counter f u' d' date' w' = counter f u' d' date' w.
Proof.
  intros Hc H0 H1 H2 Hu w1 s He Hl.
  rewrite (sendMessage_metered dev to text mt info u w Hc H0 Hu). fold w1.
  destruct (after_lookup_ok dev w H0) as (_ & Henv & Htr & Hs & _). fold w1 in Henv, Htr, Hs.
  assert (Hq1 : queries w1 = S (queries w)).
  { unfold w1, after_lookup. rewrite (pool_query_ok _ w H0). reflexivity. }
  assert (Hd1 : db w1 = db w).
  { unfold w1, after_lookup. rewrite (pool_query_ok _ w H0). reflexivity. }
  set (ty := message_type (mkSendOptions false mt)).
  destruct (quota_denied u dev ty w1) as (w' & E & _ & Hcnt); try assumption.
  - rewrite Henv, Hq1. exact H1.
  - rewrite Henv, Hq1. exact H2.
  - pose proof (checkAndUpdateUsage_keeps_sends u dev ty w1) as Ks.
    pose proof (checkAndUpdateUsage_keeps_trace u dev ty w1) as Kt.
    pose proof (checkAndUpdateUsage_keeps_env u dev ty w1) as Ke.
    cbn beta in Ks, Kt, Ke. rewrite E in Ks, Kt, Ke. cbn [snd] in Ks, Kt, Ke.
    rewrite E. exists w'. split; [reflexivity|].
    split; [congruence|]. split; [congruence|]. split; [congruence|].
    intros. rewrite Hcnt. unfold counter. rewrite Hd1. reflexivity.
Qed.

(** X8.  A metered send of a user whose total has reached the limit throws
    the quota error before the transport is called: nothing is sent and no
    counter moves. *)
Theorem send_over_quota_reaches_no_transport dev to text mt info u w :
  clients_get (clients w) dev = Some info ->
  fault_at (env w) (queries w) = None ->
  fault_at (env w) (S (queries w)) = None ->
  fault_at (env w) (S (S (queries w))) = None ->
  device_user dev w = Some u ->
  let w1 := after_lookup dev w in
  let s := settings_in_effect u (after_read u dev (today w1) w1) in
  enable_rate_limiting s = true ->
  daily_message_limit s <= total_sent u (today w1) w1 ->
  exists w',
    sendMessage dev to text (mkSendOptions false mt) w =
      (Throw (Error (quota_message (daily_message_limit s))), w')
    /\ sends w' = sends w
    /\ trace w' = trace w
    /\ forall f u' d' date', counter f u' d' date' w' = counter f u' d' date' w.
Proof.
  intros Hc H0 H1 H2 Hu w1 s He Hl.
  destruct (sendMessage_over_quota dev to text mt info u w Hc H0 H1 H2 Hu He Hl)
    as (w' & E & Hs & Ht & _ & Hcnt).
  exists w'. repeat split; assumption.
Qed.

Lemma send_over_quota_reaches_no_transport_witness :
  exists w',
    sendMessage 10 "6281" "halo" no_options w_exhausted =
      (Throw (Error (quota_message 5)), w')
    /\ sends w' = sends w_exhausted
    /\ trace w' = trace w_exhausted.
Proof.
  destruct (send_over_quota_reaches_no_transport 10 "6281" "halo" None true 1 w_exhausted)
    as (w' & E & Hs & Ht & _); try reflexivity.
  exists w'. split; [exact E|]. split; assumption.
Defined.

(** X9.  The quota is reserved before the transport is called, and is not
    given back: when the transport rejects a metered send, [sendMessage]
    throws the transport's error, no message went out, and the counter of
    the kind is one higher. *)
Theorem rejected_send_consumes_quota dev to text mt info u m w :
  reliable w ->
  clients_get (clients w) dev = Some info ->
  device_user dev w = Some u ->
  let w1 := after_lookup dev w in
  let f := updateField (message_type (mkSendOptions false mt)) in
  let s := settings_in_effect u (after_read u dev (today w1) w1) in
  enable_rate_limiting s = false \/ total_sent u (today w1) w1 < daily_message_limit s ->
  one_row u dev (today w1) w ->
  send_outcome (env w) (sends w) = SendRejected m ->
  exists w',
    sendMessage dev to text (mkSendOptions false mt) w = (Throw (Error m), w')
    /\ sent_count w' = sent_count w
    /\ counter f u dev (today w1) w' = counter f u dev (today w1) w + 1.
Proof.
  intros Hr Hc Hu w1 f s Hpass Hone Hrej.
  rewrite (sendMessage_metered dev to text mt info u w Hc (Hr _) Hu). fold w1.
  destruct (after_lookup_ok dev w (Hr _)) as (_ & Henv & Htr & Hs & _).
  fold w1 in Henv, Htr, Hs.
  assert (Hd1 : db w1 = db w).
  { unfold w1, after_lookup. rewrite (pool_query_ok _ w (Hr _)). reflexivity. }
  assert (Hr1 : forall n, fault_at (env w1) n = None) by (intro; rewrite Henv; apply Hr).
  set (ty := message_type (mkSendOptions false mt)) in *.
  destruct (quota_reserved u dev ty w1)
    as (s' & w' & E & Hrows & _); try apply Hr1; try assumption.
  pose proof (checkAndUpdateUsage_keeps_sends u dev ty w1) as Ks.
  pose proof (checkAndUpdateUsage_keeps_env u dev ty w1) as Ke.
  pose proof (checkAndUpdateUsage_keeps_sent u dev ty w1) as Kt.
  cbn beta in Ks, Ke, Kt. rewrite E in Ks, Ke, Kt. cbn [snd] in Ks, Ke, Kt.
  rewrite E. cbn [allowed].
  replace (send_outcome (env w') (sends w')) with (SendRejected m)
    by (rewrite <- Hrej; congruence).
  eexists. split; [reflexivity|]. split.
  - unfold sent_count in *. cbn. rewrite filter_app, length_app. cbn.
    rewrite Kt. rewrite Htr. lia.
  - unfold counter. cbn. rewrite Hrows, Hd1. fold f.
    apply counter_reserved. exact Hone.
Qed.

Lemma rejected_send_consumes_quota_witness :
  exists w',
    sendMessage 10 "6281" "halo" no_options w_first_rejected = (Throw (Error "invalid wid"), w')
    /\ sent_count w' = sent_count w_first_rejected
    /\ counter f_messages_sent 1 10 0 w' = counter f_messages_sent 1 10 0 w_first_rejected + 1.
Proof.
  apply (rejected_send_consumes_quota 10 "6281" "halo" None true 1 "invalid wid"
           w_first_rejected).
  - intro n. reflexivity.
  - reflexivity.
  - reflexivity.
  - right. vm_compute. reflexivity.
  - unfold one_row. simpl. lia.
  - reflexivity.
Defined.

(** X10.  A device whose owner cannot be read (no row, no user_id, or
    user_id 0) sends un-metered: the message goes to the transport after
    the one lookup statement, and the usage table is untouched. *)
Theorem unowned_device_is_not_metered dev to text o info w :
  clients_get (clients w) dev = Some info ->
  fault_at (env w) (queries w) = None ->
  device_user dev w = None ->
  exists w',
    sendMessage dev to text o w =
      (match send_outcome (env w) (sends w) with
       | SendOk mid ts => Ok (mkSendResult mid ts)
       | SendRejected m => Throw (Error m)
       end, w')
    /\ daily_usage (db w') = daily_usage (db w)
    /\ queries w' = S (queries w)
    /\ sends w' = S (sends w).
Proof.
  intros Hc Hq Hu.
  unfold sendMessage, bind, gets, try_catch, ret, throw, console_error, modify,
    client_sendMessage.
  cbn [fst snd]. rewrite Hc. rewrite (pool_query_ok _ w Hq).
  unfold device_user in Hu.
  change (fst (select_device_user dev (now w) (db w)))
    with (fst (select_device_user dev 0 (db w))).
  rewrite Hu. cbn.
  destruct (send_outcome (env w) (sends w)); cbn;
    eexists; repeat split; reflexivity.
Qed.

Lemma unowned_device_is_not_metered_witness :
  exists w',
    sendMessage 12 "6281" "halo" no_options w_unowned = (Ok (mkSendResult "wamid" 0), w')
    /\ daily_usage (db w') = daily_usage (db w_unowned)
    /\ queries w' = 1%nat
    /\ sends w' = 1%nat.
Proof.
  apply (unowned_device_is_not_metered 12 "6281" "halo" no_options true w_unowned);
    reflexivity.
Defined.

Lemma includes_prefix s t : prefix t s = true -> JsString.includes s t = true.
Proof. intro H. destruct s; cbn [JsString.includes]; rewrite H; reflexivity. Qed.

Lemma includes_append s t p :
  JsString.includes t p = true -> JsString.includes (s ++ t) p = true.
Proof.
  intro H. induction s as [|c s IH]; [exact H|].
  cbn [append JsString.includes]. rewrite IH. apply orb_true_r.
Qed.

Lemma digit_not_at c : is_digit c = true -> c <> "@"%char.
Proof. intros H ->. discriminate. Qed.

Lemma digits_only_no_at s : JsString.includes (digits_only s) "@" = false.
Proof.
  induction s as [|c s IH]; [reflexivity|].
  cbn [digits_only]. destruct (is_digit c) eqn:E; [|exact IH].
  cbn [JsString.includes prefix]. rewrite IH.
  destruct (ascii_dec "@" c) as [<-|_]; [discriminate|reflexivity].
Qed.

Lemma digits_only_idem s : digits_only (digits_only s) = digits_only s.
Proof.
  induction s as [|c s IH]; [reflexivity|].
  cbn [digits_only]. destruct (is_digit c) eqn:E; [|exact IH].
  cbn [digits_only]. rewrite E, IH. reflexivity.
Qed.

(** X11.  The chat id [sendMessage] addresses always carries an '@' and is
    a fixed point of the formatting; a number without '@' is reduced to its
    digits, so a number written with punctuation and its bare digits
    address the same chat. *)
Theorem format_number_canonical to :
  JsString.includes (format_number to) "@" = true
  /\ format_number (format_number to) = format_number to
  /\ (JsString.includes to "@" = false ->
      format_number to = (digits_only to ++ "@c.us")%string
      /\ format_number (digits_only to) = format_number to).
Proof.
  assert (H1 : JsString.includes (format_number to) "@" = true).
  { unfold format_number. destruct (JsString.includes to "@") eqn:E; [exact E|].
    apply includes_append. reflexivity. }
  split; [exact H1|]. split.
  - unfold format_number at 1. rewrite H1. reflexivity.
  - intro E. unfold format_number. rewrite E, digits_only_no_at, digits_only_idem.
    split; reflexivity.
Qed.

(** ** BroadcastRunner: failures and metering *)

Lemma broadcast_turn_total dev u date text options s n i r results w :
  exists extra w',
    broadcast_turn dev u date text options s n i r results w = (Ok (results ++ extra), w')
    /\ (1 <= List.length extra <= 2)%nat
    /\ Forall (fun b => recipient b = r) extra.
Proof.
  unfold broadcast_turn, try_catch, bind.
  destruct (sendMessage dev r text _ w) as [[result|e] w1].
  - match goal with |- context [pool_query ?q w1] =>
      destruct (pool_query_cases q w1) as [[m ->] | ->] end.
    + eexists [_; _]. eexists. rewrite <- app_assoc. cbn. split; [reflexivity|].
      split; [lia|]. repeat constructor.
    + destruct (i <? n - 1); cbn;
        (eexists [_]; eexists; split; [reflexivity|]; split; [cbn; lia|repeat constructor]).
  - eexists [_]. eexists. cbn. split; [reflexivity|]. split; [lia|repeat constructor].
Qed.

Lemma broadcast_loop_total dev u date text options s n rest : forall i results w,
  exists extra w',
    broadcast_loop dev u date text options s n i rest results w = (Ok (results ++ extra), w')
    /\ (List.length rest <= List.length extra <= 2 * List.length rest)%nat
    /\ (forall x, In x rest <-> In x (map recipient extra)).
Proof.
  induction rest as [|r rest IH]; intros i results w.
  - exists [], w. cbn. rewrite app_nil_r. split; [reflexivity|]. split; [lia|tauto].
  - cbn [broadcast_loop]. unfold bind.
    destruct (broadcast_turn_total dev u date text options s n i r results w)
      as (e1 & w1 & -> & Hlen & Hr).
    destruct (IH (i + 1) (results ++ e1) w1) as (e2 & w2 & -> & Hlen2 & Hin).
    exists (e1 ++ e2), w2. rewrite app_assoc. split; [reflexivity|].
    rewrite length_app. cbn [List.length]. split; [lia|].
    intro x. rewrite map_app, in_app_iff. cbn [In]. rewrite Hin.
    split.
    + intros [<- | H]; [left | right; exact H].
      destruct e1 as [|b e1]; [cbn in Hlen; lia|].
      left. inversion Hr; subst. reflexivity.
    + intros [H | H]; [left | right; exact H].
      apply in_map_iff in H. destruct H as (b & <- & Hb).
      rewrite Forall_forall in Hr. symmetry. apply Hr. exact Hb.
Qed.

(** X12.  [sendBroadcast] throws only before its loop starts: when it
    throws, nothing was sent and the usage table is as it was.  Once the
    loop runs no failure aborts it: the call returns, every recipient has
    at least one entry in the results, and at most two (the success and a
    failure, when the counter statement fails after the send). *)
Theorem broadcast_fails_only_before_sending dev recipients text options w :
  match sendBroadcast dev recipients text options w with
  | (Throw _, w') =>
      sends w' = sends w /\ trace w' = trace w
      /\ daily_usage (db w') = daily_usage (db w)
  | (Ok results, _) =>
      (List.length recipients <= List.length results <= 2 * List.length recipients)%nat
      /\ (forall r, In r recipients <-> In r (map recipient results))
  end.
Proof.
  unfold sendBroadcast. unfold bind at 1.
  destruct (pool_query_cases (select_device_user dev) w) as [[m ->] | ->].
  { repeat split; reflexivity. }
  cbn [fst snd select_device_user].
  destruct (truthy_id _) as [u|]; [|repeat split; reflexivity].
  unfold bind at 1.
  match goal with |- context [getUserSettings u ?x] => set (w1 := x) end.
  rewrite (getUserSettings_run u w1).
  set (s := settings_in_effect u w1). set (w2 := snd (getUserSettings u w1)).
  assert (P2 : sends w2 = sends w /\ trace w2 = trace w
               /\ daily_usage (db w2) = daily_usage (db w)).
  { unfold w2. rewrite getUserSettings_sends, getUserSettings_trace, getUserSettings_usage.
    repeat split; reflexivity. }
  destruct (enable_rate_limiting s && _); [exact P2|].
  unfold bind at 1. unfold gets at 1. unfold bind at 1.
  destruct (pool_query_cases (select_total u (today w2)) w2) as [[m ->] | ->].
  { exact P2. }
  cbn [fst snd select_total].
  destruct (enable_rate_limiting s && _); [exact P2|].
  match goal with |- context [broadcast_loop ?a ?b ?c ?d ?e ?f ?g ?h ?i ?j ?k] =>
    destruct (broadcast_loop_total a b c d e f g i h j k) as (extra & w' & -> & Hlen & Hin) end.
  cbn [app]. split; assumption.
Qed.

Lemma existsb_filter_length {A} (p : A -> bool) l :
  existsb p l = true -> (1 <= List.length (filter p l))%nat.
Proof.
  induction l as [|x l IH]; cbn; [discriminate|].
  destruct (p x); cbn; [lia|exact IH].
Qed.

Lemma existsb_filter_nil {A} (p : A -> bool) l :
  existsb p l = false -> filter p l = [].
Proof.
  induction l as [|x l IH]; cbn; [reflexivity|].
  destruct (p x); cbn; [discriminate|exact IH].
Qed.

Lemma filter_filter_sub {A} (p q : A -> bool) l :
  (forall x, p x = true -> q x = true) ->
  filter p (filter q l) = filter p l.
Proof.
  intro H. induction l as [|x l IH]; cbn; [reflexivity|].
  destruct (q x) eqn:Eq; cbn.
  - rewrite IH. reflexivity.
  - destruct (p x) eqn:Ep; [|exact IH]. rewrite (H x Ep) in Eq. discriminate.
Qed.

Lemma key_in_day u d date r :
  usage_key u d date r = true -> (u_user r =? u) && (u_date r =? date) = true.
Proof.
  unfold usage_key. intro H. apply andb_true_iff in H. destruct H as [H H3].
  apply andb_true_iff in H. destruct H as [H1 H2]. rewrite H1, H3. reflexivity.
Qed.

Lemma day_bump f u date r :
  (u_user (bump f r) =? u) && (u_date (bump f r) =? date) =
  (u_user r =? u) && (u_date r =? date).
Proof. destruct f; reflexivity. Qed.

Lemma upsert_broadcast_rows u d date t db0 :
  daily_usage (snd (upsert_broadcast u d date t db0)) =
  if existsb (usage_key u d date) (daily_usage db0)
  then bumped f_broadcasts_sent u d date (daily_usage db0)
  else daily_usage db0 ++ [mkUsage u d date 0 1 0].
Proof.
  unfold upsert_broadcast. destruct (existsb _ _); reflexivity.
Qed.

Lemma upsert_broadcast_total u d date t db0 :
  (List.length (filter (usage_key u d date) (daily_usage db0)) <= 1)%nat ->
  let l' := daily_usage (snd (upsert_broadcast u d date t db0)) in
  sum_of messages_sent (rows_of_day u date l') =
    sum_of messages_sent (rows_of_day u date (daily_usage db0))
  /\ sum_of broadcasts_sent (rows_of_day u date l') =
     sum_of broadcasts_sent (rows_of_day u date (daily_usage db0)) + 1.
Proof.
  intros Hone l'. subst l'. rewrite upsert_broadcast_rows.
  destruct (existsb (usage_key u d date) (daily_usage db0)) eqn:E.
  - unfold rows_of_day.
    rewrite (filter_bumped f_broadcasts_sent u d date _ _ (day_bump f_broadcasts_sent u date)).
    split.
    + apply (sum_of_bumped_other f_broadcasts_sent f_messages_sent). discriminate.
    + change broadcasts_sent with (field_of f_broadcasts_sent).
      rewrite sum_of_bumped_same.
      rewrite (filter_filter_sub _ _ _ (key_in_day u d date)).
      pose proof (existsb_filter_length _ _ E). lia.
  - unfold rows_of_day. rewrite filter_app, !sum_of_app. cbn.
    rewrite !Z.eqb_refl. cbn. split; lia.
Qed.

Lemma upsert_broadcast_unique u d date t db0 :
  (forall u' d' date',
     (List.length (filter (usage_key u' d' date') (daily_usage db0)) <= 1)%nat) ->
  forall u' d' date',
    (List.length (filter (usage_key u' d' date')
                    (daily_usage (snd (upsert_broadcast u d date t db0)))) <= 1)%nat.
Proof.
  intros Hu u' d' date'. rewrite upsert_broadcast_rows.
  destruct (existsb (usage_key u d date) (daily_usage db0)) eqn:E.
  - rewrite (filter_bumped f_broadcasts_sent u d date _ _
               (fun r => usage_key_bump f_broadcasts_sent r u' d' date')).
    unfold bumped. rewrite length_map. apply Hu.
  - rewrite filter_app, length_app. cbn.
    destruct (usage_key u' d' date' (mkUsage u d date 0 1 0)) eqn:K; cbn.
    + unfold usage_key in K. cbn in K.
      apply andb_true_iff in K. destruct K as [K K3].
      apply andb_true_iff in K. destruct K as [K1 K2].
      apply Z.eqb_eq in K1, K2, K3. subst u' d' date'.
      rewrite (existsb_filter_nil _ _ E). cbn. lia.
    + specialize (Hu u' d' date'). lia.
Qed.

Lemma sendMessage_skip_usage dev to text mt :
  keeps (fun w => daily_usage (db w)) (sendMessage dev to text (mkSendOptions true mt)).
Proof. unfold sendMessage. cbn [skipRateLimit]. unfold console_error. keeps_all. Qed.

Lemma broadcast_turn_usage dev u date text options s n i r results info w :
  reliable w ->
  clients_get (clients w) dev = Some info ->
  usage_unique w ->
  let w' := snd (broadcast_turn dev u date text options s n i r results w) in
  usage_unique w'
  /\ total_sent u date w' = total_sent u date w + hit (send_outcome (env w) (sends w)).
Proof.
  intros Hrel Hc Hu.
  destruct (sendMessage_skip dev r text (Some "broadcast") info w Hc (Hrel _))
    as (w1 & Hrun & _ & Henv & _).
  pose proof (sendMessage_skip_usage dev r text (Some "broadcast") w) as Hdb.
  cbn beta in Hdb. rewrite Hrun in Hdb. cbn [snd] in Hdb.
  unfold broadcast_turn, try_catch, bind. rewrite Hrun.
  destruct (send_outcome (env w) (sends w)) as [mid ts|m] eqn:Ho.
  - rewrite pool_query_ok by (rewrite Henv; apply Hrel).
    assert (Hone : forall u' d' date',
              (List.length (filter (usage_key u' d' date') (daily_usage (db w1))) <= 1)%nat).
    { intros. rewrite Hdb. apply Hu. }
    pose proof (upsert_broadcast_total u dev date (now w1) (db w1) (Hone _ _ _)) as [Tm Tb].
    pose proof (upsert_broadcast_unique u dev date (now w1) (db w1) Hone) as Un.
    rewrite Hdb in Tm, Tb.
    assert (G : forall wx,
              daily_usage (db wx) =
                daily_usage (snd (upsert_broadcast u dev date (now w1) (db w1))) ->
              usage_unique wx /\ total_sent u date wx = total_sent u date w + 1).
    { intros wx E. split.
      - intros u' d' date'. unfold one_row. rewrite E. apply Un.
      - unfold total_sent. rewrite E, Tm, Tb. lia. }
    destruct (i <? n - 1); cbn; apply G; reflexivity.
  - cbn. split.
    + intros u' d' date'. unfold one_row. rewrite Hdb. apply Hu.
    + unfold total_sent. rewrite Hdb. cbn. lia.
Qed.

Lemma broadcast_loop_usage dev u date text options s n rest : forall w i results info,
  reliable w ->
  clients_get (clients w) dev = Some info ->
  usage_unique w ->
  let w' := snd (broadcast_loop dev u date text options s n i rest results w) in
  total_sent u date w' =
  total_sent u date w +
  Z.of_nat (List.length (filter success (expected_results (env w) (sends w) rest))).
Proof.
  induction rest as [|r rest IH]; intros w i results info Hrel Hc Hu.
  - cbn. lia.
  - cbn [broadcast_loop]. unfold bind.
    destruct (broadcast_turn_run dev u date text options s n i r results info w Hrel Hc)
      as (w1 & Hrun & _ & Henv & Hcl & Hs).
    destruct (broadcast_turn_usage dev u date text options s n i r results info w Hrel Hc Hu)
      as [Hu1 Ht1].
    rewrite Hrun in Hu1, Ht1 |- *. cbn [snd] in Hu1, Ht1.
    assert (Hrel1 : reliable w1) by (intro k; rewrite Henv; apply Hrel).
    assert (Hc1 : clients_get (clients w1) dev = Some info) by (rewrite Hcl; exact Hc).
    cbn zeta in IH. rewrite (IH w1 (i + 1) _ info Hrel1 Hc1 Hu1).
    rewrite Ht1, Henv, Hs. cbn [expected_results filter].
    unfold hit. destruct (send_outcome (env w) (sends w)); cbn [attempt_result success accepted];
      cbn [List.length]; lia.
Qed.

Lemma filter_length_le {A} (p : A -> bool) l :
  (List.length (filter p l) <= List.length l)%nat.
Proof. induction l as [|x l IH]; cbn; [lia|]. destruct (p x); cbn; lia. Qed.

(** X13.  With a store that works and a usage table that respects its key,
    a broadcast that passes the pre-flight raises the user's total of the
    day by the number of recipients the transport accepted, no more; with
    rate limiting enabled the total is still within the limit afterwards. *)
Theorem broadcast_counts_accepted_sends dev recipients text options u info w :
  reliable w ->
  clients_get (clients w) dev = Some info ->
  device_user dev w = Some u ->
  usage_unique w ->
  let s := settings_in_effect u (after_lookup dev w) in
  let w2 := snd (getUserSettings u (after_lookup dev w)) in
  let n := Z.of_nat (List.length recipients) in
  let remaining := daily_message_limit s - total_sent u (today w2) w2 in
  enable_rate_limiting s = false \/
  (n <= max_broadcast_recipients s /\ n <= remaining) ->
  exists results w',
    sendBroadcast dev recipients text options w = (Ok results, w')
    /\ total_sent u (today w2) w' =
       total_sent u (today w2) w + Z.of_nat (List.length (filter success results))
    /\ (enable_rate_limiting s = true ->
        total_sent u (today w2) w' <= daily_message_limit s).
Proof.
  intros Hrel Hc Hdev Hu s w2 n remaining Hpass.
  destruct (after_lookup_ok dev w (Hrel _)) as (_ & Henv1 & _ & Hs1 & Hc1).
  assert (Hd1 : daily_usage (db (after_lookup dev w)) = daily_usage (db w)).
  { unfold after_lookup. rewrite (pool_query_ok _ w (Hrel _)). reflexivity. }
  assert (Hs2 : sends w2 = sends w) by (unfold w2; rewrite getUserSettings_sends; exact Hs1).
  assert (Henv2 : env w2 = env w) by (unfold w2; rewrite getUserSettings_env; exact Henv1).
  assert (Hc2 : clients w2 = clients w) by (unfold w2; rewrite getUserSettings_clients; exact Hc1).
  assert (Hd2 : daily_usage (db w2) = daily_usage (db w)).
  { unfold w2. rewrite getUserSettings_usage. exact Hd1. }
  assert (Ht2 : total_sent u (today w2) w2 = total_sent u (today w2) w).
  { unfold total_sent. rewrite Hd2. reflexivity. }
  rewrite (sendBroadcast_preflight dev recipients text options u w (Hrel _) Hdev).
  fold s. fold w2. fold n.
  assert (Hq2 : fault_at (env w2) (queries w2) = None) by (rewrite Henv2; apply Hrel).
  rewrite (pool_query_ok _ w2 Hq2). cbn [fst snd select_total].
  fold (total_sent u (today w2) w2). fold remaining.
  replace (enable_rate_limiting s && (n >? max_broadcast_recipients s)) with false.
  2:{ symmetry. destruct Hpass as [->|[Hmax _]]; [reflexivity|].
      apply andb_false_iff. right. rewrite Z.gtb_ltb. apply Z.ltb_ge. lia. }
  replace (enable_rate_limiting s && (n >? remaining)) with false.
  2:{ symmetry. destruct Hpass as [->|[_ Hrem]]; [reflexivity|].
      apply andb_false_iff. right. rewrite Z.gtb_ltb. apply Z.ltb_ge. lia. }
  set (w3 := with_db _ _).
  assert (Hrel3 : reliable w3) by (intro k; unfold w3; cbn; rewrite Henv2; apply Hrel).
  assert (Hc3 : clients_get (clients w3) dev = Some info)
    by (unfold w3; cbn; rewrite Hc2; exact Hc).
  assert (Hu3 : usage_unique w3).
  { intros u' d' date'. unfold one_row, w3. cbn. rewrite Hd2. apply Hu. }
  destruct (broadcast_loop_run dev u (today w2) text options s n recipients w3 0 [] info
              Hrel3 Hc3) as (w' & Hloop & _).
  { unfold n. lia. }
  pose proof (broadcast_loop_usage dev u (today w2) text options s n recipients w3 0 [] info
                Hrel3 Hc3 Hu3) as Htot.
  cbn zeta in Htot. rewrite Hloop in Htot |- *. cbn [snd app] in Htot |- *.
  assert (Ht3 : total_sent u (today w2) w3 = total_sent u (today w2) w).
  { unfold total_sent, w3. cbn. rewrite Hd2. reflexivity. }
  do 2 eexists. split; [reflexivity|]. rewrite Htot, Ht3. split; [reflexivity|].
  intro Hen. destruct Hpass as [Hoff|[_ Hrem]]; [congruence|].
  pose proof (filter_length_le success
                (expected_results (env w3) (sends w3) recipients)) as Hle.
  assert (Hlen : List.length (expected_results (env w3) (sends w3) recipients) =
                 List.length recipients).
  { rewrite <- (length_map recipient), expected_results_recipients. reflexivity. }
  unfold remaining in Hrem. rewrite Ht2 in Hrem. unfold n in Hrem. lia.
Qed.

Lemma broadcast_counts_accepted_sends_witness :
  exists results w',
    sendBroadcast 10 ["6281"; "6282"; "6283"] "halo" no_options w_first_rejected =
      (Ok results, w')
    /\ total_sent 1 0 w' =
       total_sent 1 0 w_first_rejected + Z.of_nat (List.length (filter success results))
    /\ total_sent 1 0 w' <= 200.
Proof.
  destruct (broadcast_counts_accepted_sends 10 ["6281"; "6282"; "6283"] "halo" no_options
              1 true w_first_rejected) as (results & w' & E & Ht & Hl).
  - intro k. reflexivity.
  - reflexivity.
  - reflexivity.
  - intros u d date. unfold one_row. simpl. lia.
  - right. vm_compute. split; discriminate.
  - exists results, w'. split; [exact E|]. split; [exact Ht|]. apply Hl. reflexivity.
Defined.

(** ** AutoReplyCascade: what the handler never does *)

Lemma never_throws_bind {A B} (m : M A) (k : A -> M B) :
  never_throws m -> (forall a, never_throws (k a)) -> never_throws (bind m k).
Proof.
  intros Hm Hk w. unfold bind. destruct (Hm w) as [a Ha].
  destruct (m w) as [[a'|e] w1]; cbn in Ha; [|discriminate].
  apply Hk.
Qed.

Lemma never_throws_ret {A} (a : A) : never_throws (ret a).
Proof. intro w. exists a. reflexivity. Qed.

Lemma never_throws_modify f : never_throws (modify f).
Proof. intro w. exists tt. reflexivity. Qed.

Lemma never_throws_saveMessage msg dev b : never_throws (saveMessage msg dev b).
Proof. unfold saveMessage. apply never_throws_try. intro. apply never_throws_console. Qed.

Lemma never_throws_checkAutoReply msg dev : never_throws (checkAutoReply msg dev).
Proof.
  unfold checkAutoReply, entered.
  apply never_throws_bind; [apply never_throws_modify|]. intros _.
  destruct (fromMe msg); [apply never_throws_ret|].
  apply never_throws_try. intro.
  apply never_throws_bind; [apply never_throws_console|]. intro. apply never_throws_ret.
Qed.

Lemma never_throws_checkAIAutoReply msg dev u : never_throws (checkAIAutoReply msg dev u).
Proof.
  unfold checkAIAutoReply, entered.
  apply never_throws_bind; [apply never_throws_modify|]. intros _.
  destruct (fromMe msg); [apply never_throws_ret|].
  destruct (_ || _); [apply never_throws_ret|].
  apply never_throws_try. intro. unfold send_fallback.
  apply never_throws_bind; [apply never_throws_console|]. intro.
  apply never_throws_try. intro. apply never_throws_console.
Qed.

(** X14.  Whatever the store, the transport and the provider answer,
    [handleIncomingMessage] returns: no failure of a collaborator reaches
    the caller, and the 'message' event is the last thing it emits. *)
Theorem inbound_handler_never_throws msg dev u w :
  exists w1,
    handleIncomingMessage msg dev u w =
      (Ok tt, with_trace (fun t => t ++ [EvEmit u "message"]) w1).
Proof.
  unfold handleIncomingMessage.
  assert (H : never_throws
                (saveMessage msg dev false ;;
                 autoReplied <- checkAutoReply msg dev ;;
                 (if negb autoReplied then checkAIAutoReply msg dev u else ret tt))).
  { apply never_throws_bind; [apply never_throws_saveMessage|]. intros _.
    apply never_throws_bind; [apply never_throws_checkAutoReply|]. intro b.
    destruct (negb b); [apply never_throws_checkAIAutoReply|apply never_throws_ret]. }
  destruct (H w) as [[] Hr]. revert Hr. unfold bind.
  destruct (saveMessage msg dev false w) as [[[]|e] w1]; [|discriminate].
  destruct (checkAutoReply msg dev w1) as [[b|e] w2]; [|discriminate].
  destruct (if negb b then _ else _) as [[[]|e] w3] eqn:E; cbn [fst]; [|discriminate].
  intros _. exists w3. reflexivity.
Qed.

(** X15.  For a body, a keyword list and an exclusion list of ASCII text,
    when the settings statement succeeds: [checkAIAutoReply] does nothing at
    all unless the message is inbound, its body is not blank and the
    device's AI settings pass every gate: the provider is not called,
    nothing is sent, no table changes. *)
Theorem ai_not_consulted_unless_due msg dev u w :
  fault_at (env w) (queries w) = None ->
  gates_ascii msg dev w = true ->
  ai_reply_due msg dev w = false ->
  exists w',
    checkAIAutoReply msg dev u w = (Ok tt, w')
    /\ completions w' = completions w /\ sends w' = sends w
    /\ trace w' = trace w /\ db w' = db w.
Proof.
  intros Hq _ Hdue. unfold ai_reply_due in Hdue.
  unfold checkAIAutoReply, entered, bind, modify. cbn [fst snd].
  destruct (fromMe msg).
  { eexists. split; [reflexivity|]. repeat split; reflexivity. }
  destruct (negb (JsString.truthy (msg_body msg)) || _).
  { eexists. split; [reflexivity|]. repeat split; reflexivity. }
  cbn [negb andb] in Hdue.
  unfold try_catch, bind.
  rewrite pool_query_ok by exact Hq.
  cbn [fst snd select_ai_settings db with_calls] in Hdue |- *.
  destruct (filter _ (ai_settings (db w))) as [|st rows].
  { eexists. split; [reflexivity|]. repeat split; reflexivity. }
  rewrite Hdue. eexists. split; [reflexivity|]. repeat split; reflexivity.
Qed.

Lemma ai_not_consulted_unless_due_witness :
  exists w',
    checkAIAutoReply (inbound "   ") 10 1 w_exhausted = (Ok tt, w')
    /\ completions w' = completions w_exhausted /\ sends w' = sends w_exhausted
    /\ trace w' = trace w_exhausted /\ db w' = db w_exhausted.
Proof.
  apply (ai_not_consulted_unless_due (inbound "   ") 10 1 w_exhausted); reflexivity.
Defined.

(** X16.  A message the device wrote itself gets no reply: the handler
    sends nothing, calls no provider, counts nothing and records no turn;
    it only emits the 'message' event. *)
Theorem own_messages_get_no_reply msg dev u w :
  fromMe msg = true ->
  exists w',
    handleIncomingMessage msg dev u w = (Ok tt, w')
    /\ trace w' = trace w ++ [EvEmit u "message"]
    /\ sends w' = sends w /\ completions w' = completions w
    /\ daily_usage (db w') = daily_usage (db w)
    /\ ai_conversations (db w') = ai_conversations (db w).
Proof.
  intro Hme.
  destruct (saveMessage_frame msg dev false w)
    as (Hok & _ & _ & Hs & Ht & _ & Hc & _ & Hu & Hconv & _).
  unfold handleIncomingMessage, bind.
  destruct (saveMessage msg dev false w) as [[[]|e] w1]; cbn [fst snd] in *; [|discriminate].
  unfold checkAutoReply, checkAIAutoReply, entered, bind, modify, io_emit. cbn [fst snd].
  rewrite Hme. cbn. eexists. split; [reflexivity|]. cbn.
  rewrite Ht, Hs, Hc, Hu, Hconv. repeat split; reflexivity.
Qed.

Lemma own_messages_get_no_reply_witness :
  exists w',
    handleIncomingMessage (mkMsg "3EB1" "6281@c.us" "hi there" true false None) 10 1 w_rules =
      (Ok tt, w')
    /\ trace w' = trace w_rules ++ [EvEmit 1 "message"]
    /\ sends w' = sends w_rules.
Proof.
  destruct (own_messages_get_no_reply (mkMsg "3EB1" "6281@c.us" "hi there" true false None)
              10 1 w_rules eq_refl) as (w' & E & Ht & Hs & _).
  exists w'. split; [exact E|]. split; assumption.
Defined.

Lemma includes_empty s : JsString.includes s "" = true.
Proof. destruct s; reflexivity. Qed.

Lemma split_onto_trailing sep s : forall cur,
  In "" (JsString.split_onto sep (s ++ String sep "") cur).
Proof.
  induction s as [|c s IH]; intro cur.
  - cbn. rewrite Ascii.eqb_refl. right. left. reflexivity.
  - cbn [append JsString.split_onto]. destruct (Ascii.eqb c sep).
    + right. apply IH.
    + apply IH.
Qed.

Lemma trailing_comma_item items sender text :
  is_excluded (items ++ ",") sender = true
  /\ has_keyword (items ++ ",") text = true.
Proof.
  split.
  - unfold is_excluded. apply existsb_exists. exists "". split.
    + apply in_map_iff. exists "". split; [reflexivity|].
      apply split_onto_trailing.
    + apply includes_empty.
  - unfold has_keyword. apply existsb_exists. exists "". split.
    + apply in_map_iff. exists "". split; [reflexivity|].
      apply split_onto_trailing.
    + apply includes_empty.
Qed.

(** X17.  An empty item in a comma-separated list matches everything: with
    a trailing comma [excluded_contacts] excludes every sender, so the gates
    of the AI reply are closed for every message, and [only_when_contains]
    lets every message through. *)
Theorem trailing_comma_matches_everyone items sender text :
  is_excluded (items ++ ",") sender = true
  /\ has_keyword (items ++ ",") text = true
  /\ (forall st msg,
        excluded_contacts st = Some (items ++ ",")%string ->
        ai_gates st msg = false).
Proof.
  destruct (trailing_comma_item items sender text) as [H1 H2].
  split; [exact H1|]. split; [exact H2|].
  intros st msg He. unfold ai_gates. rewrite He.
  destruct (negb (is_enabled st) || _); [reflexivity|].
  destruct (JsString.includes (from msg) "@g.us" && ignore_groups st); [reflexivity|].
  assert (Ht : truthy_text (Some (items ++ ",")%string) = Some (items ++ ",")%string).
  { destruct items; reflexivity. }
  rewrite Ht.
  rewrite (proj1 (trailing_comma_item items (from msg) text)). reflexivity.
Qed.

Lemma prefix_self s : prefix s s = true.
Proof.
  induction s as [|c s IH]; [reflexivity|]. cbn.
  destruct (ascii_dec c c); [exact IH|contradiction].
Qed.

Lemma substring_all s : substring 0 (String.length s) s = s.
Proof. induction s as [|c s IH]; [reflexivity|]. cbn. rewrite IH. reflexivity. Qed.

Lemma endsWith_self s : JsString.endsWith s s = true.
Proof.
  unfold JsString.endsWith. rewrite Nat.leb_refl, Nat.sub_diag, substring_all.
  apply String.eqb_refl.
Qed.

Lemma substring_prefix t : forall s,
  substring 0 (String.length t) s = t -> prefix t s = true.
Proof.
  induction t as [|c t IH]; intros s H; [destruct s; reflexivity|].
  destruct s as [|c' s]; [discriminate|]. cbn in H. injection H as -> H.
  cbn. destruct (ascii_dec c c); [apply IH; exact H|contradiction].
Qed.

Lemma substring_includes t : forall n s,
  substring n (String.length t) s = t -> JsString.includes s t = true.
Proof.
  induction n as [|n IH]; intros s H.
  - apply includes_prefix, substring_prefix. exact H.
  - destruct s as [|c s].
    + cbn in H. subst t. reflexivity.
    + cbn [substring] in H. cbn [JsString.includes]. rewrite (IH s H). apply orb_true_r.
Qed.

(** X18.  The match types are ordered: a message an [exact] rule matches is
    matched by the [starts_with] and the [ends_with] rule of the same
    trigger, and whatever [starts_with] or [ends_with] matches, [contains]
    matches. *)
Theorem match_types_ordered id dev kw reply act text :
  let rule mt := mkAutoReply id dev kw (Some mt) reply act in
  (shouldReply (rule exact) text = true ->
   shouldReply (rule starts_with) text = true /\ shouldReply (rule ends_with) text = true)
  /\ (shouldReply (rule starts_with) text = true -> shouldReply (rule contains) text = true)
  /\ (shouldReply (rule ends_with) text = true -> shouldReply (rule contains) text = true).
Proof.
  intro rule. unfold shouldReply, rule. cbn [match_type trigger_keyword].
  set (b := JsString.toLowerCase text). set (k := JsString.toLowerCase kw).
  split; [|split].
  - intro H. apply String.eqb_eq in H. rewrite H. split.
    + apply prefix_self.
    + apply endsWith_self.
  - apply includes_prefix.
  - unfold JsString.endsWith.
    destruct (String.length k <=? String.length b)%nat; [|discriminate].
    intro H. apply String.eqb_eq in H. exact (substring_includes _ _ _ H).
Qed.

Lemma match_types_ordered_witness :
  shouldReply (mkAutoReply 2 10 "hi there" (Some starts_with) "Hi" true) "Hi There" = true
  /\ shouldReply (mkAutoReply 2 10 "hi there" (Some ends_with) "Hi" true) "Hi There" = true.
Proof.
  apply (proj1 (match_types_ordered 2 10 "hi there" "Hi" true "Hi There")). reflexivity.
Defined.

(** X19.  [saveMessage] never throws and stores a message once: when the
    (device, message id) is already there the table is unchanged, after a
    save that went through the key is there and saving again changes
    nothing; when the media download fails no statement is issued and the
    message is not stored, only logged. *)
Theorem saveMessage_stores_once msg dev b w :
  let w' := snd (saveMessage msg dev b w) in
  fst (saveMessage msg dev b w) = Ok tt
  /\ (existsb (message_key dev (msg_id msg)) (messages (db w)) = true ->
      messages (db w') = messages (db w))
  /\ (fault_at (env w) (queries w) = None ->
      (hasMedia msg = false \/ downloadMedia msg = None) ->
      existsb (message_key dev (msg_id msg)) (messages (db w')) = true
      /\ messages (db (snd (saveMessage msg dev b w'))) = messages (db w'))
  /\ (forall m, hasMedia msg = true -> downloadMedia msg = Some m ->
      w' = with_console (fun l => l ++ ["Error saving message:"]) w).
Proof.
  intro w'. subst w'.
  assert (Hex : forall d,
            existsb (message_key dev (msg_id msg)) (messages d) = true ->
            messages (snd (insert_message dev (msg_id msg) 0 d)) = messages d).
  { intros d H. unfold insert_message. fold (message_key dev (msg_id msg)).
    rewrite H. reflexivity. }
  assert (Hin : forall d,
            existsb (message_key dev (msg_id msg))
              (messages (snd (insert_message dev (msg_id msg) 0 d))) = true).
  { intro d. unfold insert_message. fold (message_key dev (msg_id msg)).
    destruct (existsb _ (messages d)) eqn:E; cbn; [exact E|].
    rewrite existsb_app. cbn. unfold message_key at 2. cbn.
    rewrite Z.eqb_refl, String.eqb_refl. cbn. apply orb_true_r. }
  assert (Hsame : forall x,
            existsb (message_key dev (msg_id msg)) (messages (db x)) = true ->
            messages (db (snd (saveMessage msg dev b x))) = messages (db x)).
  { intros x H. unfold saveMessage, try_catch, bind, ret, throw, console_error, modify.
    destruct (hasMedia msg); [destruct (downloadMedia msg)|]; cbn; try reflexivity;
      (match goal with |- context [pool_query ?q x] =>
         destruct (pool_query_cases q x) as [[m' ->] | ->] end; cbn;
       [reflexivity | apply Hex; exact H]). }
  split; [apply saveMessage_frame|]. split; [apply Hsame|]. split.
  - intros Hq Hmedia.
    assert (E : messages (db (snd (saveMessage msg dev b w))) =
                messages (snd (insert_message dev (msg_id msg) 0 (db w)))).
    { unfold saveMessage, try_catch, bind, ret, throw.
      destruct Hmedia as [-> | Hd].
      - rewrite (pool_query_ok _ w Hq). reflexivity.
      - rewrite Hd. destruct (hasMedia msg); rewrite (pool_query_ok _ w Hq); reflexivity. }
    assert (K : existsb (message_key dev (msg_id msg))
                  (messages (db (snd (saveMessage msg dev b w)))) = true).
    { rewrite E. apply Hin. }
    split; [exact K|]. apply Hsame. exact K.
  - intros m Hm Hd. unfold saveMessage, try_catch, bind, ret, throw, console_error, modify.
    rewrite Hm, Hd. reflexivity.
Qed.

Lemma saveMessage_stores_once_witness :
  let w' := snd (saveMessage (inbound "hi") 10 false w_calm) in
  messages (db w') = [(10, "3EB0")]
  /\ messages (db (snd (saveMessage (inbound "hi") 10 false w'))) = messages (db w').
Proof.
  destruct (saveMessage_stores_once (inbound "hi") 10 false w_calm) as (_ & _ & H & _).
  destruct (H eq_refl (or_introl eq_refl)) as [_ H2].
  split; [reflexivity|exact H2].
Defined.

(** ** ScheduledMessageRunner: bounds, batches and round trips *)

Lemma sendMessage_sent dev to text o :
  within sent_count at_most_one_more (sendMessage dev to text o).
Proof.
  unfold sendMessage.
  apply within_bind_left; [exact at_most_one_more_refl | keeps_all | intros [info|]];
    [|apply within_keeps; [exact at_most_one_more_refl | keeps_all]].
  apply within_bind_left; [exact at_most_one_more_refl | keeps_all | intro uid].
  apply within_bind_left; [exact at_most_one_more_refl | | intros _].
  { keeps_all. }
  apply within_try_right; [|intro; unfold console_error; keeps_all].
  apply within_bind_left; [exact at_most_one_more_refl | keeps_all | intro processed].
  apply within_bind_right; [|intro; keeps_all].
  apply one_shot_within, one_shot_client_sendMessage.
Qed.

Lemma process_row_sent m : within sent_count at_most_one_more (process_row m).
Proof.
  unfold process_row.
  apply within_try_right; [|intro; unfold console_error; keeps_all].
  apply within_bind_left; [exact at_most_one_more_refl | keeps_all | intro connected].
  destruct (negb connected); [apply within_keeps; [exact at_most_one_more_refl | keeps_all]|].
  apply within_bind_right; [apply sendMessage_sent | intro; keeps_all].
Qed.

Lemma process_rows_sent rows : forall w,
  (sent_count (snd (process_rows rows w)) <= sent_count w + List.length rows)%nat.
Proof.
  induction rows as [|m rows IH]; intro w; [cbn; lia|].
  cbn [process_rows List.length]. unfold bind.
  pose proof (process_row_sent m w) as H1. unfold at_most_one_more in H1.
  destruct (process_row m w) as [[[]|e] w1]; cbn [snd] in *.
  - specialize (IH w1). lia.
  - lia.
Qed.

(** X20.  One run of [processScheduledMessages] never throws and sends at
    most ten messages, whatever the table holds and whatever fails. *)
Theorem poll_sends_at_most_ten w :
  exists w',
    processScheduledMessages w = (Ok tt, w')
    /\ (sent_count w' <= sent_count w + 10)%nat.
Proof.
  unfold processScheduledMessages, try_catch, bind.
  destruct (pool_query_cases select_due w) as [(m & ->)| ->].
  { eexists. split; [reflexivity|]. cbn. unfold sent_count. cbn. lia. }
  cbn [fst].
  match goal with |- context [process_rows ?rows ?x] =>
    pose proof (process_rows_sent rows x) as H;
    assert (Hlen : (List.length rows <= 10)%nat) by (apply firstn_le_length);
    assert (Hx : sent_count x = sent_count w) by reflexivity;
    destruct (process_rows rows x) as [[[]|e] w2] end; cbn [snd] in H.
  - exists w2. split; [reflexivity|]. lia.
  - eexists. split; [reflexivity|]. unfold sent_count in *. cbn. lia.
Qed.

(** X21.  A poll touches the rows of its batch only (the ten earliest
    pending rows that are due): every other row, one that is not yet due,
    one beyond the ten, one in a final state, is in the table afterwards as
    it was. *)
Theorem poll_touches_its_batch_only row w :
  scheduled_wf w ->
  In row (scheduled_messages (db w)) ->
  ~ In row (fst (select_due (now w) (db w))) ->
  In row (scheduled_messages (db (snd (processScheduledMessages w)))).
Proof.
  intros Hwf Hin Hout.
  unfold processScheduledMessages, try_catch, bind.
  destruct (pool_query_cases select_due w) as [(m & ->)| ->]; [exact Hin|].
  cbn [fst].
  assert (Hids : forall m, In m (fst (select_due (now w) (db w))) -> s_id row <> s_id m).
  { intros m Hm Eid. pose proof Hm as Hm'. apply select_due_pending in Hm'.
    destruct Hm' as (Hm' & _).
    assert (row = m) by (apply (NoDup_map_inj s_id _ _ _ Hwf Hin Hm' Eid)).
    subst m. contradiction. }
  match goal with |- context [process_rows ?rows ?x] =>
    pose proof (process_rows_other rows row Hids x) as H;
    assert (Hx : In row (scheduled_messages (db x))) by exact Hin;
    destruct (process_rows rows x) as [[[]|e] w2] end; cbn [snd] in H |- *.
  - apply H. exact Hx.
  - cbn. apply H. exact Hx.
Qed.

Lemma poll_touches_its_batch_only_witness :
  In later_2 (scheduled_messages (db (snd (processScheduledMessages w_one_later)))).
Proof.
  apply (poll_touches_its_batch_only later_2 w_one_later).
  - unfold scheduled_wf. simpl. repeat constructor; simpl; intuition discriminate.
  - simpl. right. left. reflexivity.
  - vm_compute. intros [H|[]]. discriminate H.
Defined.

Lemma NoDup_snoc_fresh l (m : Scheduled) :
  NoDup (map s_id l) -> Forall (fun x => s_id x < s_id m) l ->
  NoDup (map s_id (l ++ [m])).
Proof.
  intros Hnd Hf. rewrite map_app. cbn.
  apply NoDup_app; [exact Hnd | repeat constructor; intros [] |].
  intros i Hi [<-|[]]. apply in_map_iff in Hi. destruct Hi as (x & E & Hx).
  rewrite Forall_forall in Hf. specialize (Hf x Hx). lia.
Qed.

(** X22.  Scheduling and cancelling compose: [scheduleMessage] stores a
    pending row under the next id; a cancel that names another device is
    refused and changes nothing; the cancel of the owning device returns
    the row as cancelled, and a poll that runs afterwards leaves it
    cancelled. *)
Theorem scheduled_then_cancelled dev to text at_ w :
  fault_at (env w) (queries w) = None ->
  fault_at (env w) (S (queries w)) = None ->
  scheduled_wf w ->
  scheduled_fresh w ->
  let m := mkScheduled (sched_seq (db w)) dev to text at_ pending None None in
  exists w1 w2,
    scheduleMessage dev to text at_ w = (Ok m, w1)
    /\ (forall dev', dev' <> dev ->
          exists w',
            cancelScheduledMessage (s_id m) dev' w1 = (Ok None, w')
            /\ scheduled_messages (db w') = scheduled_messages (db w1))
    /\ cancelScheduledMessage (s_id m) dev w1 = (Ok (Some (as_cancelled m)), w2)
    /\ In (as_cancelled m) (scheduled_messages (db w2))
    /\ In (as_cancelled m)
          (scheduled_messages (db (snd (processScheduledMessages w2)))).
Proof.
  intros H0 H1 Hwf Hfresh m.
  unfold scheduleMessage. rewrite (pool_query_ok _ w H0).
  cbn [fst snd insert_scheduled]. fold m.
  set (w1 := with_db _ _).
  assert (Ht1 : scheduled_messages (db w1) = scheduled_messages (db w) ++ [m]) by reflexivity.
  assert (Hq1 : fault_at (env w1) (queries w1) = None) by exact H1.
  assert (Hwf1 : scheduled_wf w1).
  { unfold scheduled_wf. rewrite Ht1. apply NoDup_snoc_fresh; [exact Hwf|exact Hfresh]. }
  assert (Hin1 : In m (scheduled_messages (db w1))).
  { rewrite Ht1. apply in_or_app. right. left. reflexivity. }
  exists w1. 
  assert (Hother : forall dev', dev' <> dev ->
            exists w',
              cancelScheduledMessage (s_id m) dev' w1 = (Ok None, w')
              /\ scheduled_messages (db w') = scheduled_messages (db w1)).
  { intros dev' Hne. apply cancel_not_pending; [exact Hq1|].
    intros x Hx Eid Edev.
    assert (x = m) by (apply (NoDup_map_inj s_id _ _ _ Hwf1 Hx Hin1 Eid)).
    subst x. cbn in Edev. congruence. }
  unfold cancelScheduledMessage at 2. rewrite (pool_query_ok _ w1 Hq1).
  destruct (cancel_hits_row as_cancelled _ m (fun _ => eq_refl) Hwf1 Hin1 eq_refl)
    as [E1 _].
  set (w2 := with_db _ _).
  assert (Hin2 : In (as_cancelled m) (scheduled_messages (db w2))).
  { unfold w2. cbn. apply in_map_iff. exists m. split; [|exact Hin1].
    cbn. rewrite !Z.eqb_refl. reflexivity. }
  assert (Hwf2 : scheduled_wf w2).
  { unfold scheduled_wf, w2. cbn. rewrite map_map.
    erewrite map_ext; [exact Hwf1|].
    intro x. cbn. destruct (_ && _); reflexivity. }
  exists w2. split; [reflexivity|]. split; [exact Hother|].
  split.
  { unfold cancel_pending. cbn [fst]. cbv zeta.
    change (fun m0 : Scheduled =>
              mkScheduled (s_id m0) (s_device m0) (to_number m0) (body m0)
                (scheduled_at m0) cancelled (sent_at m0) (error_message m0))
      with as_cancelled.
    cbn [s_id s_device m] in E1 |- *. rewrite E1. reflexivity. }
  split; [exact Hin2|].
  exact (terminal_rows_stay OpPoll w2 (as_cancelled m) Hwf2 Hin2 eq_refl).
Qed.

Lemma scheduled_then_cancelled_witness :
  let m := mkScheduled 4 10 "6284" "later" 5000 pending None None in
  exists w1 w2,
    scheduleMessage 10 "6284" "later" 5000 w_two_due = (Ok m, w1)
    /\ cancelScheduledMessage 4 10 w1 = (Ok (Some (as_cancelled m)), w2)
    /\ In (as_cancelled m) (scheduled_messages (db (snd (processScheduledMessages w2)))).
Proof.
  destruct (scheduled_then_cancelled 10 "6284" "later" 5000 w_two_due)
    as (w1 & w2 & E1 & _ & E2 & _ & Hin).
  - reflexivity.
  - reflexivity.
  - unfold scheduled_wf. simpl. repeat constructor; simpl; intuition discriminate.
  - unfold scheduled_fresh. simpl. repeat constructor.
  - exists w1, w2. split; [exact E1|]. split; [exact E2|exact Hin].
Defined.

(** X23.  A scheduled message that comes due when its owner's total has
    reached the limit is not deferred: the send is refused before the
    transport is called, and the row is marked failed with the quota error
    as its error message. *)
Theorem due_message_over_quota_is_failed m u w :
  reliable w ->
  In m (scheduled_messages (db w)) ->
  clients_get (clients w) (s_device m) = Some true ->
  device_user (s_device m) w = Some u ->
  let w1 := after_lookup (s_device m) w in
  let s := settings_in_effect u (after_read u (s_device m) (today w1) w1) in
  enable_rate_limiting s = true ->
  daily_message_limit s <= total_sent u (today w1) w1 ->
  exists m' w',
    process_row m w = (Ok tt, w')
    /\ find_scheduled (s_id m) w' = Some m'
    /\ status m' = failed
    /\ error_message m' = Some (quota_message (daily_message_limit s))
    /\ sent_count w' = sent_count w.
Proof.
  intros Hrel Hin Hc Hu w1 s He Hl.
  unfold process_row, try_catch, bind, gets. cbn [fst snd].
  unfold isConnected. rewrite Hc. cbn [negb].
  pose proof (sendMessage_keeps_scheduled (s_device m) (to_number m) (body m)
                no_options w) as Hk.
  pose proof (sendMessage_keeps_env (s_device m) (to_number m) (body m)
                no_options w) as Hen.
  destruct (sendMessage_over_quota (s_device m) (to_number m) (body m) None
              true u w Hc (Hrel _) (Hrel _) (Hrel _) Hu He Hl)
    as (wq & E & _ & Htr & _ & _).
  fold w1 in E. fold s in E. unfold no_options in *. rewrite E in Hk, Hen |- *.
  cbn [snd] in Hk, Hen. cbn beta in Hk, Hen.
  rewrite pool_query_ok by (rewrite Hen; apply Hrel).
  unfold console_error, modify. cbn [fst snd].
  destruct (find_marked
              (fun x => mkScheduled (s_id x) (s_device x) (to_number x) (body x)
                          (scheduled_at x) failed (sent_at x)
                          (Some (message (Error (quota_message (daily_message_limit s))))))
              (s_id m) _ m Hin eq_refl (fun _ => eq_refl)) as (m0 & _ & _ & Hf).
  eexists. eexists. split; [reflexivity|].
  unfold find_scheduled. cbn [db with_db scheduled_messages snd mark_failed
    with_scheduled_messages with_now with_queries with_console]. rewrite Hk.
  split; [exact Hf|].
  split; [reflexivity|]. split; [reflexivity|].
  unfold sent_count. cbn. rewrite Htr. reflexivity.
Qed.

Lemma due_message_over_quota_is_failed_witness :
  exists m' w',
    process_row due_1 w_due_exhausted = (Ok tt, w')
    /\ find_scheduled 1 w' = Some m'
    /\ status m' = failed
    /\ error_message m' = Some (quota_message 5)
    /\ sent_count w' = sent_count w_due_exhausted.
Proof.
  apply (due_message_over_quota_is_failed due_1 1 w_due_exhausted).
  - intro k. reflexivity.
  - simpl. left. reflexivity.
  - reflexivity.
  - reflexivity.
  - reflexivity.
  - vm_compute. discriminate.
Defined.

Section SortByKey.

Context {A : Type} (key : A -> Z).

Lemma insert_by_key_In x y l :
  In y (insert_by (fun a b => key a <=? key b) x l) <-> y = x \/ In y l.
Proof.
  induction l as [|z l IH]; cbn.
  - intuition.
  - destruct (key x <=? key z); cbn; [intuition|]. rewrite IH. intuition.
Qed.

Lemma sort_by_key_In y l :
  In y (sort_by (fun a b => key a <=? key b) l) <-> In y l.
Proof.
  induction l as [|z l IH]; cbn; [tauto|].
  rewrite insert_by_key_In, IH. intuition.
Qed.

Lemma insert_by_key_sorted x l :
  StronglySorted (fun a b => key a <= key b) l ->
  StronglySorted (fun a b => key a <= key b)
    (insert_by (fun a b => key a <=? key b) x l).
Proof.
  induction 1 as [|z l Hs IH Hz]; cbn.
  - repeat constructor.
  - destruct (key x <=? key z) eqn:E.
    + apply Z.leb_le in E. constructor; [constructor; assumption|].
      constructor; [exact E|]. rewrite Forall_forall in *. intros y Hy.
      specialize (Hz y Hy). cbn beta in Hz. lia.
    + apply Z.leb_gt in E. constructor; [exact IH|].
      rewrite Forall_forall in *. intros y Hy. apply insert_by_key_In in Hy.
      destruct Hy as [->|Hy]; [lia|apply Hz; exact Hy].
Qed.

Lemma sort_by_key_sorted l :
  StronglySorted (fun a b => key a <= key b)
    (sort_by (fun a b => key a <=? key b) l).
Proof.
  induction l as [|z l IH]; cbn; [constructor|].
  apply insert_by_key_sorted. exact IH.
Qed.

End SortByKey.

(** X24.  [getScheduledMessages] returns the rows of the device, all of
    them or those whose status is the one asked for (an empty status asks
    for none in particular), in ascending order of their scheduled time; it
    changes nothing. *)
Theorem scheduled_listing dev st w :
  fault_at (env w) (queries w) = None ->
  exists rows w',
    getScheduledMessages dev st w = (Ok rows, w')
    /\ db w' = db w
    /\ StronglySorted (fun a b => scheduled_at a <= scheduled_at b) rows
    /\ (forall m, In m rows <->
                  In m (scheduled_messages (db w)) /\ s_device m = dev /\ has_status st m).
Proof.
  intro Hq. unfold getScheduledMessages. rewrite (pool_query_ok _ w Hq).
  cbn [fst snd select_scheduled]. do 2 eexists. split; [reflexivity|].
  split; [reflexivity|]. split.
  - apply (sort_by_key_sorted scheduled_at).
  - intro m. rewrite (sort_by_key_In scheduled_at). rewrite filter_In.
    unfold has_status. rewrite andb_true_iff, Z.eqb_eq.
    destruct (truthy_text st) as [name|]; [rewrite String.eqb_eq|]; intuition.
Qed.

Lemma scheduled_listing_witness :
  exists rows w',
    getScheduledMessages 10 (Some "pending") w_two_due = (Ok rows, w')
    /\ rows = [due_1; due_2].
Proof.
  destruct (scheduled_listing 10 (Some "pending") w_two_due eq_refl)
    as (rows & w' & E & _).
  exists rows, w'. split; [exact E|].
  injection E as <- _. reflexivity.
Defined.

(** ** ConversationContext: the history of a completion *)

(** X25.  When the conversation table is in the order of creation, the
    history [checkAIAutoReply] hands to the provider is the last ten stored
    turns of the chat (fewer when fewer are stored), oldest first. *)
Theorem provider_sees_last_ten_turns dev chat w :
  StronglySorted older (ai_conversations (db w)) ->
  rev (fst (select_history dev chat (now w) (db w))) =
  map (fun t => (role t, content t)) (lastn 10 (chat_turns dev chat w)).
Proof.
  intro Hs. unfold select_history, chat_newest_first, chat_turns, lastn. cbn [fst].
  rewrite (sort_newest_first_sorted _ (StronglySorted_filter_older _ _ Hs)).
  rewrite firstn_rev, <- map_rev, rev_involutive. reflexivity.
Qed.

Lemma provider_sees_last_ten_turns_witness :
  let w := exchanges 6 1 10 "6281@c.us" w_calm in
  rev (fst (select_history 10 "6281@c.us" (now w) (db w))) =
  [(user, "q 2"); (assistant, "a 2"); (user, "q 3"); (assistant, "a 3");
   (user, "q 4"); (assistant, "a 4"); (user, "q 5"); (assistant, "a 5");
   (user, "q 6"); (assistant, "a 6")].
Proof.
  intro w.
  rewrite (provider_sees_last_ten_turns 10 "6281@c.us" w).
  - reflexivity.
  - vm_compute. repeat (constructor; [|repeat (constructor; [reflexivity|])]); constructor.
Defined.

(** ** ConversationContext: an exchange through [checkAIAutoReply] *)

Section WithinTrans.

Context {X : Type} (f : World -> X) (R0 : X -> X -> Prop).
Hypothesis R0_trans : forall x y z, R0 x y -> R0 y z -> R0 x z.

Lemma within_bind_trans {A B} (m : M A) (k : A -> M B) :
  within f R0 m -> (forall a, within f R0 (k a)) -> within f R0 (bind m k).
Proof.
  intros Hm Hk w. unfold bind. specialize (Hm w).
  destruct (m w) as [[a|e] w1]; cbn [snd] in *; [|exact Hm].
  eapply R0_trans; [exact Hm | apply Hk].
Qed.

Lemma within_try_trans {A} (m : M A) (h : JsError -> M A) :
  within f R0 m -> (forall e, within f R0 (h e)) -> within f R0 (try_catch m h).
Proof.
  intros Hm Hh w. unfold try_catch. specialize (Hm w).
  destruct (m w) as [[a|e] w1]; cbn [snd] in *; [exact Hm|].
  eapply R0_trans; [exact Hm | apply Hh].
Qed.

End WithinTrans.

(** The clock does not go back. *)
Lemma now_pool_query {A} (q : Z -> Db -> A * Db) : within now Z.le (pool_query q).
Proof.
  intro w. destruct (pool_query_cases q w) as [(m & ->)| ->]; cbn -[Z.add]; lia.
Qed.

Ltac now_step :=
  first
    [ apply now_pool_query
    | apply within_keeps; [exact Z.le_refl | solve [keeps_all]]
    | apply within_bind_trans; [exact Z.le_trans | | intro]
    | apply within_try_trans; [exact Z.le_trans | | intro]
    | match goal with
      | |- within _ _ (match ?x with _ => _ end) => destruct x
      | |- within _ _ (let '(_, _) := ?x in _) => destruct x
      end ].

Lemma now_checkAndUpdateUsage u d t : within now Z.le (checkAndUpdateUsage u d t).
Proof. unfold_calls. repeat now_step. Qed.

Lemma now_sleep ms : 0 <= ms -> within now Z.le (sleep ms).
Proof. intros H w. unfold sleep, modify. cbn -[Z.add]. lia. Qed.

(** What [reply_with] does once the exchange is recorded (the delay, the
    send and the metering) leaves the conversation table alone. *)
Lemma reply_with_frame msg dev u st a w w4 :
  save_conversation dev (from msg) (msg_body msg) a w = (Ok tt, w4) ->
  let w' := snd (reply_with msg dev u st a w) in
  ai_conversations (db w') = ai_conversations (db w4)
  /\ conv_seq (db w') = conv_seq (db w4)
  /\ now w4 <= now w'.
Proof.
  intros E w'. subst w'.
  set (r := reply_with msg dev u st a w).
  assert (Er : r = reply_with msg dev u st a w) by reflexivity.
  clearbody r. revert Er.
  unfold reply_with. unfold bind at 1. rewrite E. cbv beta iota. intros ->.
  match goal with |- context [snd (?T w4)] =>
    assert (K1 : keeps (fun w => ai_conversations (db w)) T)
      by (unfold_calls; keeps_all);
    assert (K2 : keeps (fun w => conv_seq (db w)) T) by (unfold_calls; keeps_all);
    assert (K3 : within now Z.le T)
  end.
  { apply within_bind_trans; [exact Z.le_trans| |intro].
    - destruct (reply_delay_seconds st >? 0) eqn:Hd.
      + apply now_sleep. apply Z.gtb_lt in Hd. lia.
      + apply within_keeps; [exact Z.le_refl | keeps_all].
    - apply within_bind_trans; [exact Z.le_trans| |intros [info|]].
      + apply within_keeps; [exact Z.le_refl | keeps_all].
      + apply within_bind_trans; [exact Z.le_trans| |intro].
        * apply within_keeps; [exact Z.le_refl | keeps_all].
        * apply within_try_trans; [exact Z.le_trans| |intro].
          -- apply within_bind_trans;
               [exact Z.le_trans | apply now_checkAndUpdateUsage | intro].
             apply within_keeps; [exact Z.le_refl | keeps_all].
          -- unfold console_error. apply within_keeps; [exact Z.le_refl | keeps_all].
      + apply within_keeps; [exact Z.le_refl | keeps_all]. }
  split; [exact (K1 w4)|]. split; [exact (K2 w4) | exact (K3 w4)].
Qed.

(** So does the [catch] block. *)
Lemma send_fallback_frame msg dev w :
  let w' := snd (send_fallback msg dev w) in
  ai_conversations (db w') = ai_conversations (db w)
  /\ conv_seq (db w') = conv_seq (db w)
  /\ now w <= now w'.
Proof.
  intro w'. subst w'.
  assert (K1 : keeps (fun w => ai_conversations (db w)) (send_fallback msg dev))
    by (unfold_calls; keeps_all).
  assert (K2 : keeps (fun w => conv_seq (db w)) (send_fallback msg dev))
    by (unfold_calls; keeps_all).
  assert (K3 : within now Z.le (send_fallback msg dev))
    by (unfold send_fallback, console_error; repeat now_step).
  split; [exact (K1 w)|]. split; [exact (K2 w) | exact (K3 w)].
Qed.

Lemma exchange_sorted dev chat t1 t2 w :
  conv_wf w -> now w <= t_created_at t1 -> older t1 t2 ->
  StronglySorted older (chat_turns dev chat w ++ [t1; t2]).
Proof.
  intros (Hs & Hnow & _ & _) H1 H2. unfold chat_turns.
  change [t1; t2] with ([t1] ++ [t2]). rewrite app_assoc.
  assert (Hf : Forall (fun t => t_created_at t < now w)
                 (filter (same_chat dev chat) (ai_conversations (db w))))
    by (apply Forall_filter; exact Hnow).
  apply StronglySorted_snoc; [apply StronglySorted_snoc|].
  - apply StronglySorted_filter_older. exact Hs.
  - eapply Forall_impl; [|exact Hf]. intros y Hy; cbn beta in Hy. unfold older. lia.
  - apply Forall_app. split.
    + eapply Forall_impl; [|exact Hf]. intros y Hy; cbn beta in Hy.
      unfold older in *. lia.
    + constructor; [exact H2 | constructor].
Qed.

(** From the table as the three statements leave it to the table at the
    end of the handler. *)
Lemma exchange_recorded_later dev chat tu ta w w4 w' :
  conv_wf w -> now w <= t_created_at tu -> older tu ta ->
  chat_turns dev chat w4 = lastn 50 (chat_turns dev chat w ++ [tu; ta]) ->
  (forall d' c', same_chat d' c' tu = false ->
                 chat_turns d' c' w4 = chat_turns d' c' w) ->
  conv_wf w4 ->
  ai_conversations (db w') = ai_conversations (db w4) ->
  conv_seq (db w') = conv_seq (db w4) ->
  now w4 <= now w' ->
  exchange_recorded dev chat tu ta w w'.
Proof.
  intros Hwf Htu Hta Hturns Hother Hwf4 K1 K2 K3.
  assert (Hct : forall d c, chat_turns d c w' = chat_turns d c w4)
    by (intros d c; unfold chat_turns; rewrite K1; reflexivity).
  unfold exchange_recorded. cbv zeta. rewrite !Hct.
  split; [exact Hturns|]. split; [rewrite Hturns; apply lastn_length|].
  split; [|split].
  - intros x y Hx Hy. rewrite Hturns in Hy. unfold lastn in Hy.
    set (all := chat_turns dev chat w ++ [tu; ta]) in *.
    apply (StronglySorted_app_older (firstn (List.length all - 50) all)
             (skipn (List.length all - 50) all)); [|exact Hx|exact Hy].
    rewrite firstn_skipn. apply exchange_sorted; assumption.
  - intros d' c' Hne. rewrite Hct. apply Hother. exact Hne.
  - destruct Hwf4 as (Hs & Hn & Hnd & Hid). unfold conv_wf. rewrite K1, K2.
    repeat split; try assumption.
    eapply Forall_impl; [|exact Hn]. intros y Hy; cbn beta in Hy. lia.
Qed.

(** The body of the [if (aiResponse)], when the store works: the exchange
    is recorded and the chat pruned, whatever the transport then does with
    the reply. *)
Lemma reply_with_exchange msg dev u st aiResponse w :
  reliable w ->
  conv_wf w ->
  exchange_recorded dev (from msg)
    (user_turn msg dev (conv_seq (db w)) (now w))
    (assistant_turn msg dev aiResponse (1 + conv_seq (db w)) (1 + now w))
    w (snd (reply_with msg dev u st aiResponse w)).
Proof.
  intros Hrel Hwf.
  destruct (save_conversation_run dev (from msg) (msg_body msg) aiResponse w
              (Hrel _) (Hrel _) (Hrel _) Hwf) as (Hok & Hturns & Hother & Hwf4).
  destruct (save_conversation dev (from msg) (msg_body msg) aiResponse w)
    as [r4 w4] eqn:Esave. cbn [fst snd] in Hok, Hturns, Hother, Hwf4. subst r4.
  destruct (reply_with_frame msg dev u st aiResponse w w4 Esave) as (K1 & K2 & K3).
  apply (exchange_recorded_later _ _ _ _ w w4); try assumption.
  - unfold user_turn. cbn. lia.
  - unfold older, user_turn, assistant_turn. cbn -[Z.add]. lia.
Qed.

Lemma try_bind_ok {A B} (m : M A) (k : A -> M B) (h : JsError -> M B) w a w1 :
  m w = (Ok a, w1) -> try_catch (bind m k) h w = try_catch (k a) h w1.
Proof. intro E. unfold try_catch, bind. rewrite E. reflexivity. Qed.

(** [checkAIAutoReply] on a message that goes on to the provider, when the
    store works and the provider answers: the statements that load the
    settings and the history come first, so the user turn is stamped two
    milliseconds after the call and the assistant turn three. *)
Lemma checkAIAutoReply_exchange msg dev u aiResponse w :
  reliable w ->
  conv_wf w ->
  ai_reply_due msg dev w = true ->
  ai_outcome (env w) (completions w) = AiText aiResponse ->
  JsString.truthy aiResponse = true ->
  exchange_recorded dev (from msg)
    (user_turn msg dev (conv_seq (db w)) (2 + now w))
    (assistant_turn msg dev aiResponse (1 + conv_seq (db w)) (3 + now w))
    w (snd (checkAIAutoReply msg dev u w)).
Proof.
  intros Hrel Hwf Hdue Hai Htruthy.
  unfold ai_reply_due in Hdue.
  destruct (fst (select_ai_settings dev 0 (db w))) as [|st rest] eqn:Hrows;
    [rewrite andb_false_r in Hdue; discriminate|].
  apply andb_true_iff in Hdue. destruct Hdue as [Hdue Hg].
  apply andb_true_iff in Hdue. destruct Hdue as [Hme Hblank].
  apply negb_true_iff in Hme, Hblank.
  unfold checkAIAutoReply, entered. unfold bind at 1. unfold modify at 1. cbn [fst snd].
  rewrite Hme, Hblank.
  set (w0 := with_calls _ w).
  rewrite (try_bind_ok _ _ _ w0 _ _ (pool_query_ok _ w0 (Hrel _))).
  change (fst (select_ai_settings dev (now w0) (db w0)))
    with (fst (select_ai_settings dev 0 (db w))).
  rewrite Hrows, Hg.
  match goal with |- context [try_catch _ _ ?x] => set (w1 := x) end.
  rewrite (try_bind_ok _ _ _ w1 _ _ (pool_query_ok _ w1 (Hrel _))).
  match goal with |- context [try_catch _ _ ?x] => set (w2 := x) end.
  assert (Hcall : call_provider (ai_provider st)
                    (rev (fst (select_history dev (from msg) (now w1) (db w1))))
                    (msg_body msg) w2 =
                  (Ok aiResponse,
                   with_trace (fun t => t ++ [EvComplete (ai_provider st)
                      (rev (fst (select_history dev (from msg) (now w1) (db w1))))
                      (msg_body msg)]) (with_completions S w2))).
  { unfold call_provider. change (ai_outcome (env w2) (completions w2))
      with (ai_outcome (env w) (completions w)). rewrite Hai. reflexivity. }
  rewrite (try_bind_ok _ _ _ w2 _ _ Hcall). rewrite Htruthy.
  match goal with |- context [try_catch _ _ ?x] => set (w3 := x) end.
  assert (Hrel3 : reliable w3) by exact Hrel.
  assert (Hnow3 : now w3 = 2 + now w) by (unfold w3, w2, w1, w0; cbn -[Z.add]; lia).
  assert (Hconv3 : ai_conversations (db w3) = ai_conversations (db w)) by reflexivity.
  assert (Hseq3 : conv_seq (db w3) = conv_seq (db w)) by reflexivity.
  assert (Hwf3 : conv_wf w3).
  { destruct Hwf as (Hs & Hn & Hnd & Hid). unfold conv_wf.
    rewrite Hconv3, Hseq3, Hnow3. repeat split; try assumption.
    eapply Forall_impl; [|exact Hn]. intros y Hy; cbn beta in Hy. lia. }
  clearbody w3. clear Hcall.
  destruct (save_conversation_run dev (from msg) (msg_body msg) aiResponse w3
              (Hrel3 _) (Hrel3 _) (Hrel3 _) Hwf3) as (Hok & Hturns & Hother & Hwf4).
  destruct (save_conversation dev (from msg) (msg_body msg) aiResponse w3)
    as [r4 w4] eqn:Esave. cbn [fst snd] in Hok, Hturns, Hother, Hwf4. subst r4.
  destruct (reply_with_frame msg dev u st aiResponse w3 w4 Esave) as (K1 & K2 & K3).
  assert (Hct3 : forall d c, chat_turns d c w3 = chat_turns d c w)
    by (intros d c; unfold chat_turns; rewrite Hconv3; reflexivity).
  rewrite Hseq3, Hnow3, Hct3 in Hturns.
  replace (1 + (2 + now w)) with (3 + now w) in Hturns by lia.
  rewrite Hseq3, Hnow3 in Hother.
  assert (Hother' : forall d' c',
            same_chat d' c' (user_turn msg dev (conv_seq (db w)) (2 + now w)) = false ->
            chat_turns d' c' w4 = chat_turns d' c' w)
    by (intros d' c' Hne; rewrite <- Hct3; apply Hother; exact Hne).
  apply (exchange_recorded_later _ _ _ _ w w4); try assumption.
  - unfold user_turn. cbn -[Z.add]. lia.
  - unfold older, user_turn, assistant_turn. cbn -[Z.add]. lia.
  - unfold try_catch.
    destruct (reply_with msg dev u st aiResponse w3) as [[[]|e] w5]; cbn [snd] in *;
      [exact K1|].
    destruct (send_fallback_frame msg dev w5) as (F1 & _). congruence.
  - unfold try_catch.
    destruct (reply_with msg dev u st aiResponse w3) as [[[]|e] w5]; cbn [snd] in *;
      [exact K2|].
    destruct (send_fallback_frame msg dev w5) as (_ & F2 & _). congruence.
  - unfold try_catch.
    destruct (reply_with msg dev u st aiResponse w3) as [[[]|e] w5]; cbn [snd] in *;
      [exact K3|].
    destruct (send_fallback_frame msg dev w5) as (_ & _ & F3). lia.
Qed.

(** C8.  [checkAIAutoReply] appends the user turn and the assistant turn
    of an exchange and then prunes.  With a store that works, the block
    that records an exchange leaves a chat with the last 50 of its old
    turns followed by the two new ones, at most 50 of them, every turn that
    went being older by created_at than every turn that stayed, and the
    turns of other chats untouched, whatever the transport does with the
    reply.  [checkAIAutoReply] runs that block for every message of ASCII
    text that goes on to the provider when the provider answers.  So after
    30 inbound messages of one chat, which append 60 turns, exactly 50 turns
    are stored: those with ids 11 to 60, the first of them the sixth
    question. *)
Theorem conversation_pruned_to_50 :
  (forall msg dev u st aiResponse w,
     reliable w ->
     conv_wf w ->
     exchange_recorded dev (from msg)
       (user_turn msg dev (conv_seq (db w)) (now w))
       (assistant_turn msg dev aiResponse (1 + conv_seq (db w)) (1 + now w))
       w (snd (reply_with msg dev u st aiResponse w)))
  /\ (forall msg dev u aiResponse w,
        reliable w ->
        conv_wf w ->
        gates_ascii msg dev w = true ->
        ai_reply_due msg dev w = true ->
        ai_outcome (env w) (completions w) = AiText aiResponse ->
        JsString.truthy aiResponse = true ->
        exchange_recorded dev (from msg)
          (user_turn msg dev (conv_seq (db w)) (2 + now w))
          (assistant_turn msg dev aiResponse (1 + conv_seq (db w)) (3 + now w))
          w (snd (checkAIAutoReply msg dev u w)))
  /\ (let w60 := ai_exchanges 30 1 10 1 w_ai_on in
      List.length (chat_turns 10 "6281@c.us" w60) = 50%nat
      /\ map t_id (chat_turns 10 "6281@c.us" w60) = map Z.of_nat (seq 11 50)
      /\ map (fun t => (role t, content t)) (firstn 2 (chat_turns 10 "6281@c.us" w60)) =
         [(user, "q 6"); (assistant, "Halo!")]
      /\ conv_seq (db w60) = 61
      /\ completions w60 = 30%nat).
Proof.
  split; [exact reply_with_exchange|]. split.
  - intros msg dev u aiResponse w Hrel Hwf _ Hdue Hai Htruthy.
    apply checkAIAutoReply_exchange; assumption.
  - vm_compute. repeat split; reflexivity.
Qed.

(** The 26th message of a chat that holds 50 turns. *)
Lemma conversation_pruned_to_50_witness :
  let w := ai_exchanges 25 1 10 1 w_ai_on in
  let msg := inbound "halo" in
  let w' := snd (checkAIAutoReply msg 10 1 w) in
  let all := chat_turns 10 "6281@c.us" w ++
             [user_turn msg 10 51 (2 + now w); assistant_turn msg 10 "Halo!" 52 (3 + now w)] in
  (List.length (chat_turns 10 "6281@c.us" w) = 50)%nat
  /\ chat_turns 10 "6281@c.us" w' = lastn 50 all
  /\ (List.length (chat_turns 10 "6281@c.us" w') <= 50)%nat.
Proof.
  assert (Hwf : conv_wf (ai_exchanges 25 1 10 1 w_ai_on)).
  { unfold conv_wf. vm_compute.
    repeat split;
      repeat first [ apply SSorted_nil | apply SSorted_cons | apply Forall_nil
                   | apply Forall_cons | apply NoDup_nil | apply NoDup_cons
                   | reflexivity
                   | intro H; repeat (destruct H as [H|H]; [discriminate H|]);
                     exact H ]. }
  destruct (proj1 (proj2 conversation_pruned_to_50) (inbound "halo") 10 1 "Halo!"
              (ai_exchanges 25 1 10 1 w_ai_on) (fun _ => eq_refl) Hwf
              eq_refl eq_refl eq_refl eq_refl)
    as (H1 & H2 & _).
  split; [vm_compute; reflexivity|]. split; [exact H1 | exact H2].
Defined.

(** ** AutoReplyCascade: the fallback *)

(** X26.  When the provider fails, nothing of the exchange is recorded and
    nothing is counted: for a message of ASCII text that goes on to the
    provider, with a store that works, a client and a transport that
    accepts, the device's fallback message is sent, the conversation table
    and the usage table stay as they were, and the failure is logged. *)
Theorem provider_failure_sends_fallback msg dev u st rest text info reason w :
  reliable w ->
  gates_ascii msg dev w = true ->
  ai_reply_due msg dev w = true ->
  fst (select_ai_settings dev 0 (db w)) = st :: rest ->
  ai_outcome (env w) (completions w) = AiFailed reason ->
  truthy_text (fallback_message st) = Some text ->
  clients_get (clients w) dev = Some info ->
  accepted (send_outcome (env w) (sends w)) = true ->
  exists w',
    checkAIAutoReply msg dev u w = (Ok tt, w')
    /\ trace w' =
       trace w ++
       [EvComplete (ai_provider st)
          (rev (fst (select_history dev (from msg) 0 (db w)))) (msg_body msg);
        EvSent dev (from msg) text]
    /\ daily_usage (db w') = daily_usage (db w)
    /\ ai_conversations (db w') = ai_conversations (db w)
    /\ console w' = console w ++ ["Error in AI auto-reply:"].
Proof.
  intros Hrel _ Hdue Hrows Hai Hfb Hc Hacc.
  unfold ai_reply_due in Hdue. rewrite Hrows in Hdue.
  apply andb_true_iff in Hdue. destruct Hdue as [Hdue Hg].
  apply andb_true_iff in Hdue. destruct Hdue as [Hme Hblank].
  apply negb_true_iff in Hme, Hblank.
  unfold checkAIAutoReply, entered, bind, modify. cbn [fst snd].
  rewrite Hme, Hblank.
  unfold try_catch, bind.
  rewrite pool_query_ok by apply Hrel.
  cbn [fst snd db with_calls]. 
  change (fst (select_ai_settings dev
                 (now (with_calls (fun l => l ++ ["checkAIAutoReply"]) w)) (db w)))
    with (fst (select_ai_settings dev 0 (db w))).
  rewrite Hrows, Hg.
  rewrite pool_query_ok by apply Hrel.
  unfold call_provider. cbn [fst snd env completions with_db with_now with_queries with_calls].
  rewrite Hai.
  unfold send_fallback, console_error, try_catch, bind, modify. cbn [fst snd].
  rewrite pool_query_ok by apply Hrel.
  cbn [fst snd select_fallback select_history db with_db].
  unfold select_ai_settings in Hrows. cbn [fst] in Hrows.
  cbn [snd select_ai_settings ai_settings db with_db with_console with_trace
       with_completions with_now with_queries with_calls].
  rewrite Hrows, Hfb.
  unfold gets, client_sendMessage. cbn [fst snd clients with_db with_console with_trace
    with_completions with_now with_queries with_calls env sends].
  rewrite Hc.
  cbn [fst snd clients with_db with_console with_trace
    with_completions with_now with_queries with_calls env sends].
  destruct (send_outcome (env w) (sends w)) as [mid ts|m]; [|discriminate].
  unfold ret. eexists. split; [reflexivity|]. cbn.
  rewrite <- app_assoc. repeat split; reflexivity.
Qed.

Lemma provider_failure_sends_fallback_witness :
  exists w',
    checkAIAutoReply (inbound "halo") 10 1 w_provider_down = (Ok tt, w')
    /\ trace w' =
       trace w_provider_down ++
       [EvComplete gemini [] "halo"; EvSent 10 "6281@c.us" "Maaf, coba lagi nanti."]
    /\ daily_usage (db w') = daily_usage (db w_provider_down)
    /\ ai_conversations (db w') = ai_conversations (db w_provider_down)
    /\ console w' = console w_provider_down ++ ["Error in AI auto-reply:"].
Proof.
  apply (provider_failure_sends_fallback (inbound "halo") 10 1 ai_on []
           "Maaf, coba lagi nanti." true "model overloaded" w_provider_down).
  - intro k. reflexivity.
  - reflexivity.
  - reflexivity.
  - reflexivity.
  - reflexivity.
  - reflexivity.
  - reflexivity.
  - reflexivity.
Defined.

(** ** MessageLogger *)

Lemma no_at_cons c s :
  JsString.includes (String c s) "@" = false ->
  c <> "@"%char /\ JsString.includes s "@" = false.
Proof.
  cbn [JsString.includes prefix]. intro H. apply orb_false_iff in H.
  destruct H as [H1 H2]. split; [|exact H2].
  intros ->. cbn in H1. destruct s; discriminate.
Qed.

Lemma prefix_at_head c s p :
  c <> "@"%char -> prefix (String "@" p) (String c s) = false.
Proof.
  intro H. cbn [prefix]. destruct (ascii_dec "@" c) as [E|_]; [|reflexivity].
  exfalso. apply H. symmetry. exact E.
Qed.

Lemma replace_suffix n p :
  JsString.includes n "@" = false ->
  MessageLogger.drop (String.length (String "@" p)) (String "@" p) = "" ->
  MessageLogger.replace (n ++ String "@" p) (String "@" p) "" = n.
Proof.
  intros Hn Hd. induction n as [|c n IH].
  - cbn [append MessageLogger.replace]. rewrite prefix_self. rewrite Hd. reflexivity.
  - apply no_at_cons in Hn. destruct Hn as [Hc Hn].
    cbn [append MessageLogger.replace]. rewrite (prefix_at_head c _ p Hc).
    rewrite (IH Hn). reflexivity.
Qed.

Lemma replace_absent n p :
  JsString.includes n "@" = false ->
  MessageLogger.replace n (String "@" p) "" = n.
Proof.
  intro Hn. induction n as [|c n IH]; [reflexivity|].
  apply no_at_cons in Hn. destruct Hn as [Hc Hn].
  cbn [MessageLogger.replace]. rewrite (prefix_at_head c _ p Hc).
  rewrite (IH Hn). reflexivity.
Qed.

Lemma replace_other_suffix n :
  JsString.includes n "@" = false ->
  MessageLogger.replace (n ++ "@g.us") "@c.us" "" = (n ++ "@g.us")%string.
Proof.
  intro Hn. induction n as [|c n IH]; [reflexivity|].
  apply no_at_cons in Hn. destruct Hn as [Hc Hn].
  cbn [append MessageLogger.replace]. rewrite (prefix_at_head c _ "c.us" Hc).
  rewrite (IH Hn). reflexivity.
Qed.

(** X27.  The logger's address columns undo each other: for a number
    without '@' the stored chat id is the number with '@c.us' appended and
    the stored to_number is the number again; a group id keeps its '@g.us'
    as chat id and loses it as to_number. *)
Theorem logged_address_round_trip n :
  JsString.includes n "@" = false ->
  MessageLogger.chatId_of n = (n ++ "@c.us")%string
  /\ MessageLogger.toNumber_of (MessageLogger.chatId_of n) = n
  /\ MessageLogger.chatId_of (n ++ "@g.us") = (n ++ "@g.us")%string
  /\ MessageLogger.toNumber_of (MessageLogger.chatId_of (n ++ "@g.us")) = n.
Proof.
  intro Hn.
  assert (E1 : MessageLogger.chatId_of n = (n ++ "@c.us")%string).
  { unfold MessageLogger.chatId_of. rewrite Hn. reflexivity. }
  assert (E2 : MessageLogger.chatId_of (n ++ "@g.us") = (n ++ "@g.us")%string).
  { unfold MessageLogger.chatId_of. rewrite includes_append; reflexivity. }
  split; [exact E1|]. split; [|split; [exact E2|]].
  - rewrite E1. unfold MessageLogger.toNumber_of.
    rewrite (replace_suffix n "c.us" Hn eq_refl). apply replace_absent. exact Hn.
  - rewrite E2. unfold MessageLogger.toNumber_of.
    rewrite (replace_other_suffix n Hn). apply (replace_suffix n "g.us" Hn eq_refl).
Qed.

Lemma logged_address_round_trip_witness :
  MessageLogger.toNumber_of (MessageLogger.chatId_of "6281234") = "6281234"
  /\ MessageLogger.toNumber_of (MessageLogger.chatId_of "12036@g.us") = "12036".
Proof.
  destruct (logged_address_round_trip "6281234" eq_refl) as (_ & H1 & _).
  destruct (logged_address_round_trip "12036" eq_refl) as (_ & _ & _ & H2).
  split; [exact H1|exact H2].
Defined.

Lemma append_length s t : String.length (s ++ t) = (String.length s + String.length t)%nat.
Proof. induction s as [|c s IH]; cbn; [reflexivity|]. rewrite IH. reflexivity. Qed.

Lemma append_cancel_r t : forall s1 s2 : string, (s1 ++ t = s2 ++ t)%string -> s1 = s2.
Proof.
  induction s1 as [|c s1 IH]; intros [|c2 s2] H.
  - reflexivity.
  - exfalso. apply (f_equal String.length) in H. cbn in H. rewrite append_length in H. lia.
  - exfalso. apply (f_equal String.length) in H. cbn in H. rewrite append_length in H. lia.
  - cbn in H. injection H as -> H. f_equal. apply IH. exact H.
Qed.

(** X28.  The chat id the logger stores is the chat id [sendMessage]
    addressed exactly when the recipient carries an '@' or consists of
    digits only: for a number written with a sign, spaces or dashes the
    history row names a chat the message did not go to. *)
Theorem logged_chat_matches_sent_chat to :
  MessageLogger.chatId_of to = format_number to
  <-> (JsString.includes to "@" = true \/ digits_only to = to).
Proof.
  unfold MessageLogger.chatId_of, format_number.
  destruct (JsString.includes to "@") eqn:E.
  - split; [left; reflexivity|reflexivity].
  - split.
    + intro H. right. symmetry. exact (append_cancel_r _ _ _ H).
    + intros [H|H]; [discriminate|]. rewrite H. reflexivity.
Qed.

Lemma saveOutgoingMessage_run uuid o s :
  MessageLogger.failing s (MessageLogger.issued s) = None ->
  MessageLogger.failing s (S (MessageLogger.issued s)) = None ->
  let s1 := MessageLogger.mkStore (MessageLogger.phone_numbers s) (MessageLogger.messages s)
              (MessageLogger.failing s) (S (MessageLogger.issued s))
              (1 + MessageLogger.clock s) (MessageLogger.errors s) in
  let chatId := MessageLogger.chatId_of (MessageLogger.to o) in
  let row := MessageLogger.mkRow (MessageLogger.deviceId o)
               (MessageLogger.msgId_of uuid (MessageLogger.messageId o)) chatId
               (fst (MessageLogger.select_phone_number (MessageLogger.deviceId o) s))
               (MessageLogger.toNumber_of chatId) (MessageLogger.o_body o)
               (MessageLogger.o_type o) true (1 + MessageLogger.clock s)
               (MessageLogger.o_status o)
               (MessageLogger.ack_of (MessageLogger.o_status o)) in
  MessageLogger.saveOutgoingMessage uuid o s =
  (Ok (fst (MessageLogger.upsert_message row s1)),
   MessageLogger.mkStore (MessageLogger.phone_numbers s)
     (snd (MessageLogger.upsert_message row s1))
     (MessageLogger.failing s) (S (S (MessageLogger.issued s)))
     (1 + (1 + MessageLogger.clock s)) (MessageLogger.errors s)).
Proof.
  intros H0 H1 s1 chatId row.
  unfold MessageLogger.saveOutgoingMessage, MessageLogger.query.
  rewrite H0. cbn [MessageLogger.select_phone_number].
  cbn [MessageLogger.failing MessageLogger.issued MessageLogger.clock
       MessageLogger.phone_numbers MessageLogger.messages MessageLogger.errors].
  rewrite H1. fold chatId. fold s1.
  change (fst (MessageLogger.select_phone_number (MessageLogger.deviceId o) s))
    with (match filter (fun p => fst p =? MessageLogger.deviceId o)
                  (MessageLogger.phone_numbers s) with
          | (_, Some n) :: _ => n
          | _ => ""
          end) in row.
  fold row.
  destruct (MessageLogger.upsert_message row s1) as [saved rows]. reflexivity.
Qed.

(** X29.  With a store that works, [saveOutgoingMessage] is an upsert on
    (device_id, message_id).  Under a new key it appends one row, written by
    the device, with the chat id, the to_number, the body and the status of
    the call.  Under a key that is stored it returns the stored row with
    only its status and ack replaced and adds no row.  Rows of other keys
    are never touched. *)
Theorem saveOutgoingMessage_upserts uuid o s :
  MessageLogger.failing s (MessageLogger.issued s) = None ->
  MessageLogger.failing s (S (MessageLogger.issued s)) = None ->
  let key := MessageLogger.same_key (MessageLogger.deviceId o)
               (MessageLogger.msgId_of uuid (MessageLogger.messageId o)) in
  exists row s',
    MessageLogger.saveOutgoingMessage uuid o s = (Ok row, s')
    /\ MessageLogger.status row = MessageLogger.o_status o
    /\ MessageLogger.ack row = MessageLogger.ack_of (MessageLogger.o_status o)
    /\ filter (fun r => negb (key r)) (MessageLogger.messages s') =
       filter (fun r => negb (key r)) (MessageLogger.messages s)
    /\ (filter key (MessageLogger.messages s) = [] ->
        MessageLogger.messages s' = MessageLogger.messages s ++ [row]
        /\ MessageLogger.chat_id row = MessageLogger.chatId_of (MessageLogger.to o)
        /\ MessageLogger.to_number row =
           MessageLogger.toNumber_of (MessageLogger.chatId_of (MessageLogger.to o))
        /\ MessageLogger.body row = MessageLogger.o_body o
        /\ MessageLogger.is_from_me row = true)
    /\ (forall old rest,
          filter key (MessageLogger.messages s) = old :: rest ->
          row = MessageLogger.excluded row old
          /\ MessageLogger.body row = MessageLogger.body old
          /\ MessageLogger.chat_id row = MessageLogger.chat_id old
          /\ List.length (MessageLogger.messages s') = List.length (MessageLogger.messages s)).
Proof.
  intros H0 H1 key.
  rewrite (saveOutgoingMessage_run uuid o s H0 H1).
  unfold MessageLogger.upsert_message.
  cbn [MessageLogger.device_id MessageLogger.message_id MessageLogger.messages].
  fold key.
  destruct (filter key (MessageLogger.messages s)) as [|old rest] eqn:E.
  - cbn [fst snd]. do 2 eexists. split; [reflexivity|].
    cbn [MessageLogger.messages MessageLogger.status MessageLogger.ack].
    split; [reflexivity|]. split; [reflexivity|]. split.
    + rewrite filter_app. cbn [filter]. unfold key at 2, MessageLogger.same_key.
      cbn [MessageLogger.device_id MessageLogger.message_id].
      rewrite Z.eqb_refl, String.eqb_refl. cbn. apply app_nil_r.
    + split; [intros _; repeat split; reflexivity|discriminate].
  - cbn [fst snd]. do 2 eexists. split; [reflexivity|].
    cbn [MessageLogger.messages MessageLogger.status MessageLogger.ack
         MessageLogger.excluded].
    split; [reflexivity|]. split; [reflexivity|]. split.
    + clear E. induction (MessageLogger.messages s) as [|r l IH]; [reflexivity|].
      cbn [map filter]. destruct (key r) eqn:K.
      * unfold key at 1, MessageLogger.same_key. cbn [MessageLogger.excluded
          MessageLogger.device_id MessageLogger.message_id].
        fold (MessageLogger.same_key (MessageLogger.deviceId o)
                (MessageLogger.msgId_of uuid (MessageLogger.messageId o)) r).
        fold key. rewrite K. cbn [negb]. exact IH.
      * rewrite K. cbn [negb]. f_equal. exact IH.
    + split; [discriminate|]. intros old' rest' E'. injection E' as <- <-.
      split; [reflexivity|]. split; [reflexivity|]. split; [reflexivity|].
      apply length_map.
Qed.

(** A history with one message of device 10, received by the transport. *)
Lemma saveOutgoingMessage_upserts_witness :
  exists row s',
    MessageLogger.saveOutgoingMessage "u1" (MessageLogger.outgoing 10 "+62 812" "halo")
      (MessageLogger.mkStore [(10, Some "6280")] [] (fun _ => None) 0 0 []) = (Ok row, s')
    /\ MessageLogger.messages s' = [row]
    /\ MessageLogger.chat_id row = "+62 812@c.us"
    /\ MessageLogger.to_number row = "+62 812".
Proof.
  destruct (saveOutgoingMessage_upserts "u1" (MessageLogger.outgoing 10 "+62 812" "halo")
              (MessageLogger.mkStore [(10, Some "6280")] [] (fun _ => None) 0 0 [])
              eq_refl eq_refl) as (row & s' & E & _ & _ & _ & Hnew & _).
  destruct (Hnew eq_refl) as (Hm & Hc & Ht & _).
  exists row, s'. split; [exact E|]. split; [exact Hm|]. split; [exact Hc|exact Ht].
Defined.

(** The two tables of acknowledgement texts agree on every level but -1,
    which the manager calls 'error' and the logger 'unknown'; and the level
    the logger stores with a message reads back as 'sent' for status 'sent'
    and as 'pending' for every other status. *)
Lemma ack_texts ack st :
  (ack <> -1 -> getAckStatus ack = MessageLogger.getAckStatusText ack)
  /\ getAckStatus (-1) = "error"
  /\ MessageLogger.getAckStatusText (-1) = "unknown"
  /\ MessageLogger.getAckStatusText (MessageLogger.ack_of st) =
     (if String.eqb st "sent" then "sent" else "pending").
Proof.
  split; [|split; [reflexivity|split; [reflexivity|]]].
  - intro H. unfold getAckStatus, MessageLogger.getAckStatusText.
    destruct (ack =? -1) eqn:E; [apply Z.eqb_eq in E; contradiction|reflexivity].
  - unfold MessageLogger.ack_of. destruct (String.eqb st "sent"); reflexivity.
Qed.

(** X30.  [updateMessageStatus] never throws: a store failure is logged and
    swallowed, and leaves the table as it was.  When the statement goes
    through, the rows of the key take the new status, and the new ack only
    if one is given; the rows of other keys are never touched. *)
Theorem updateMessageStatus_swallows_failures dev mid st ack s :
  let key := MessageLogger.same_key dev mid in
  exists s',
    MessageLogger.updateMessageStatus dev mid st ack s = (Ok tt, s')
    /\ filter (fun r => negb (key r)) (MessageLogger.messages s') =
       filter (fun r => negb (key r)) (MessageLogger.messages s)
    /\ (forall m,
          MessageLogger.failing s (MessageLogger.issued s) = Some m ->
          MessageLogger.messages s' = MessageLogger.messages s
          /\ MessageLogger.errors s' =
             MessageLogger.errors s ++ ["Error updating message status:"])
    /\ (MessageLogger.failing s (MessageLogger.issued s) = None ->
        map (fun r => (MessageLogger.status r, MessageLogger.ack r))
            (filter key (MessageLogger.messages s')) =
        map (fun r => (st, match ack with
                           | Some a => a
                           | None => MessageLogger.ack r
                           end))
            (filter key (MessageLogger.messages s))).
Proof.
  intro key. unfold MessageLogger.updateMessageStatus, MessageLogger.query.
  destruct (MessageLogger.failing s (MessageLogger.issued s)) as [m|] eqn:E.
  - eexists. split; [reflexivity|]. cbn. split; [reflexivity|].
    split; [|discriminate]. intros m' _. split; reflexivity.
  - cbn [MessageLogger.update_status]. eexists. split; [reflexivity|].
    cbn [MessageLogger.messages]. split; [|split; [discriminate|intros _]].
    + induction (MessageLogger.messages s) as [|r l IH]; [reflexivity|].
      cbn [map filter]. fold key. destruct (key r) eqn:K.
      * unfold key at 1, MessageLogger.same_key.
        cbn [MessageLogger.device_id MessageLogger.message_id].
        fold (MessageLogger.same_key dev mid r). fold key. rewrite K. cbn [negb]. exact IH.
      * rewrite K. cbn [negb]. f_equal. exact IH.
    + induction (MessageLogger.messages s) as [|r l IH]; [reflexivity|].
      cbn [map filter]. fold key. destruct (key r) eqn:K.
      * unfold key at 1, MessageLogger.same_key.
        cbn [MessageLogger.device_id MessageLogger.message_id].
        fold (MessageLogger.same_key dev mid r). fold key. rewrite K.
        cbn [map MessageLogger.status MessageLogger.ack]. f_equal. exact IH.
      * rewrite K. exact IH.
Qed.
